(** * GreenPAK4 place-and-route toolchain: post-PAR checks, label allocation,
      netlist module loading, the programmer's command line and run, and
      the enumeration of HID devices.

    A shallow embedding of
      - [src/gp4par/par_main.cpp]               ([DoPAR], [PostPARDRC], [AllocateLabel]),
      - [src/greenpak4/Greenpak4NetlistModule.cpp] (constructor, [GetNode]),
      - [src/gp4prog/main.cpp]                  ([main], [ShowUsage], [ShowVersion],
                                                 [BitFunction], [WriteBitstream]),
      - [src/vendor/hidapi/linux/hid.c]         ([parse_uevent_info], [get_device_string],
                                                 [hid_enumerate], [hid_free_enumeration]),
    together with the properties the specification states about them and
    further properties of the code.

    The C++ code prints to stdout/stderr, calls [exit] and dereferences
    pointers.  All three are made explicit: a computation yields the lines it
    printed and an [Outcome] which is a normal return, a process exit with a
    status, or undefined behaviour (a null or out-of-bounds access). *)

From Stdlib Require Import ZArith Lia Ascii Floats.
From stdpp Require Import gmap strings list pretty.

Open Scope Z_scope.

Set Warnings "-register-all,-clear-no-such-hyp,-inexact-float".

(** ** Strings of the diagnostics *)

(** The characters a Rocq string literal cannot hold directly. *)
Definition nl : string := String "010"%char EmptyString.
Definition dq : string := String "034"%char EmptyString.

(** [\"%s\"] of a printf format. *)
Definition quoted (s : string) : string := dq +:+ s +:+ dq.

Fixpoint spaces (n : nat) : string :=
  match n with
  | O => EmptyString
  | S k => String " "%char (spaces k)
  end.

(** [%10s]: right-justified in a field of at least ten characters. *)
Definition pad10 (s : string) : string :=
  spaces (10 - String.length s)%nat +:+ s.

(** ** The process monad *)

Inductive Stream := Stdout | Stderr.

Definition Line : Type := Stream * string.

Inductive Outcome (A : Type) : Type :=
| Returned (a : A)       (* the function returned [a] *)
| Exited (status : Z)    (* [exit(status)] was called *)
| Undefined.             (* undefined behaviour was reached *)

Arguments Returned {A} a.
Arguments Exited {A} status.
Arguments Undefined {A}.

(** Lines printed so far, and how the computation ended. *)
Definition Proc (A : Type) : Type := (list Line * Outcome A)%type.

Definition Proc_ret {A} (a : A) : Proc A := ([], Returned a).

Definition Proc_bind {A B} (f : A → Proc B) (m : Proc A) : Proc B :=
  match m with
  | (o, Returned a) => let '(o', r) := f a in (o ++ o', r)
  | (o, Exited c) => (o, Exited c)
  | (o, Undefined) => (o, Undefined)
  end.

#[global] Instance Proc_mret : MRet Proc := @Proc_ret.
#[global] Instance Proc_mbind : MBind Proc := @Proc_bind.

Arguments Proc_ret : simpl never.
Arguments Proc_bind : simpl never.

Definition printf (s : string) : Proc unit := ([(Stdout, s)], Returned tt).
Definition eprintf (s : string) : Proc unit := ([(Stderr, s)], Returned tt).
Definition exit {A} (status : Z) : Proc A := ([], Exited status).
Definition undefined {A} : Proc A := ([], Undefined).

(** What the parent process sees of [exit(status)]: the low eight bits. *)
Definition exit_status (status : Z) : Z := Z.land status 255.

(** The process was terminated by [exit] with a non-zero status. *)
Definition fatal {A} (r : Outcome A) : Prop :=
  ∃ c, r = Exited c ∧ exit_status c ≠ 0.

(** The lines a computation wrote to stderr. *)
Definition stderr_of (o : list Line) : list string :=
  omap (λ l : Line, match l.1 with Stderr => Some l.2 | Stdout => None end) o.

(** Dereferencing a pointer that may be null. *)
Definition deref {A} (p : option A) : Proc A :=
  match p with
  | Some a => mret a
  | None => undefined
  end.

(** [m] run after the lines [o] have been printed. *)
Definition prefixed {A} (o : list Line) (m : Proc A) : Proc A := (o ++ m.1, m.2).

(** ** Greenpak4NetlistModule.cpp *)

Module NetlistModule.

(** What json-c hands to the constructor: an object is iterated as a sequence
    of (key, value) members; every other JSON type is only ever tested with
    [json_object_is_type].  The sequences json-c can hand over have pairwise
    different keys (see [json_object_object_add] below); a statement about
    every sequence holds of them. *)
Inductive json_type :=
| json_type_null | json_type_boolean | json_type_double | json_type_int
| json_type_array | json_type_string.

Inductive json_object :=
| json_members (members : list (string * json_object))
| json_other (t : json_type).

Definition is_type_object (o : json_object) : bool :=
  match o with
  | json_members _ => true
  | json_other _ => false
  end.

(** The members of an object, none for another JSON type. *)
Definition members_of (o : json_object) : list (string * json_object) :=
  match o with
  | json_members members => members
  | json_other _ => []
  end.

(** A JSON text as it is written: the members of an object in the order of
    the text, where a name may be written more than once. *)
Inductive json_text :=
| text_members (members : list (string * json_text))
| text_other (t : json_type).

(** [json_object_object_add(obj, key, val)] of json-c, a library outside
    this repository: the members of an object are kept in a hash table, so
    the value of a key that is present is replaced, and a new key is put
    behind the others.  An object is therefore iterated with pairwise
    different keys. *)
Definition json_object_object_add (members : list (string * json_object))
    (key : string) (val : json_object) : list (string * json_object) :=
  if bool_decide (key ∈ members.*1) then
    map (λ member : string * json_object,
           if bool_decide (member.1 = key) then (key, val) else member)
      members
  else members ++ [(key, val)].

(** [json_tokener_parse] of json-c: the object built for a text; the members
    of an object are added one after the other as they are read. *)
Fixpoint json_tokener_parse (text : json_text) : json_object :=
  match text with
  | text_other t => json_other t
  | text_members members =>
      json_members
        (foldl (λ object (member : string * json_text),
                  json_object_object_add object member.1
                    (json_tokener_parse member.2))
           [] members)
  end.

(** The names declared under the members called ["ports"], in the order in
    which the constructor meets them. *)
Definition port_names (members : list (string * json_object)) : list string :=
  flat_map (λ member : string * json_object,
              if decide (member.1 = "ports") then map fst (members_of member.2) else [])
    members.

(** Address of a heap-allocated [Greenpak4NetlistNode]. *)
Definition node_ptr := nat.

Section Module.

(** [Greenpak4NetlistPort] lives in another file of the library. *)
Variable Greenpak4NetlistPort : Type.

(** The members of the module the code touches, and the number of nodes
    allocated so far: [new Greenpak4NetlistNode] returns a fresh address. *)
Record Greenpak4NetlistModule := mkModule {
  m_ports : gmap string Greenpak4NetlistPort;
  m_nodes : gmap Z node_ptr;
  allocated : nat
}.

Definition set_ports (m : Greenpak4NetlistModule) ports :=
  {| m_ports := ports; m_nodes := m_nodes m; allocated := allocated m |}.

(** The constructor of [Greenpak4NetlistPort], in the same file as the
    class.  It is handed the module ([this]), so besides printing and
    terminating the process it may change the module: the port and the
    module as the constructor leaves it. *)
Variable NewPort :
  string → json_object → Greenpak4NetlistModule
  → Proc (Greenpak4NetlistPort * Greenpak4NetlistModule).

Definition LoadCell (name : string) (object : json_object) : Proc unit :=
  printf ("    Cell " +:+ name +:+ nl).

Definition LoadNetName (name : string) (object : json_object) : Proc unit :=
  printf ("    Net name " +:+ name +:+ nl).

Definition not_object_error {A} : Proc A :=
  eprintf ("ERROR: module child should be of type object but isn't" +:+ nl) ;;
  exit (-1).

(** The body of the inner loop, for the member [cname : cobject] of the
    top-level member called [name]. *)
Definition load_child (name cname : string) (cobject : json_object)
    (m : Greenpak4NetlistModule) : Proc Greenpak4NetlistModule :=
  if negb (is_type_object cobject) then not_object_error
  else if decide (name = "ports") then
    if decide (is_Some (m_ports m !! cname)) then
      eprintf ("ERROR: Attempted redeclaration of module port "
               +:+ quoted name +:+ nl) ;;
      exit (-1)
    else
      '(port, m) ← NewPort cname cobject m;
      mret (set_ports m (<[cname := port]> (m_ports m)))
  else if decide (name = "cells") then
    LoadCell cname cobject ;; mret m
  else if decide (name = "netnames") then
    LoadNetName cname cobject ;; mret m
  else
    eprintf ("ERROR: Unknown top-level JSON object " +:+ quoted name +:+ nl) ;;
    exit (-1).

Fixpoint load_children (name : string) (children : list (string * json_object))
    (m : Greenpak4NetlistModule) : Proc Greenpak4NetlistModule :=
  match children with
  | [] => mret m
  | (cname, cobject) :: rest =>
      m' ← load_child name cname cobject m;
      load_children name rest m'
  end.

(** The body of the outer loop. *)
Definition load_member (name : string) (child : json_object)
    (m : Greenpak4NetlistModule) : Proc Greenpak4NetlistModule :=
  match child with
  | json_other _ => not_object_error
  | json_members children => load_children name children m
  end.

Fixpoint load_members (members : list (string * json_object))
    (m : Greenpak4NetlistModule) : Proc Greenpak4NetlistModule :=
  match members with
  | [] => mret m
  | (name, child) :: rest =>
      m' ← load_member name child m;
      load_members rest m'
  end.

(** [Greenpak4NetlistModule::Greenpak4NetlistModule(parent, name, object)].
    Iterating something that is not an object is undefined. *)
Definition new_Greenpak4NetlistModule (name : string) (object : json_object)
    : Proc Greenpak4NetlistModule :=
  printf ("Module " +:+ name +:+ "..." +:+ nl) ;;
  match object with
  | json_other _ => undefined
  | json_members members =>
      load_members members
        {| m_ports := ∅; m_nodes := ∅; allocated := 0%nat |}
  end.

(** [Greenpak4NetlistModule::GetNode(netnum)]: the node pointer returned and
    the module afterwards. *)
Definition GetNode (netnum : Z) (m : Greenpak4NetlistModule)
    : node_ptr * Greenpak4NetlistModule :=
  match m_nodes m !! netnum with
  | None =>
      let p := allocated m in
      (p, {| m_ports := m_ports m;
             m_nodes := <[netnum := p]> (m_nodes m);
             allocated := S (allocated m) |})
  | Some p => (p, m)
  end.

(** [GetNode] called for each net of [ks] in turn. *)
Definition GetNodes (ks : list Z) (m : Greenpak4NetlistModule)
    : Greenpak4NetlistModule :=
  foldl (λ m k, (GetNode k m).2) m ks.

(** Whenever the port constructor returns, the port map of the module is as
    it was. *)
Definition keeps_ports : Prop :=
  ∀ cname cobject m out port m',
    NewPort cname cobject m = (out, Returned (port, m')) →
    m_ports m' = m_ports m.

(** The port constructor accepts every declaration: it returns and writes
    nothing to stderr. *)
Definition accepts_ports : Prop :=
  ∀ cname cobject m,
    ∃ out port m',
      NewPort cname cobject m = (out, Returned (port, m')) ∧ stderr_of out = [].

(** Every node of the node map has been allocated. *)
Definition nodes_allocated (m : Greenpak4NetlistModule) : Prop :=
  ∀ netnum p, m_nodes m !! netnum = Some p → (p < allocated m)%nat.

End Module.

End NetlistModule.

(** ** par_main.cpp *)

Module Par.

(** *** The graphs (xbpar) *)

Record PARGraphEdge := mkEdge {
  m_sourceport : string;
  m_destport : string
}.

(** A node with its payload ([GetData]), its mate ([GetMate], [None] for
    NULL) and its outbound edges.  The checks below read nothing of a mate but
    its payload and never write to a node, so a mate pointer is modelled by
    the payload of the node it points to. *)
Record PARGraphNode (Data Mate : Type) := mkNode {
  m_data : Data;
  m_mate : option Mate;
  m_edges : list PARGraphEdge
}.

Arguments mkNode {Data Mate} _ _ _.
Arguments m_data {Data Mate} _.
Arguments m_mate {Data Mate} _.
Arguments m_edges {Data Mate} _.

Definition GetEdgeCount {Data Mate} (n : PARGraphNode Data Mate) : nat :=
  length (m_edges n).

(** Modelled from the spec: [PARGraph::AllocateLabel] is not among the
    sources; labels are small integers "drawn from a monotonically allocated
    namespace", here the [uint32_t] counter [m_nextLabel]. *)
Record PARGraph (Node : Type) := mkGraph {
  m_nodes : list Node;
  m_nextLabel : Z
}.

Arguments mkGraph {Node} _ _.
Arguments m_nodes {Node} _.
Arguments m_nextLabel {Node} _.

Definition uint32 (z : Z) : Z := z mod 2 ^ 32.

Definition PARGraph_AllocateLabel {Node} (g : PARGraph Node) : Z * PARGraph Node :=
  (m_nextLabel g,
   {| m_nodes := m_nodes g; m_nextLabel := uint32 (m_nextLabel g + 1) |}).

(** *** Netlist entities and device sites *)

(** The payload of a netlist node: a cell with its type, or any other entity
    (a top-level port, a power pseudo-node).  [dynamic_cast] to
    [Greenpak4NetlistCell] is the test for the first constructor. *)
Inductive Greenpak4NetlistEntity :=
| Greenpak4NetlistCell (name : string) (type : string)
| Greenpak4NetlistPort (name : string).

Definition m_name (e : Greenpak4NetlistEntity) : string :=
  match e with
  | Greenpak4NetlistCell name _ => name
  | Greenpak4NetlistPort name => name
  end.

(** Modelled from the spec: the device catalog is not among the sources.  A
    site object ([Greenpak4BitstreamEntity*]) is identified by its kind and
    ordinal; the [dynamic_cast]s of the code are tests on the kind. *)
Inductive Greenpak4BitstreamEntity :=
| Greenpak4PowerRail (digital_value : bool)
| Greenpak4IOB (pin : Z)
| Greenpak4Comparator (index : nat)
| Greenpak4VoltageReference (index : nat)
| Greenpak4PGA
| Greenpak4LFOscillator
| Greenpak4RingOscillator
| Greenpak4RCOscillator
| Greenpak4PowerOnReset
| Greenpak4OtherEntity (description : string).

#[global] Instance Greenpak4BitstreamEntity_eq_dec : EqDecision Greenpak4BitstreamEntity.
Proof. solve_decision. Defined.

Definition is_PowerRail (e : Greenpak4BitstreamEntity) : bool :=
  match e with Greenpak4PowerRail _ => true | _ => false end.

Definition is_VoltageReference (e : Greenpak4BitstreamEntity) : bool :=
  match e with Greenpak4VoltageReference _ => true | _ => false end.

Definition is_PGA (e : Greenpak4BitstreamEntity) : bool :=
  match e with Greenpak4PGA => true | _ => false end.

(** An output port of a site: [operator==] compares the site and the port. *)
Record Greenpak4EntityOutput := mkOutput {
  m_src : Greenpak4BitstreamEntity;
  m_port : string
}.

#[global] Instance Greenpak4EntityOutput_eq_dec : EqDecision Greenpak4EntityOutput.
Proof. solve_decision. Defined.

Definition IsPowerRail (s : Greenpak4EntityOutput) : bool := is_PowerRail (m_src s).
Definition GetRealEntity (s : Greenpak4EntityOutput) : Greenpak4BitstreamEntity := m_src s.

(** Nodes of the netlist graph and of the device graph. *)
Definition NetlistNode := PARGraphNode Greenpak4NetlistEntity Greenpak4BitstreamEntity.
Definition DeviceNode := PARGraphNode Greenpak4BitstreamEntity Greenpak4NetlistEntity.

(** *** The device as the checks see it *)

Inductive GREENPAK4_PART :=
| GREENPAK4_SLG46620
| GREENPAK4_SLG46621
| GREENPAK4_SLG46140.

Record IOBState := mkIOB {
  GetOutputSignal : Greenpak4EntityOutput;
  IsAnalogIbuf : bool
}.

Record ComparatorState := mkAcmp {
  GetInput : Greenpak4EntityOutput;
  GetPowerEn : Greenpak4EntityOutput;
  GetPARNode : DeviceNode
}.

Definition SetInput (input : Greenpak4EntityOutput) (acmp : ComparatorState) :=
  {| GetInput := input; GetPowerEn := GetPowerEn acmp; GetPARNode := GetPARNode acmp |}.

Definition SetPowerEn (en : Greenpak4EntityOutput) (acmp : ComparatorState) :=
  {| GetInput := GetInput acmp; GetPowerEn := en; GetPARNode := GetPARNode acmp |}.

Record OscillatorState := mkOsc {
  GetDescription : string;
  IsUsed : bool;
  GetPowerDownEn : bool;
  GetPowerDown : Greenpak4EntityOutput
}.

(** Modelled from the spec: [IsConstantPowerDown] is not among the sources; a
    constant source is one of the two power rails, "the two distinguished
    sites VDD and GND act as constant drivers". *)
Definition IsConstantPowerDown (osc : OscillatorState) : bool :=
  IsPowerRail (GetPowerDown osc).

(** [m_iobs] lists the IOBs by ascending pin number, the order in which
    [iobbegin() .. iobend()] walks the map. *)
Record Greenpak4Device := mkDevice {
  GetPart : GREENPAK4_PART;
  m_iobs : list (Z * IOBState);
  m_acmps : list ComparatorState;
  GetLFOscillator : OscillatorState;
  GetRingOscillator : OscillatorState;
  GetRCOscillator : OscillatorState
}.

Definition GetAcmpCount (d : Greenpak4Device) : nat := length (m_acmps d).
Definition GetAcmp (d : Greenpak4Device) (i : nat) : option ComparatorState := m_acmps d !! i.

Definition set_acmps (d : Greenpak4Device) (acmps : list ComparatorState) :=
  {| GetPart := GetPart d; m_iobs := m_iobs d; m_acmps := acmps;
     GetLFOscillator := GetLFOscillator d;
     GetRingOscillator := GetRingOscillator d;
     GetRCOscillator := GetRCOscillator d |}.

Definition GetPower : Greenpak4EntityOutput := mkOutput (Greenpak4PowerRail true) EmptyString.
Definition GetGround : Greenpak4EntityOutput := mkOutput (Greenpak4PowerRail false) EmptyString.
Definition IOB_GetOutput (pin : Z) (port : string) := mkOutput (Greenpak4IOB pin) port.
Definition PowerOnReset_GetOutput (port : string) := mkOutput Greenpak4PowerOnReset port.

(** [typedef pair<string, Greenpak4EntityOutput> spair]. *)
Definition spair : Type := string * Greenpak4EntityOutput.

(** A range-based [for] whose body may terminate the process. *)
Fixpoint for_each {A} (body : A → Proc unit) (l : list A) : Proc unit :=
  match l with
  | [] => mret tt
  | x :: rest => body x ;; for_each body rest
  end.

(** *** PostPARDRC *)

Section PostPARDRC.

(** Two virtual queries of the device library whose results only feed the
    loops and the diagnostics: the output ports of a site and the printable
    name of a signal. *)
Variable GetOutputPorts : Greenpak4BitstreamEntity → list string.
Variable GetOutputName : Greenpak4EntityOutput → string.

Definition unmapped_error (src : Greenpak4NetlistEntity) : string :=
  "    ERROR: Node " +:+ quoted (m_name src)
    +:+ " is not mapped to any site in the device" +:+ nl.

Definition no_load_warning (src : Greenpak4NetlistEntity) : string :=
  "    WARNING: Node " +:+ quoted (m_name src) +:+ " has no load" +:+ nl.

(** [cell != NULL && (cell->m_type == "GP_IOBUF" || cell->m_type == "GP_OBUF")] *)
Definition is_output_iob_cell (src : Greenpak4NetlistEntity) : bool :=
  match src with
  | Greenpak4NetlistCell _ type =>
      bool_decide (type = "GP_IOBUF") || bool_decide (type = "GP_OBUF")
  | Greenpak4NetlistPort _ => false
  end.

(** Body of the first loop (lines 74-109).  [mate->GetData()] is evaluated
    on line 77, before the test of [mate] against NULL on line 80. *)
Definition check_node (node : NetlistNode) : Proc unit :=
  let src := m_data node in
  let mate := m_mate node in
  dst ← deref mate;
  match mate with
  | None => eprintf (unmapped_error src) ;; exit (-1)
  | Some _ =>
      if is_PowerRail dst then mret tt
      else if bool_decide (length (GetOutputPorts dst) = 0%nat) then mret tt
      else if is_output_iob_cell src then mret tt
      else if bool_decide (GetEdgeCount node = 0%nat)
           then printf (no_load_warning src)
           else mret tt
  end.

Definition analog_ibuf_error (pin : Z) (signal : Greenpak4EntityOutput) : string :=
  "    ERROR: Pin " +:+ pretty pin +:+ " is driven by an analog source ("
    +:+ GetOutputName signal +:+ ") but does not have IBUF_TYPE = ANALOG" +:+ nl.

(** Body of the second loop (lines 119-137). *)
Definition check_iob (it : Z * IOBState) : Proc unit :=
  let iob := it.2 in
  let signal := GetOutputSignal iob in
  let src := GetRealEntity signal in
  if negb (IsAnalogIbuf iob) && (is_VoltageReference src || is_PGA src)
  then eprintf (analog_ibuf_error it.1 signal) ;; exit (-1)
  else mret tt.

(** Lines 146-148: [device->GetIOB(6)->GetOutput("")], [device->GetPower()]
    and [device->GetGround()] name a site and a port each. *)
Definition pin6 : Greenpak4EntityOutput := IOB_GetOutput 6 EmptyString.
Definition vdd : Greenpak4EntityOutput := GetPower.
Definition gnd : Greenpak4EntityOutput := GetGround.

(** Lines 153-169: the comparators that use the shared mux, with the
    instance name of the netlist cell placed on each. *)
Fixpoint acmp_inputs (acmps : list ComparatorState) : list spair :=
  match acmps with
  | [] => []
  | acmp :: rest =>
      let input := GetInput acmp in
      if bool_decide (input ≠ pin6) && bool_decide (input ≠ vdd)
      then acmp_inputs rest
      else match m_mate (GetPARNode acmp) with
           | None => acmp_inputs rest
           | Some node => (m_name node, input) :: acmp_inputs rest
           end
  end.

Definition mux_conflict_error : string :=
  "    ERROR: Multiple comparators tried to simultaneously use different outputs from "
    +:+ "the ACMP0 input mux" +:+ nl.

Definition comparator_line (p : spair) : string :=
  "        Comparator " +:+ pad10 p.1 +:+ " requested " +:+ GetOutputName p.2 +:+ nl.

(** Lines 172-193: [todo] is what is left of the loop over [inputs]. *)
Fixpoint check_shared_input (inputs todo : list spair)
    (shared_input : Greenpak4EntityOutput) : Proc Greenpak4EntityOutput :=
  match todo with
  | [] => mret shared_input
  | s :: rest =>
      let shared_input :=
        if bool_decide (shared_input = gnd) then s.2 else shared_input in
      if bool_decide (shared_input = s.2)
      then check_shared_input inputs rest shared_input
      else
        eprintf mux_conflict_error ;;
        for_each (λ p, printf (comparator_line p)) inputs ;;
        exit (-1)
  end.

Definition acmp0_info : string :=
  "    INFO: Enabling ACMP0 and configuring input mux, since output of mux is used "
    +:+ "but ACMP0 is not instantiated" +:+ nl.

(** Lines 145-206, the case [GREENPAK4_SLG46620] of the switch. *)
Definition check_acmp_mux (device : Greenpak4Device) : Proc Greenpak4Device :=
  let inputs := acmp_inputs (m_acmps device) in
  shared_input ← check_shared_input inputs inputs gnd;
  acmp ← deref (GetAcmp device 0);
  if bool_decide (GetInput acmp = gnd) && bool_decide (0 < length inputs)%nat
  then
    printf acmp0_info ;;
    acmp0 ← deref (GetAcmp device 0);
    let acmp0 := SetInput shared_input acmp0 in
    let acmp0 := SetPowerEn (PowerOnReset_GetOutput "RST_DONE") acmp0 in
    mret (set_acmps device (<[0%nat := acmp0]> (m_acmps device)))
  else mret device.

(** Lines 217-223. *)
Definition powerdown_of (osc : OscillatorState) : list spair :=
  if IsUsed osc && GetPowerDownEn osc && negb (IsConstantPowerDown osc)
  then [(GetDescription osc, GetPowerDown osc)]
  else [].

Definition powerdowns (device : Greenpak4Device) : list spair :=
  powerdown_of (GetLFOscillator device)
    ++ powerdown_of (GetRingOscillator device)
    ++ powerdown_of (GetRCOscillator device).

(** Lines 228-234: the final value of [ok]. *)
Fixpoint same_powerdown (todo : list spair) (src : Greenpak4EntityOutput)
    (ok : bool) : bool :=
  match todo with
  | [] => ok
  | p :: rest =>
      let src := if IsPowerRail src then p.2 else src in
      let ok := if bool_decide (src ≠ p.2) then false else ok in
      same_powerdown rest src ok
  end.

Definition powerdown_error : string :=
  "    ERROR: Multiple oscillators have power-down enabled, "
    +:+ "but do not share the same power-down signal" +:+ nl.

Definition oscillator_line (p : spair) : string :=
  "    Oscillator " +:+ pad10 p.1 +:+ " powerdown is " +:+ GetOutputName p.2 +:+ nl.

(** Lines 214-244. *)
Definition check_oscillators (device : Greenpak4Device) : Proc unit :=
  let powerdowns := powerdowns device in
  if bool_decide (powerdowns ≠ []) then
    let ok := same_powerdown powerdowns GetGround true in
    if negb ok then
      eprintf powerdown_error ;;
      for_each (λ p, printf (oscillator_line p)) powerdowns ;;
      exit (-1)
    else mret tt
  else mret tt.

Definition drc_banner : string := nl +:+ "Post-PAR design rule checks" +:+ nl.

(** [void PostPARDRC(PARGraph* netlist, Greenpak4Device* device)]: the device
    is changed in place, so the model returns it. *)
Definition PostPARDRC (netlist : PARGraph NetlistNode) (device : Greenpak4Device)
    : Proc Greenpak4Device :=
  printf drc_banner ;;
  for_each check_node (m_nodes netlist) ;;
  for_each check_iob (m_iobs device) ;;
  device ← match GetPart device with
           | GREENPAK4_SLG46620 => check_acmp_mux device
           | _ => mret device
           end;
  check_oscillators device ;;
  mret device.

(** What [PostPARDRC] does after the loop over the netlist nodes, and what it
    does before the oscillators are looked at. *)
Definition device_checks (device : Greenpak4Device) : Proc Greenpak4Device :=
  for_each check_iob (m_iobs device) ;;
  device ← match GetPart device with
           | GREENPAK4_SLG46620 => check_acmp_mux device
           | _ => mret device
           end;
  check_oscillators device ;;
  mret device.

Definition checks_before_oscillators (netlist : PARGraph NetlistNode)
    (device : Greenpak4Device) : Proc Greenpak4Device :=
  printf drc_banner ;;
  for_each check_node (m_nodes netlist) ;;
  for_each check_iob (m_iobs device) ;;
  match GetPart device with
  | GREENPAK4_SLG46620 => check_acmp_mux device
  | _ => mret device
  end.

(** *** The rules in the words of the specification *)

(** A netlist node that is placed, drives no load, and is neither placed on
    a power rail, nor an output IOB cell, nor placed on a site without
    output ports. *)
Definition no_load (node : NetlistNode) : bool :=
  match m_mate node with
  | None => false
  | Some dst =>
      bool_decide (GetEdgeCount node = 0%nat)
      && negb (is_PowerRail dst)
      && negb (is_output_iob_cell (m_data node))
      && bool_decide (GetOutputPorts dst ≠ [])
  end.

(** An IOB driven by a voltage reference or the PGA without being an analog
    input buffer. *)
Definition analog_mismatch (iob : IOBState) : bool :=
  negb (IsAnalogIbuf iob)
  && (is_VoltageReference (m_src (GetOutputSignal iob))
      || is_PGA (m_src (GetOutputSignal iob))).

(** A used comparator whose input is pin 6 or VDD. *)
Definition uses_shared_mux (acmp : ComparatorState) : bool :=
  (bool_decide (GetInput acmp = pin6) || bool_decide (GetInput acmp = vdd))
  && bool_decide (is_Some (m_mate (GetPARNode acmp))).

(** A used oscillator with power-down enabled from a source that is not a
    constant. *)
Definition powers_down (osc : OscillatorState) : bool :=
  IsUsed osc && GetPowerDownEn osc && negb (IsConstantPowerDown osc).

Definition oscillators (device : Greenpak4Device) : list OscillatorState :=
  [GetLFOscillator device; GetRingOscillator device; GetRCOscillator device].

(** *** Names for the statements below *)

Definition warning_line (node : NetlistNode) : Line :=
  (Stdout, no_load_warning (m_data node)).

(** The part-specific check, and the oscillator check with the return of
    [PostPARDRC]. *)
Definition mux_stage (device : Greenpak4Device) : Proc Greenpak4Device :=
  match GetPart device with
  | GREENPAK4_SLG46620 => check_acmp_mux device
  | _ => mret device
  end.

Definition oscillator_stage (device : Greenpak4Device) : Proc Greenpak4Device :=
  check_oscillators device ;; mret device.

(** The netlist instance placed on a comparator, and its entry in [inputs]. *)
Definition instance_name (acmp : ComparatorState) : string :=
  match m_mate (GetPARNode acmp) with
  | Some node => m_name node
  | None => EmptyString
  end.

Definition request (acmp : ComparatorState) : spair :=
  (instance_name acmp, GetInput acmp).

(** The users of the shared mux request the same source. *)
Definition agree (users : list ComparatorState) : Prop :=
  ∀ a b, a ∈ users → b ∈ users → GetInput a = GetInput b.

(** Two users of the shared mux request different sources. *)
Definition disagree (users : list ComparatorState) : Prop :=
  ∃ a b, a ∈ users ∧ b ∈ users ∧ GetInput a ≠ GetInput b.

(** The conflict branch of the loop: the error, one line for each entry of
    [inputs], and the exit. *)
Definition conflict_exit {A} (inputs : list spair) : Proc A :=
  ((Stderr, mux_conflict_error) :: map (λ p, (Stdout, comparator_line p)) inputs,
   Exited (-1)).

(** ACMP0 as [PostPARDRC] configures it for the shared source. *)
Definition owner_for (source : Greenpak4EntityOutput) (acmp0 : ComparatorState) :=
  SetPowerEn (PowerOnReset_GetOutput "RST_DONE") (SetInput source acmp0).

(** The entry of an oscillator in [powerdowns]. *)
Definition powerdown_entry (osc : OscillatorState) : spair :=
  (GetDescription osc, GetPowerDown osc).

(** The oscillators of the list have the same power-down source, or two of
    them have different ones. *)
Definition same_source (oscs : list OscillatorState) : Prop :=
  ∀ a b, a ∈ oscs → b ∈ oscs → GetPowerDown a = GetPowerDown b.

Definition distinct_sources (oscs : list OscillatorState) : Prop :=
  ∃ a b, a ∈ oscs ∧ b ∈ oscs ∧ GetPowerDown a ≠ GetPowerDown b.

(** The error branch of the oscillator check. *)
Definition powerdown_exit {A} (sharing : list OscillatorState) : Proc A :=
  ((Stderr, powerdown_error)
     :: map (λ o, (Stdout, oscillator_line (powerdown_entry o))) sharing,
   Exited (-1)).

End PostPARDRC.

(** *** AllocateLabel *)

(** [typedef std::map<uint32_t, std::string> labelmap]. *)
Abbreviation labelmap := (gmap Z string).

Definition label_skew_error : string :=
  "INTERNAL ERROR: labels were allocated at the same time but don't match up" +:+ nl.

(** [uint32_t AllocateLabel(PARGraph*& ngraph, PARGraph*& dgraph, labelmap& lmap,
    std::string description)]: the label returned, and the two graphs and the
    label map as the call leaves them. *)
Definition AllocateLabel {N D} (ngraph : PARGraph N) (dgraph : PARGraph D)
    (lmap : labelmap) (description : string)
    : Proc (Z * PARGraph N * PARGraph D * labelmap) :=
  let '(nlabel, ngraph) := PARGraph_AllocateLabel ngraph in
  let '(dlabel, dgraph) := PARGraph_AllocateLabel dgraph in
  if bool_decide (nlabel ≠ dlabel)
  then eprintf label_skew_error ;; exit (-1)
  else mret (nlabel, ngraph, dgraph, <[nlabel := description]> lmap).

(** *** DoPAR *)

Section DoPAR.

Variable GetOutputPorts : Greenpak4BitstreamEntity → list string.
Variable GetOutputName : Greenpak4EntityOutput → string.

(** The collaborators of [DoPAR] that are not among the sources, by what
    they read and what they may change.  The graph builders and the engine
    may print and may terminate the process; the engine works on the two
    graphs and changes nothing but mates; only [CommitChanges] writes to the
    device, and the device it leaves is the one the checks then read (with
    the device-graph node of each comparator as the engine left it). *)
Variable Greenpak4Netlist : Type.
Variable BuildGraphs :
  Greenpak4Netlist → Greenpak4Device →
  Proc (PARGraph NetlistNode * PARGraph DeviceNode * labelmap).
Variable PlaceAndRoute :
  PARGraph NetlistNode → PARGraph DeviceNode → labelmap →
  Proc (bool * PARGraph NetlistNode * PARGraph DeviceNode).
Variable CommitChanges :
  PARGraph DeviceNode → Greenpak4Device → Proc (Greenpak4Device * (Z * Z)).
Variable PrintPlacementReport : PARGraph NetlistNode → Greenpak4Device → list string.
Variable PrintUtilizationReport :
  PARGraph NetlistNode → Greenpak4Device → Z * Z → list string.

Definition stdout_lines (lines : list string) : list Line :=
  map (λ s, (Stdout, s)) lines.

Definition print_lines (lines : list string) : Proc unit :=
  (map (λ s, (Stdout, s)) lines, Returned tt).

Definition creating_graphs : string := nl +:+ "Creating netlist graphs..." +:+ nl.
Definition par_failed : string := "PAR failed" +:+ nl.

(** [bool DoPAR(Greenpak4Netlist* netlist, Greenpak4Device* device)]: the
    value returned and the device as the call leaves it. *)
Definition DoPAR (netlist : Greenpak4Netlist) (device : Greenpak4Device)
    : Proc (bool * Greenpak4Device) :=
  printf creating_graphs ;;
  '(ngraph, dgraph, lmap) ← BuildGraphs netlist device;
  '(placed, ngraph, dgraph) ← PlaceAndRoute ngraph dgraph lmap;
  if negb placed then
    print_lines (PrintPlacementReport ngraph device) ;;
    printf par_failed ;;
    mret (false, device)
  else
    '(device, num_routes_used) ← CommitChanges dgraph device;
    device ← PostPARDRC GetOutputPorts GetOutputName ngraph device;
    print_lines (PrintUtilizationReport ngraph device num_routes_used) ;;
    print_lines (PrintPlacementReport ngraph device) ;;
    mret (true, device).

End DoPAR.

End Par.

(** ** gp4prog/main.cpp: preparing the bitstream to download *)

Module Gp4prog.

(** [(uint8_t) z]. *)
Definition uint8 (z : Z) : Z := Z.land z 255.

(** [v[i] |= x] on a [vector<uint8_t>]: the operands are promoted to [int],
    the result is stored as a byte.  A subscript past the end is undefined
    ([None]). *)
Definition or_assign (i : nat) (x : Z) (v : list Z) : option (list Z) :=
  b ← v !! i;
  Some (<[i := uint8 (Z.lor b x)]> v).

(** The command-line switches and the trim value that reach the download. *)
Record Options := mkOptions {
  rcFtw : Z;
  patternIdSpecified : bool;
  patternId : Z;
  readProtect : bool;
  programNvram : bool
}.

(** Lines 349-368: the trim value, the pattern id and the read protection
    bit are put into [newBitstream]. *)
Definition set_fields (o : Options) (newBitstream : list Z) : option (list Z) :=
  bs ← or_assign 246 (Z.shiftl (rcFtw o) 7) newBitstream;
  bs ← or_assign 247 (Z.shiftr (rcFtw o) 1) bs;
  bs ← (if patternIdSpecified o then
          bs ← or_assign 253 (Z.shiftl (patternId o) 7) bs;
          or_assign 254 (Z.shiftr (patternId o) 1) bs
        else Some bs);
  or_assign 254 (Z.shiftl (Z.b2z (readProtect o)) 7) bs.

(** Lines 360-362: the pattern id as it is read back for the log. *)
Definition read_patternID (bs : list Z) : option Z :=
  hi ← bs !! 254%nat;
  lo ← bs !! 253%nat;
  Some (Z.lor (Z.land (Z.shiftl hi 1) 255) (Z.land (Z.shiftr lo 7) 255)).

(** The byte [b] after [|= x]. *)
Definition or_byte (x b : Z) : Z := uint8 (Z.lor b x).

(** What lines 349-368 do to the byte at index [i]. *)
Definition set_field (o : Options) (i : nat) (b : Z) : Z :=
  if decide (i = 246%nat) then or_byte (Z.shiftl (rcFtw o) 7) b
  else if decide (i = 247%nat) then or_byte (Z.shiftr (rcFtw o) 1) b
  else if decide (i = 253%nat) then
    if patternIdSpecified o then or_byte (Z.shiftl (patternId o) 7) b else b
  else if decide (i = 254%nat) then
    or_byte (Z.shiftl (Z.b2z (readProtect o)) 7)
      (if patternIdSpecified o then or_byte (Z.shiftr (patternId o) 1) b else b)
  else b.

Inductive DownloadMode := EMULATION | PROGRAMMING.

(** How the block starting at line 334 goes on after [ReadBitstream]. *)
Inductive Step :=
| ReturnFromMain (code : Z)
| CallDownloadBitstream (mode : DownloadMode) (bitstream : list Z)
| OutOfBounds.

(** Lines 336-388, given the vector [ReadBitstream] returned and
    [BitstreamLength(detectedPart)] in bits. *)
Definition prepare_download (BitstreamLength : Z) (o : Options)
    (newBitstream : list Z) : Step :=
  if bool_decide (newBitstream = []) then ReturnFromMain 1
  else if bool_decide (Z.of_nat (length newBitstream) ≠ BitstreamLength / 8)
  then ReturnFromMain 1
  else match set_fields o newBitstream with
       | None => OutOfBounds
       | Some bs =>
           CallDownloadBitstream (if programNvram o then PROGRAMMING else EMULATION) bs
       end.

(** *** BitFunction *)

(** The two parts the file names, and any other value of [SilegoPart]. *)
Inductive SilegoPart :=
| UNRECOGNIZED
| SLG46620V
| other_part (n : nat).

(** [bitno >= lo && bitno <= hi]. *)
Definition between (lo hi bitno : Z) : bool := (lo <=? bitno) && (bitno <=? hi).

(** The chain of conditionals of the case [SLG46620V]; [None] is NULL. *)
Definition SLG46620V_bitFunction (bitno : Z) : option string :=
  if between 570 575 bitno then None
  else if bitno =? 833 then Some "ACMP5 speed double"
  else if bitno =? 835 then Some "ACMP4 speed double"
  else if bitno =? 881 then None
  else if between 887 891 bitno then Some "Vref value fine tune"
  else if bitno =? 922 then Some "bandgap 1x buffer enable"
  else if bitno =? 937 then Some "Vref op amp chopper frequency select"
  else if bitno =? 938 then Some "bandgap op amp offset chopper enable"
  else if bitno =? 939 then Some "Vref op amp offset chopper enable"
  else if between 1003 1015 bitno || between 1594 1599 bitno then None
  else if between 1975 1981 bitno then Some "RC oscillator trimming value"
  else if between 1982 1987 bitno || between 1988 1995 bitno
          || between 1996 2001 bitno || between 2002 2007 bitno
          || between 2013 2014 bitno || between 2021 2027 bitno
          || between 2028 2029 bitno || (bitno =? 2030) then None
  else if between 2031 2038 bitno then Some "pattern ID"
  else if bitno =? 2039 then Some "read protection"
  else Some "see datasheet".

(** [const char *BitFunction(SilegoPart part, size_t bitno)]; [None] when the
    part is not known and [LogFatal] is called. *)
Definition BitFunction (part : SilegoPart) (bitno : Z) : option string :=
  match part with
  | SLG46620V =>
      Some (match SLG46620V_bitFunction bitno with
            | Some bitFunction => bitFunction
            | None => "unknown--reserved"
            end)
  | _ => None
  end.

(** *** Bits of a bitstream *)

(** [((v[i/8] >> (i%8)) & 1) == 1], undefined past the end of [v]. *)
Definition bit_at (v : list Z) (i : nat) : option bool :=
  byte ← v !! (i / 8)%nat;
  Some (Z.land (Z.shiftr byte (Z.of_nat (i mod 8))) 1 =? 1).

(** Lines 349-363: the id printed as ["Bitstream ID code"], read back after
    the trim value and the pattern id are set. *)
Definition logged_patternID (o : Options) (newBitstream : list Z) : option Z :=
  bs ← or_assign 246 (Z.shiftl (rcFtw o) 7) newBitstream;
  bs ← or_assign 247 (Z.shiftr (rcFtw o) 1) bs;
  bs ← (if patternIdSpecified o then
          bs ← or_assign 253 (Z.shiftl (patternId o) 7) bs;
          or_assign 254 (Z.shiftr (patternId o) 1) bs
        else Some bs);
  read_patternID bs.

(** *** Verification of the programmed bitstream *)

(** A line ["Bit ... differs"] of the log. *)
Record Difference := mkDifference {
  diff_bit : nat;
  diff_expected : bool;
  diff_actual : bool;
  diff_meaning : string
}.

Inductive Verification :=
| Verified (failed : bool) (differences : list Difference)
| UnknownPart
| BitOutOfBounds.

(** Lines 397-415: the loop over the bits [todo], with [failed] and the
    lines logged so far. *)
Fixpoint compare_bits (part : SilegoPart) (newBitstream bitstreamToVerify : list Z)
    (todo : list nat) (failed : bool) (log : list Difference) : Verification :=
  match todo with
  | [] => Verified failed log
  | i :: rest =>
      match bit_at newBitstream i, bit_at bitstreamToVerify i with
      | Some expectedBit, Some actualBit =>
          if negb (eqb expectedBit actualBit) then
            match BitFunction part (Z.of_nat i) with
            | Some bitFunction =>
                compare_bits part newBitstream bitstreamToVerify rest true
                  (log ++ [mkDifference i expectedBit actualBit bitFunction])
            | None => UnknownPart
            end
          else compare_bits part newBitstream bitstreamToVerify rest failed log
      | _, _ => BitOutOfBounds
      end
  end.

(** Lines 392-420, given the vector [UploadBitstream] filled. *)
Definition verify (part : SilegoPart) (newBitstream bitstreamToVerify : list Z)
    (bitstreamLength : nat) : Verification :=
  compare_bits part newBitstream bitstreamToVerify
    (seq 0 (bitstreamLength * 8)) false [].

(** *** WriteBitstream *)

Definition tab : string := String "009"%char EmptyString.

Definition bitstream_header : string :=
  "index" +:+ tab +:+ tab +:+ "value" +:+ tab +:+ tab +:+ "comment" +:+ nl.

(** [(bitstream[i / 8] >> (i % 8)) & 1]. *)
Definition bit_value (bitstream : list Z) (i : nat) : option Z :=
  byte ← bitstream !! (i / 8)%nat;
  Some (Z.land (Z.shiftr byte (Z.of_nat (i mod 8))) 1).

(** [(int)i] for the [size_t] of the loop: the low 32 bits of [i], read as
    a signed number. *)
Definition int_of_size_t (i : nat) : Z :=
  (Z.of_nat i + 2147483648) mod 4294967296 - 2147483648.

Definition bitstream_line (i : nat) (value : Z) : string :=
  pretty (int_of_size_t i) +:+ tab +:+ tab +:+ pretty value +:+ tab +:+ tab
    +:+ "//" +:+ nl.

(** The values the loop of lines 603-607 prints, one for each bit. *)
Definition bitstream_values (bitstream : list Z) : option (list Z) :=
  mapM (bit_value bitstream) (seq 0 (length bitstream * 8)).

(** [void WriteBitstream(string fname, vector<uint8_t> bitstream)]: what is
    written to the file, if it can be opened. *)
Definition WriteBitstream (opened : bool) (bitstream : list Z) : option (list string) :=
  if opened then
    values ← bitstream_values bitstream;
    Some (bitstream_header :: imap bitstream_line values)
  else None.

End Gp4prog.
(** ** gp4prog/main.cpp: the command line and the run of [main] *)

Module Gp4progMain.

Import Gp4prog.

(** *** Text printed by [ShowUsage] and [ShowVersion] *)

Definition lines (l : list string) : string :=
  foldr (λ line text, line +:+ nl +:+ text) EmptyString l.

Definition usage : string := lines [
  "Usage: gp4prog bitstream.txt";
  "    When run with no arguments, scans for the board but makes no config changes.";
  "    -q, --quiet";
  "        Causes only warnings and errors to be written to the console.";
  "        Specify twice to also silence warnings.";
  "    --verbose";
  "        Prints additional information about the design.";
  "    --debug";
  "        Prints lots of internal debugging information.";
  "    --force";
  "        Perform actions that may be potentially inadvisable.";
  "";
  "    The following options are instructions for the developer board. They are";
  "    executed in the order listed here, regardless of their order on command line.";
  "    -r, --reset";
  "        Resets the board:";
  "          * disables every LED;";
  "          * disables every expansion connector passthrough;";
  "          * disables Vdd supply.";
  "    -R, --read           <bitstream filename>";
  "        Uploads the bitstream stored in non-volatile memory.";
  "    -t, --test-socket";
  "        Verifies that every connection between socket and device is intact.";
  "    -T, --trim           [25k|2M]";
  "        Trims the RC oscillator to achieve the specified frequency.";
  "    -e, --emulate        <bitstream filename>";
  "        Downloads the specified bitstream into volatile memory.";
  "        Implies --reset --voltage 3.3.";
  "    --program            <bitstream filename>";
  "        Programs the specified bitstream into non-volatile memory.";
  "        THIS CAN BE DONE ONLY ONCE FOR EVERY INTEGRATED CIRCUIT.";
  "        Attempts to program non-empty parts will be rejected unless --force";
  "        is specified.";
  "    -v, --voltage        <voltage>";
  "        Adjusts Vdd to the specified value in volts (0V to 5.5V), ±70mV.";
  "    -n, --nets           <net list>";
  "        For every test point in the specified comma-separated list:";
  "          * enables a non-inverted LED, if any;";
  "          * enables expansion connector passthrough."
].

Definition version : string := lines [
  "GreenPAK 4 programmer by Andrew D. Zonenberg and whitequark.";
  "";
  "License: LGPL v2.1+";
  "This is free software: you are free to change and redistribute it.";
  "There is NO WARRANTY, to the extent permitted by law."
].

(** *** C strings *)

(** [arg + n]: the string from its [n]-th character on. *)
Fixpoint advance (n : nat) (arg : string) : string :=
  match n, arg with
  | S n, String _ arg => advance n arg
  | _, _ => arg
  end.

(** How the argument loop goes on: with the next iteration, or by returning
    from [main] after one [printf]. *)
Inductive Parse (A : Type) : Type :=
| Ok (a : A)
| Stop (printed : string) (code : Z).

Arguments Ok {A} a.
Arguments Stop {A} printed code.

(** Other values of [BitstreamKind] than [EMPTY]. *)
Inductive BitstreamKind :=
| EMPTY
| other_kind (n : nat).

Inductive TPConfig := TP_RESET | TP_FLOAT.

(** An [IOConfig] is built by its default constructor and then assigned to,
    one array element at a time. *)
Inductive IOAssignment :=
| driverConfigs (i : Z) (config : TPConfig)
| ledEnabled (i : Z) (enabled : bool)
| expansionEnabled (i : Z) (enabled : bool).

Definition IOConfig : Type := list IOAssignment.

(** The calls [main] makes into gpdevboard and the file system.  The handle
    [hdev] every one of them takes is the one [OpenBoard] returned. *)
Inductive Call :=
| call_OpenBoard
| call_SetStatusLED (status : bool)
| call_DetectPart
| call_WriteBitstream (fname : string) (bitstream : list Z)
| call_SocketTest (part : SilegoPart)
| call_Reset
| call_TrimOscillator (part : SilegoPart) (voltage : float) (freq : Z)
| call_ReadBitstream (fname : string)
| call_DownloadBitstream (bitstream : list Z) (mode : DownloadMode)
| call_UploadBitstream (size : nat)
| call_SetIOConfig (config : IOConfig)
| call_ConfigureSiggen (channel : Z) (voltage : float)
| call_CheckStatus
| call_USBCleanup.

(** The name of the function called. *)
Definition function_name (c : Call) : string :=
  match c with
  | call_OpenBoard => "OpenBoard"
  | call_SetStatusLED _ => "SetStatusLED"
  | call_DetectPart => "DetectPart"
  | call_WriteBitstream _ _ => "WriteBitstream"
  | call_SocketTest _ => "SocketTest"
  | call_Reset => "Reset"
  | call_TrimOscillator _ _ _ => "TrimOscillator"
  | call_ReadBitstream _ => "ReadBitstream"
  | call_DownloadBitstream _ _ => "DownloadBitstream"
  | call_UploadBitstream _ => "UploadBitstream"
  | call_SetIOConfig _ => "SetIOConfig"
  | call_ConfigureSiggen _ _ => "ConfigureSiggen"
  | call_CheckStatus => "CheckStatus"
  | call_USBCleanup => "USBCleanup"
  end.

(** The board, the part in its socket and the files, as [main] sees them:
    what each call answers after the calls made before it.  [fopen] is the
    one in [WriteBitstream]; an out-parameter is part of the answer. *)
Record Board := mkBoard {
  OpenBoard : list Call → bool;
  SetStatusLED : list Call → bool → bool;
  DetectPart : list Call → option (SilegoPart * list Z * BitstreamKind);
  fopen : list Call → string → bool;
  SocketTest : list Call → SilegoPart → bool;
  Reset : list Call → bool;
  TrimOscillator : list Call → SilegoPart → float → Z → option Z;
  ReadBitstream : list Call → string → list Z;
  BitstreamLength : SilegoPart → nat;
  DownloadBitstream : list Call → list Z → DownloadMode → bool;
  UploadBitstream : list Call → nat → option (list Z);
  SetIOConfig : list Call → IOConfig → bool;
  ConfigureSiggen : list Call → Z → float → bool;
  CheckStatus : list Call → bool
}.

Inductive LogFunction := LogError | LogNotice | LogDebug.

(** What the run writes: with [printf], through the logger, and the two
    notices the verification writes for a bit that differs. *)
Inductive Output :=
| printed (text : string)
| logged (function : LogFunction) (text : string)
| bit_differs (d : Difference).

Record World := mkWorld {
  history : list Call;
  output : list Output
}.

(** How [main] ends: it returns, [LogFatal] is called, a subscript is out of
    bounds or an uninitialized variable is read. *)
Inductive Ending :=
| Return (code : Z)
| Fatal
| OutOfBounds
| Uninitialized.

(** A part of [main] goes on with a value or ends [main]. *)
Inductive Result (A : Type) : Type :=
| Continue (a : A)
| Ended (e : Ending).

Arguments Continue {A} a.
Arguments Ended {A} e.

Definition Main (A : Type) : Type := World → World * Result A.

Definition Main_ret {A} (a : A) : Main A := λ w, (w, Continue a).

Definition Main_bind {A B} (f : A → Main B) (m : Main A) : Main B :=
  λ w, match m w with
       | (w', Continue a) => f a w'
       | (w', Ended e) => (w', Ended e)
       end.

#[global] Instance Main_mret : MRet Main := @Main_ret.
#[global] Instance Main_mbind : MBind Main := @Main_bind.

(** A call: its answer is read off the calls made so far, then it joins
    them. *)
Definition invoke {A} (c : Call) (answer : list Call → A) : Main A :=
  λ w, (mkWorld (history w ++ [c]) (output w), Continue (answer (history w))).

Definition write (o : list Output) : Main unit :=
  λ w, (mkWorld (history w) (output w ++ o), Continue tt).

Definition log (function : LogFunction) (text : string) : Main unit :=
  write [logged function text].

Definition stop {A} (e : Ending) : Main A := λ w, (w, Ended e).

Definition return_ {A} (code : Z) : Main A := stop (Return code).

Section main.

(** From [log.h]: the type of [console_verbosity], its initial value, the
    comparison [>=], and [ParseLoggerArguments(i, argc, argv,
    console_verbosity)].  The last is given [argv] from [argv[i]] on; it
    answers [None] for [false], and otherwise the number of further
    arguments it advanced [i] over and the new verbosity. *)
Variable Severity : Type.
Variable NOTICE : Severity.
Variable at_least : Severity → Severity → bool.
Variable ParseLoggerArguments : list string → Severity → option (nat * Severity).

(** From libc: [strtol(arg, &end, 10)] and [strtod(arg, &end)] answer the
    value and the number of characters converted; [%.3g] and [%02x]. *)
Variable strtol : string → Z * nat.
Variable strtod : string → float * nat.
Variable format_3g : float → string.
Variable format_02x : Z → string.

(** *** The argument loop *)

(** The local variables of [main] the arguments set. *)
Record CommandLine := mkCommandLine {
  console_verbosity : Severity;
  reset : bool;
  test : bool;
  rcOscFreq : Z;
  downloadFilename : string;
  uploadFilename : string;
  programNvram : bool;
  force : bool;
  patternId : Z;
  patternIdSpecified : bool;
  readProtect : bool;
  voltage : float;
  nets : list Z
}.

Definition initial : CommandLine :=
  mkCommandLine NOTICE false false 0 EmptyString EmptyString false false 0 false false
    0%float [].

Definition set_console_verbosity (x : Severity) (c : CommandLine) : CommandLine :=
  mkCommandLine x (reset c) (test c) (rcOscFreq c) (downloadFilename c)
    (uploadFilename c) (programNvram c) (force c) (patternId c)
    (patternIdSpecified c) (readProtect c) (voltage c) (nets c).

Definition set_reset (x : bool) (c : CommandLine) : CommandLine :=
  mkCommandLine (console_verbosity c) x (test c) (rcOscFreq c) (downloadFilename c)
    (uploadFilename c) (programNvram c) (force c) (patternId c)
    (patternIdSpecified c) (readProtect c) (voltage c) (nets c).

Definition set_test (x : bool) (c : CommandLine) : CommandLine :=
  mkCommandLine (console_verbosity c) (reset c) x (rcOscFreq c) (downloadFilename c)
    (uploadFilename c) (programNvram c) (force c) (patternId c)
    (patternIdSpecified c) (readProtect c) (voltage c) (nets c).

Definition set_rcOscFreq (x : Z) (c : CommandLine) : CommandLine :=
  mkCommandLine (console_verbosity c) (reset c) (test c) x (downloadFilename c)
    (uploadFilename c) (programNvram c) (force c) (patternId c)
    (patternIdSpecified c) (readProtect c) (voltage c) (nets c).

Definition set_downloadFilename (x : string) (c : CommandLine) : CommandLine :=
  mkCommandLine (console_verbosity c) (reset c) (test c) (rcOscFreq c) x
    (uploadFilename c) (programNvram c) (force c) (patternId c)
    (patternIdSpecified c) (readProtect c) (voltage c) (nets c).

Definition set_uploadFilename (x : string) (c : CommandLine) : CommandLine :=
  mkCommandLine (console_verbosity c) (reset c) (test c) (rcOscFreq c)
    (downloadFilename c) x (programNvram c) (force c) (patternId c)
    (patternIdSpecified c) (readProtect c) (voltage c) (nets c).

Definition set_programNvram (x : bool) (c : CommandLine) : CommandLine :=
  mkCommandLine (console_verbosity c) (reset c) (test c) (rcOscFreq c)
    (downloadFilename c) (uploadFilename c) x (force c) (patternId c)
    (patternIdSpecified c) (readProtect c) (voltage c) (nets c).

Definition set_force (x : bool) (c : CommandLine) : CommandLine :=
  mkCommandLine (console_verbosity c) (reset c) (test c) (rcOscFreq c)
    (downloadFilename c) (uploadFilename c) (programNvram c) x (patternId c)
    (patternIdSpecified c) (readProtect c) (voltage c) (nets c).

Definition set_patternId (x : Z) (c : CommandLine) : CommandLine :=
  mkCommandLine (console_verbosity c) (reset c) (test c) (rcOscFreq c)
    (downloadFilename c) (uploadFilename c) (programNvram c) (force c) x
    (patternIdSpecified c) (readProtect c) (voltage c) (nets c).

Definition set_patternIdSpecified (x : bool) (c : CommandLine) : CommandLine :=
  mkCommandLine (console_verbosity c) (reset c) (test c) (rcOscFreq c)
    (downloadFilename c) (uploadFilename c) (programNvram c) (force c) (patternId c)
    x (readProtect c) (voltage c) (nets c).

Definition set_readProtect (x : bool) (c : CommandLine) : CommandLine :=
  mkCommandLine (console_verbosity c) (reset c) (test c) (rcOscFreq c)
    (downloadFilename c) (uploadFilename c) (programNvram c) (force c) (patternId c)
    (patternIdSpecified c) x (voltage c) (nets c).

Definition set_voltage (x : float) (c : CommandLine) : CommandLine :=
  mkCommandLine (console_verbosity c) (reset c) (test c) (rcOscFreq c)
    (downloadFilename c) (uploadFilename c) (programNvram c) (force c) (patternId c)
    (patternIdSpecified c) (readProtect c) x (nets c).

Definition set_nets (x : list Z) (c : CommandLine) : CommandLine :=
  mkCommandLine (console_verbosity c) (reset c) (test c) (rcOscFreq c)
    (downloadFilename c) (uploadFilename c) (programNvram c) (force c) (patternId c)
    (patternIdSpecified c) (readProtect c) (voltage c) x.

Definition requires_an_argument (option : string) : string :=
  option +:+ " requires an argument" +:+ nl.

Definition only_one_download : string :=
  "only one --emulate or --program option can be specified" +:+ nl.

(** [voltage == 0.0 || (voltage >= 1.71 && voltage <= 5.5)]. *)
Definition valid_voltage (voltage : float) : bool :=
  PrimFloat.eqb voltage 0%float
  || (PrimFloat.leb 1.71%float voltage && PrimFloat.leb voltage 5.5%float).

(** [net < 1 || net > 20 || net == 11]. *)
Definition invalid_net (net : Z) : bool :=
  (net <? 1) || (20 <? net) || (net =? 11).

(** The [do ... while] loop of [--nets], which ends at the end of the
    argument; [fuel] bounds the number of iterations. *)
Fixpoint parse_nets (fuel : nat) (arg : string) (nets : list Z)
    : option (Parse (list Z)) :=
  match fuel with
  | O => None
  | S fuel =>
      let '(net, converted) := strtol arg in
      let arg := advance converted arg in
      if match arg with
         | String c _ => negb (Ascii.eqb c ","%char)
         | EmptyString => false
         end
      then Some (Stop ("--nets must be a comma-separate list of net numbers" +:+ nl) 1)
      else if invalid_net net
      then Some (Stop ("--nets used with an invalid net " +:+ pretty net +:+ nl) 1)
      else match arg with
           | String _ arg => parse_nets fuel arg (nets ++ [net])
           | EmptyString => Some (Ok (nets ++ [net]))
           end
  end.

(** One iteration of the loop over [argv], for [s = argv[i]] and the
    arguments [rest] after it: the number of arguments taken besides
    [argv[i]] and the variables afterwards, or the return from [main]. *)
Definition parse_argument (s : string) (rest : list string) (c : CommandLine)
    : option (Parse (nat * CommandLine)) :=
  match ParseLoggerArguments (s :: rest) (console_verbosity c) with
  | Some (taken, verbosity) => Some (Ok (taken, set_console_verbosity verbosity c))
  | None =>
      if bool_decide (s = "--help") then Some (Stop usage 0)
      else if bool_decide (s = "--version") then Some (Stop version 0)
      else if bool_decide (s = "-r" ∨ s = "--reset") then
        Some (Ok (0%nat, set_reset true c))
      else if bool_decide (s = "-R" ∨ s = "--read") then
        match rest with
        | value :: _ => Some (Ok (1%nat, set_uploadFilename value c))
        | [] => Some (Stop (requires_an_argument "--read") 1)
        end
      else if bool_decide (s = "-t" ∨ s = "--test-socket") then
        Some (Ok (0%nat, set_test true c))
      else if bool_decide (s = "-T" ∨ s = "--trim") then
        match rest with
        | value :: _ =>
            if bool_decide (value = "25k") then
              Some (Ok (1%nat, set_rcOscFreq 25000 c))
            else if bool_decide (value = "2M") then
              Some (Ok (1%nat, set_rcOscFreq 2000000 c))
            else Some (Stop ("--trim argument must be 25k or 2M" +:+ nl) 1)
        | [] => Some (Stop (requires_an_argument "--trim") 1)
        end
      else if bool_decide (s = "-e" ∨ s = "--emulate") then
        if negb (bool_decide (downloadFilename c = EmptyString)) then
          Some (Stop only_one_download 1)
        else
          match rest with
          | value :: _ => Some (Ok (1%nat, set_downloadFilename value c))
          | [] => Some (Stop (requires_an_argument "--emulate") 1)
          end
      else if bool_decide (s = "--program") then
        if negb (bool_decide (downloadFilename c = EmptyString)) then
          Some (Stop only_one_download 1)
        else
          match rest with
          | value :: _ =>
              Some (Ok (1%nat, set_programNvram true (set_downloadFilename value c)))
          | [] => Some (Stop (requires_an_argument "--program") 1)
          end
      else if bool_decide (s = "--force") then Some (Ok (0%nat, set_force true c))
      else if bool_decide (s = "--pattern-id") then
        let c := set_patternIdSpecified true c in
        match rest with
        | arg :: _ =>
            let '(id, converted) := strtol arg in
            if bool_decide (advance converted arg = EmptyString)
               && (0 <=? id) && (id <=? 255)
            then Some (Ok (1%nat, set_patternId id c))
            else Some (Stop ("--pattern-id argument must be a number between 0 and 255"
                             +:+ nl) 1)
        | [] => Some (Stop (requires_an_argument "--pattern-id") 1)
        end
      else if bool_decide (s = "--read-protect") then
        Some (Ok (0%nat, set_readProtect true c))
      else if bool_decide (s = "-v" ∨ s = "--voltage") then
        match rest with
        | arg :: _ =>
            let '(voltage, converted) := strtod arg in
            if negb (bool_decide (advance converted arg = EmptyString)) then
              Some (Stop ("--voltage must be a decimal value" +:+ nl) 1)
            else if negb (valid_voltage voltage) then
              Some (Stop ("--voltage " +:+ format_3g voltage
                          +:+ " outside of valid range" +:+ nl) 1)
            else Some (Ok (1%nat, set_voltage voltage c))
        | [] => Some (Stop (requires_an_argument "--voltage") 1)
        end
      else if bool_decide (s = "-n" ∨ s = "--nets") then
        match rest with
        | arg :: _ =>
            match parse_nets (S (String.length arg)) arg (nets c) with
            | Some (Ok nets) => Some (Ok (1%nat, set_nets nets c))
            | Some (Stop text code) => Some (Stop text code)
            | None => None
            end
        | [] => Some (Stop (requires_an_argument "--nets") 1)
        end
      else if match s with
              | String c _ => negb (Ascii.eqb c "-"%char)
              | EmptyString => true
              end
              && bool_decide (downloadFilename c = EmptyString)
      then Some (Ok (0%nat, set_downloadFilename s c))
      else Some (Stop ("Unrecognized command-line argument " +:+ quoted s
                       +:+ ", use --help" +:+ nl) 1)
  end.

(** [for(int i=1; i<argc; i++)] over [argv[1]], ..., the body skipped for
    the [skip] arguments the iteration before advanced [i] over. *)
Fixpoint parse_arguments (args : list string) (skip : nat) (c : CommandLine)
    : option (Parse CommandLine) :=
  match args with
  | [] => Some (Ok c)
  | s :: rest =>
      match skip with
      | S skip => parse_arguments rest skip c
      | O =>
          match parse_argument s rest c with
          | Some (Ok (taken, c)) => parse_arguments rest taken c
          | Some (Stop text code) => Some (Stop text code)
          | None => None
          end
      end
  end.

(** Lines 40-234, for [argv[1]], ..., [argv[argc-1]]. *)
Definition parse (args : list string) : option (Parse CommandLine) :=
  parse_arguments args 0 initial.

(** *** The run after the arguments are read *)

Variable board : Board.

(** The locals [DetectPart] fills; [bitstreamKind] has no initializer. *)
Record Detected := mkDetected {
  detectedPart : SilegoPart;
  programmedBitstream : list Z;
  bitstreamKind : option BitstreamKind
}.

(** Lines 240-246. *)
Definition open_board (c : CommandLine) : Main unit :=
  (if at_least (console_verbosity c) NOTICE then write [printed version] else mret tt);;
  opened ← invoke call_OpenBoard (OpenBoard board);
  if opened : bool then mret tt else return_ 1.

(** The condition of line 249. *)
Definition no_actions (c : CommandLine) : bool :=
  bool_decide (downloadFilename c = EmptyString)
  && bool_decide (uploadFilename c = EmptyString)
  && PrimFloat.eqb (voltage c) 0%float
  && bool_decide (nets c = [])
  && (rcOscFreq c =? 0) && negb (test c) && negb (reset c).

(** The condition of line 264. *)
Definition needs_part (c : CommandLine) : bool :=
  negb (bool_decide (uploadFilename c = EmptyString)
        && bool_decide (downloadFilename c = EmptyString)
        && (rcOscFreq c =? 0) && negb (test c) && negb (programNvram c)).

Definition led_off : Main unit :=
  invoke (call_SetStatusLED false) (λ h, SetStatusLED board h false);; mret tt.

(** Lines 257-271. *)
Definition detect (c : CommandLine) : Main Detected :=
  lit ← invoke (call_SetStatusLED true) (λ h, SetStatusLED board h true);
  if negb lit then return_ 1
  else if needs_part c then
    found ← invoke call_DetectPart (DetectPart board);
    match found with
    | Some (part, bitstream, kind) => mret (mkDetected part bitstream (Some kind))
    | None => led_off;; return_ 1
    end
  else mret (mkDetected UNRECOGNIZED [] None).

(** Lines 273-285. *)
Definition check_empty (c : CommandLine) (d : Detected) : Main unit :=
  if programNvram c then
    match bitstreamKind d with
    | None => stop Uninitialized
    | Some EMPTY => mret tt
    | Some (other_kind _) =>
        if negb (force c) then
          log LogError ("Non-empty part detected; refusing to program without --force" +:+ nl);;
          led_off;; return_ 1
        else
          log LogNotice ("Non-empty part detected and --force is specified; proceeding" +:+ nl)
    end
  else mret tt.

(** Lines 288-292, with the outcome of the [fopen] in [WriteBitstream]. *)
Definition upload (c : CommandLine) (d : Detected) : Main unit :=
  if negb (bool_decide (uploadFilename c = EmptyString)) then
    log LogNotice ("Writing programmed bitstream to " +:+ uploadFilename c +:+ nl);;
    opened ← invoke (call_WriteBitstream (uploadFilename c) (programmedBitstream d))
               (λ h, fopen board h (uploadFilename c));
    match WriteBitstream opened (programmedBitstream d) with
    | Some _ => mret tt
    | None =>
        log LogError ("Couldn't open " +:+ uploadFilename c +:+ " for reading" +:+ nl)
    end
  else mret tt.

(** Lines 295-307. *)
Definition socket_test (c : CommandLine) (d : Detected) : Main unit :=
  if test c then
    passed ← invoke (call_SocketTest (detectedPart d))
               (λ h, SocketTest board h (detectedPart d));
    if negb passed then
      log LogError ("Socket test has failed" +:+ nl);; led_off;; return_ 1
    else log LogNotice ("Socket test has passed" +:+ nl)
  else mret tt.

(** Lines 310-315. *)
Definition reset_board (c : CommandLine) : Main unit :=
  if reset c then
    log LogNotice ("Resetting board I/O and signal generators" +:+ nl);;
    done ← invoke call_Reset (Reset board);
    if negb done then return_ 1 else mret tt
  else mret tt.

(** Lines 318-331: the value of [rcFtw] afterwards. *)
Definition trim (c : CommandLine) (d : Detected) : Main Z :=
  if negb (rcOscFreq c =? 0) then
    if PrimFloat.eqb (voltage c) 0%float then
      log LogError ("Trimming oscillator requires specifying target voltage" +:+ nl);;
      return_ 1
    else
      log LogNotice ("Trimming oscillator for " +:+ pretty (rcOscFreq c) +:+ " Hz at "
                     +:+ format_3g (voltage c) +:+ " V" +:+ nl);;
      trimmed ← invoke (call_TrimOscillator (detectedPart d) (voltage c) (rcOscFreq c))
                  (λ h, TrimOscillator board h (detectedPart d) (voltage c) (rcOscFreq c));
      match trimmed with
      | Some rcFtw => mret (uint8 rcFtw)
      | None => return_ 1
      end
  else mret 0.

(** The switches and the trim value that reach the download. *)
Definition options (c : CommandLine) (rcFtw : Z) : Options :=
  mkOptions rcFtw (patternIdSpecified c) (patternId c) (readProtect c) (programNvram c).

(** Lines 427-428. *)
Definition reset_pins : IOConfig :=
  map (λ i, driverConfigs (Z.of_nat i) TP_RESET) (seq 2 19).

(** Lines 391-420.  The notices written before [LogFatal] ends the run are
    not kept. *)
Definition verify_programmed (d : Detected) (newBitstream : list Z) : Main unit :=
  log LogNotice ("Verifying programmed bitstream" +:+ nl);;
  let bitstreamLength := (BitstreamLength board (detectedPart d) / 8)%nat in
  uploaded ← invoke (call_UploadBitstream bitstreamLength)
               (λ h, UploadBitstream board h bitstreamLength);
  match uploaded with
  | None => return_ 1
  | Some bitstreamToVerify =>
      match verify (detectedPart d) newBitstream bitstreamToVerify bitstreamLength with
      | Verified failed differences =>
          write (map bit_differs differences);;
          if failed then log LogError ("Verification failed" +:+ nl)
          else log LogNotice ("Verification passed" +:+ nl)
      | UnknownPart => stop Fatal
      | BitOutOfBounds => stop OutOfBounds
      end
  end.

(** Lines 334-431. *)
Definition download (c : CommandLine) (d : Detected) (rcFtw : Z) : Main unit :=
  if negb (bool_decide (downloadFilename c = EmptyString)) then
    newBitstream ← invoke (call_ReadBitstream (downloadFilename c))
                     (λ h, ReadBitstream board h (downloadFilename c));
    if bool_decide (newBitstream = []) then return_ 1
    else if negb (bool_decide (length newBitstream
                               = (BitstreamLength board (detectedPart d) / 8)%nat)) then
      log LogError ("Provided bitstream has incorrect length for selected part" +:+ nl);;
      led_off;; return_ 1
    else
      match logged_patternID (options c rcFtw) newBitstream,
            set_fields (options c rcFtw) newBitstream with
      | Some patternID, Some newBitstream =>
          log LogNotice ("Bitstream ID code: 0x" +:+ format_02x patternID +:+ nl);;
          match newBitstream !! 254%nat with
          | Some b =>
              (if negb (Z.land b 128 =? 0)
               then log LogNotice ("Read protection: enabled" +:+ nl)
               else log LogNotice ("Read protection: disabled" +:+ nl));;
              (if negb (programNvram c) then
                 log LogNotice ("Downloading bitstream into SRAM" +:+ nl);;
                 loaded ← invoke (call_DownloadBitstream newBitstream EMULATION)
                            (λ h, DownloadBitstream board h newBitstream EMULATION);
                 if negb loaded then return_ 1 else mret tt
               else
                 log LogNotice ("Programming bitstream into NVM" +:+ nl);;
                 programmed ← invoke (call_DownloadBitstream newBitstream PROGRAMMING)
                                (λ h, DownloadBitstream board h newBitstream PROGRAMMING);
                 if negb programmed then return_ 1
                 else verify_programmed d newBitstream);;
              log LogDebug ("Unstucking I/O pins after programming" +:+ nl);;
              configured ← invoke (call_SetIOConfig reset_pins)
                             (λ h, SetIOConfig board h reset_pins);
              if negb configured then return_ 1 else mret tt
          | None => stop OutOfBounds
          end
      | _, _ => stop OutOfBounds
      end
  else mret tt.

(** Lines 433-439. *)
Definition set_voltage_supply (c : CommandLine) : Main unit :=
  if negb (PrimFloat.eqb (voltage c) 0%float) then
    log LogNotice ("Setting Vdd to " +:+ format_3g (voltage c) +:+ " V" +:+ nl);;
    configured ← invoke (call_ConfigureSiggen 1 (voltage c))
                   (λ h, ConfigureSiggen board h 1 (voltage c));
    if negb configured then return_ 1 else mret tt
  else mret tt.

(** Lines 446-452. *)
Definition nets_config (nets : list Z) : IOConfig :=
  flat_map (λ net, [driverConfigs net TP_FLOAT; ledEnabled net true;
                    expansionEnabled net true]) nets.

(** Lines 441-455. *)
Definition set_nets_config (c : CommandLine) : Main unit :=
  if negb (bool_decide (nets c = [])) then
    log LogNotice ("Setting I/O configuration" +:+ nl);;
    configured ← invoke (call_SetIOConfig (nets_config (nets c)))
                   (λ h, SetIOConfig board h (nets_config (nets c)));
    if negb configured then return_ 1 else mret tt
  else mret tt.

(** Lines 458-470. *)
Definition finish : Main unit :=
  healthy ← invoke call_CheckStatus (CheckStatus board);
  if negb healthy then
    log LogError ("Fault condition detected during final check, exiting" +:+ nl);;
    led_off;; return_ 1
  else
    log LogNotice ("Done" +:+ nl);;
    led_off;;
    invoke call_USBCleanup (λ _, tt);;
    return_ 0.

(** Lines 273-471. *)
Definition actions (c : CommandLine) (d : Detected) : Main unit :=
  check_empty c d;;
  upload c d;;
  socket_test c d;;
  reset_board c;;
  rcFtw ← trim c d;
  download c d rcFtw;;
  set_voltage_supply c;;
  set_nets_config c;;
  finish.

(** Lines 236-471: [main] once the arguments are read. *)
Definition run (c : CommandLine) : Main unit :=
  open_board c;;
  if no_actions c then
    log LogNotice ("No actions requested, exiting" +:+ nl);; return_ 0
  else
    d ← detect c;
    actions c d.

Definition start : World := mkWorld [] [].

(** [int main(int argc, char* argv[])], for [argv[1]], ..., [argv[argc-1]];
    [None] if the loop of [--nets] had not enough fuel. *)
Definition main (args : list string) : option (World * Result unit) :=
  match parse args with
  | Some (Ok c) => Some (run c start)
  | Some (Stop text code) => Some (mkWorld [] [printed text], Ended (Return code))
  | None => None
  end.

End main.

End Gp4progMain.

(** ** gp4prog: statements about the run of [main] *)

Module MainSpec.

Import Gp4prog Gp4progMain.

(** The functions [main] calls, in the order of the source text. *)
Definition main_order : list string :=
  ["OpenBoard"; "SetStatusLED"; "DetectPart"; "WriteBitstream"; "SocketTest";
   "Reset"; "TrimOscillator"; "ReadBitstream"; "DownloadBitstream";
   "UploadBitstream"; "SetIOConfig"; "ConfigureSiggen"; "SetIOConfig";
   "CheckStatus"; "SetStatusLED"; "USBCleanup"].

(** The calls [m] adds are, in this order, among the functions of [segment]
    when [m] goes on, and among those of [segment] and [rest] when it ends
    [main]. *)
Definition in_order {A} (segment rest : list string) (m : Main A) : Prop :=
  ∀ w, ∃ calls,
    history (m w).1 = history w ++ calls
    ∧ sublist (function_name <$> calls)
        (match (m w).2 with
         | Continue _ => segment
         | Ended _ => segment ++ rest
         end).

(** Every call [m] adds satisfies [P]; the value [m] goes on with satisfies
    [C]; the world and the ending with which [m] ends [main] satisfy [Q]. *)
Definition spec {A} (P : Call → Prop) (Q : World → Ending → Prop) (C : A → Prop)
    (m : Main A) : Prop :=
  ∀ w, ∃ calls,
    history (m w).1 = history w ++ calls
    ∧ Forall P calls
    ∧ match (m w).2 with
      | Continue a => C a
      | Ended e => Q (m w).1 e
      end.

(** [P] holds of the arguments of a call of [DownloadBitstream]. *)
Definition downloads (P : list Z → DownloadMode → Prop) (c : Call) : Prop :=
  match c with
  | call_DownloadBitstream bitstream mode => P bitstream mode
  | _ => True
  end.

Section specs.

Variable Severity : Type.
Variable board : Board.

(** What the loop guarantees of the variables it sets. *)
Definition accepted (c : CommandLine Severity) : Prop :=
  Forall (λ net, 1 ≤ net ≤ 20 ∧ net ≠ 11) (nets _ c)
  ∧ (rcOscFreq _ c = 0 ∨ rcOscFreq _ c = 25000 ∨ rcOscFreq _ c = 2000000)
  ∧ 0 ≤ patternId _ c ≤ 255
  ∧ valid_voltage (voltage _ c) = true.

(** How the loop returns from [main]: with 0 after the usage or the version,
    with 1 after any other message. *)
Definition stops (text : string) (code : Z) : Prop :=
  (code = 0 ∧ (text = usage ∨ text = version)) ∨ code = 1.

(** The image and the mode are those of the download step, for the file
    named on the command line and a trim value; the NVM is programmed only
    when the part is empty or [force] is set. *)
Definition prepared (c : CommandLine Severity) (d : Detected) (image : list Z)
    (mode : DownloadMode) : Prop :=
  ∃ h rcFtw,
    downloadFilename _ c ≠ EmptyString
    ∧ 0 ≤ rcFtw < 256
    ∧ prepare_download (Z.of_nat (BitstreamLength board (detectedPart d)))
        (options _ c rcFtw) (ReadBitstream board h (downloadFilename _ c))
      = CallDownloadBitstream mode image
    ∧ mode = (if programNvram _ c then PROGRAMMING else EMULATION)
    ∧ (mode = PROGRAMMING → bitstreamKind d = Some EMPTY ∨ force _ c = true).

(** What [detect] hands on: the answer of [DetectPart] when the part is
    needed, which it is whenever a bitstream is named or the NVM is to be
    programmed. *)
Definition detected (c : CommandLine Severity) (d : Detected) : Prop :=
  needs_part _ c = true →
  ∃ h programmed kind,
    DetectPart board h = Some (detectedPart d, programmed, kind)
    ∧ bitstreamKind d = Some kind.

(** [main] returned 0 at the end of its text: after a final check that
    reported no fault, the status LED was switched off and the USB connection
    closed. *)
Definition finished (w : World) (e : Ending) : Prop :=
  e = Return 0 →
  ∃ h, history w = h ++ [call_CheckStatus; call_SetStatusLED false; call_USBCleanup]
       ∧ CheckStatus board h = true.

(** The bitstream of the part does not reach byte 254, or the NVM was
    programmed and the bitstream read back is shorter than the part's. *)
Definition short (c : CommandLine Severity) (d : Detected) : Prop :=
  (BitstreamLength board (detectedPart d) / 8 ≤ 254)%nat
  ∨ (programNvram _ c = true
     ∧ ∃ h bitstreamToVerify,
         UploadBitstream board h (BitstreamLength board (detectedPart d) / 8)
         = Some bitstreamToVerify
         ∧ (length bitstreamToVerify < BitstreamLength board (detectedPart d) / 8)%nat).

Definition defined (c : CommandLine Severity) (d : Detected) (w : World) (e : Ending) : Prop :=
  e ≠ Uninitialized
  ∧ (e = OutOfBounds → downloadFilename _ c ≠ EmptyString ∧ short c d).

(** Every call succeeds; [DetectPart] finds [part] in state [kind], and
    [UploadBitstream] gives back as many bytes as it is asked for. *)
Definition cooperative (part : SilegoPart) (programmed : list Z)
    (kind : BitstreamKind) : Prop :=
  (∀ h, OpenBoard board h = true)
  ∧ (∀ h status, SetStatusLED board h status = true)
  ∧ (∀ h, DetectPart board h = Some (part, programmed, kind))
  ∧ (∀ h p, SocketTest board h p = true)
  ∧ (∀ h, Reset board h = true)
  ∧ (∀ h p voltage freq, is_Some (TrimOscillator board h p voltage freq))
  ∧ (∀ h image mode, DownloadBitstream board h image mode = true)
  ∧ (∀ h size, ∃ bitstream,
       UploadBitstream board h size = Some bitstream ∧ length bitstream = size)
  ∧ (∀ h config, SetIOConfig board h config = true)
  ∧ (∀ h channel voltage, ConfigureSiggen board h channel voltage = true)
  ∧ (∀ h, CheckStatus board h = true).

Definition returns_0 (w : World) (e : Ending) : Prop := e = Return 0.

End specs.

End MainSpec.

(** ** vendor/hidapi/linux/hid.c *)

Module Hid.

(** *** libc on C strings *)

(** The tokens the calls of [strtok_r] with the delimiter ["\n"] return one
    after the other: the maximal runs of characters other than the newline.
    [token] is the run read so far. *)
Fixpoint strtok_lines (s : string) (token : string) : list string :=
  match s with
  | EmptyString => if bool_decide (token = EmptyString) then [] else [token]
  | String c s =>
      if Ascii.eqb c "010"%char then
        if bool_decide (token = EmptyString) then strtok_lines s EmptyString
        else token :: strtok_lines s EmptyString
      else strtok_lines s (token +:+ String c EmptyString)
  end.

(** [value = strchr(line, '='); *value = '\0'; value++]: the key and the
    value, if there is an equals sign. *)
Fixpoint split_at_equals (line : string) : option (string * string) :=
  match line with
  | EmptyString => None
  | String c line =>
      if Ascii.eqb c "="%char then Some (EmptyString, line)
      else match split_at_equals line with
           | Some (key, value) => Some (String c key, value)
           | None => None
           end
  end.

(** From [linux/input.h]. *)
Definition BUS_USB : Z := 3.
Definition BUS_BLUETOOTH : Z := 5.

(** [enum device_string_id]. *)
Definition DEVICE_STRING_MANUFACTURER : Z := 0.
Definition DEVICE_STRING_PRODUCT : Z := 1.
Definition DEVICE_STRING_SERIAL : Z := 2.
Definition DEVICE_STRING_COUNT : Z := 3.

Definition device_string_names (key : Z) : string :=
  if key =? 0 then "manufacturer" else if key =? 1 then "product" else "serial".

(** *** parse_uevent_info *)

(** The variables of the caller the five pointers point to.  An integer is
    [None] until it is written: neither caller initializes it.  A string is
    the null pointer ([None]) or allocated by [strdup]. *)
Record uevent_info := mk_uevent_info {
  bus_type : option Z;
  vendor_id : option Z;
  product_id : option Z;
  serial_number_utf8 : option string;
  product_name_utf8 : option string
}.

(** What both callers pass. *)
Definition no_info : uevent_info := mk_uevent_info None None None None None.

(** The locals of [parse_uevent_info], and the strings allocated by
    [strdup] to which no pointer is left. *)
Record parse_state := mk_parse_state {
  info : uevent_info;
  found_id : bool;
  found_serial : bool;
  found_name : bool;
  lost : list string
}.

Definition orphan (p : option string) : list string :=
  match p with
  | Some s => [s]
  | None => []
  end.

Section hid.

(** [sscanf(value, "%x:%hx:%hx", bus_type, vendor_id, product_id)]: the
    values of the items converted, in order; their number is the return
    value (a negative return value converts none). *)
Variable sscanf : string → list Z.

(** The assignments [sscanf] makes for the items it converted. *)
Definition store (converted : list Z) (i : uevent_info) : uevent_info :=
  match converted with
  | [] => i
  | [bus] =>
      mk_uevent_info (Some bus) (vendor_id i) (product_id i)
        (serial_number_utf8 i) (product_name_utf8 i)
  | [bus; vendor] =>
      mk_uevent_info (Some bus) (Some vendor) (product_id i)
        (serial_number_utf8 i) (product_name_utf8 i)
  | bus :: vendor :: product :: _ =>
      mk_uevent_info (Some bus) (Some vendor) (Some product)
        (serial_number_utf8 i) (product_name_utf8 i)
  end.

(** The body of the [while] loop for one line. *)
Definition parse_line (st : parse_state) (line : string) : parse_state :=
  match split_at_equals line with
  | None => st
  | Some (key, value) =>
      if bool_decide (key = "HID_ID") then
        let converted := take 3 (sscanf value) in
        mk_parse_state (store converted (info st))
          (if bool_decide (length converted = 3%nat) then true else found_id st)
          (found_serial st) (found_name st) (lost st)
      else if bool_decide (key = "HID_NAME") then
        mk_parse_state
          (mk_uevent_info (bus_type (info st)) (vendor_id (info st))
             (product_id (info st)) (serial_number_utf8 (info st)) (Some value))
          (found_id st) (found_serial st) true
          (lost st ++ orphan (product_name_utf8 (info st)))
      else if bool_decide (key = "HID_UNIQ") then
        mk_parse_state
          (mk_uevent_info (bus_type (info st)) (vendor_id (info st))
             (product_id (info st)) (Some value) (product_name_utf8 (info st)))
          (found_id st) true (found_name st)
          (lost st ++ orphan (serial_number_utf8 (info st)))
      else st
  end.

(** [parse_uevent_info(uevent, &bus_type, ...)]: the return value and the
    state at the end; undefined ([None]) for a null [uevent], which is handed
    to [strdup]. *)
Definition parse_uevent_info (uevent : option string) (i : uevent_info)
    : option (Z * parse_state) :=
  match uevent with
  | None => None
  | Some uevent =>
      let st := foldl parse_line (mk_parse_state i false false false [])
                  (strtok_lines uevent EmptyString) in
      Some (Z.b2z (found_id st && found_name st && found_serial st), st)
  end.

(** *** get_device_string *)

(** What the call did to the buffer [string]. *)
Inductive Buffer :=
| untouched
| converted (utf8 : string)    (* holds the wide characters of [utf8] *)
| unconverted.                 (* [mbstowcs] failed *)

(** What udev, the file system and libc answer. *)
Variable udev_new : bool.
Variable fstat : Z.
Variable udev_device_new_from_devnum : bool.
(** The parent with subsystem ["hid"], and the value of its attribute
    ["uevent"]. *)
Variable hid_dev : option (option string).
(** The parent with subsystem ["usb"] and type ["usb_device"], and the values
    of its attributes. *)
Variable usb_device : option (string → option string).
(** [mbstowcs(string, utf8, maxlen)]: [None] for [(size_t)-1]. *)
Variable mbstowcs : string → nat → option nat.

Definition convert (utf8 : option string) (maxlen : nat) : Proc (Z * Buffer) :=
  utf8 ← deref utf8;
  match mbstowcs utf8 maxlen with
  | Some _ => mret (0, converted utf8)
  | None => mret (-1, unconverted)
  end.

(** The calls that release what the function acquired. *)
Inductive Release :=
| free (p : option string)
| udev_device_unref
| udev_unref.

(** The part of [get_device_string] between [fstat] and the label [end]:
    [ret], the buffer, and the two strings to free. *)
Definition find_string (key : Z) (maxlen : nat)
    : Proc (Z * Buffer * option string * option string) :=
  if udev_device_new_from_devnum then
    match hid_dev with
    | Some uevent =>
        match parse_uevent_info uevent no_info with
        | None => undefined
        | Some (ret, st) =>
            let i := info st in
            bus ← deref (bus_type i);
            if bus =? BUS_BLUETOOTH then
              r ← (if key =? DEVICE_STRING_MANUFACTURER then
                     mret (0, converted EmptyString)
                   else if key =? DEVICE_STRING_PRODUCT then
                     convert (product_name_utf8 i) maxlen
                   else if key =? DEVICE_STRING_SERIAL then
                     convert (serial_number_utf8 i) maxlen
                   else mret (-1, untouched));
              mret (r.1, r.2, serial_number_utf8 i, product_name_utf8 i)
            else
              match usb_device with
              | Some attributes =>
                  if (0 <=? key) && (key <? DEVICE_STRING_COUNT) then
                    match attributes (device_string_names key) with
                    | Some str =>
                        r ← convert (Some str) maxlen;
                        mret (r.1, r.2, serial_number_utf8 i, product_name_utf8 i)
                    | None =>
                        mret (ret, untouched, serial_number_utf8 i, product_name_utf8 i)
                    end
                  else mret (-1, untouched, serial_number_utf8 i, product_name_utf8 i)
              | None => mret (ret, untouched, serial_number_utf8 i, product_name_utf8 i)
              end
        end
    | None => mret (fstat, untouched, None, None)
    end
  else mret (fstat, untouched, None, None).

(** [get_device_string(dev, key, string, maxlen)]: the return value, what
    became of [string], and the releases made. *)
Definition get_device_string (key : Z) (maxlen : nat)
    : Proc (Z * Buffer * list Release) :=
  if negb udev_new then
    printf ("Can't create udev" +:+ nl);; mret (-1, untouched, [])
  else if fstat =? -1 then mret (fstat, untouched, [])
  else
    r ← find_string key maxlen;
    let '(ret, buffer, serial, product) := r in
    mret (ret, buffer, [free serial; free product; udev_device_unref; udev_unref]).

End hid.

End Hid.

(** ** hid.c: statements about [parse_uevent_info] *)

Module HidSpec.

Import Hid.

(** The lines of a uevent that have an equals sign, as keys and values. *)
Definition entries (uevent : string) : list (string * string) :=
  omap split_at_equals (strtok_lines uevent EmptyString).

(** The values given for [key], in the order of the lines. *)
Definition values (key : string) (es : list (string * string)) : list string :=
  (filter (λ e, e.1 = key) es).*2.

(** The last of the strings a pointer held and was then given. *)
Definition last_of (p : option string) (given : list string) : option string :=
  last (orphan p ++ given).

(** All of them but the last. *)
Definition overwritten (p : option string) (given : list string) : list string :=
  removelast (orphan p ++ given).

End HidSpec.

(** ** hid.c: hid_enumerate and hid_free_enumeration *)

Module HidEnumerate.

Import Hid.

(** A [wchar_t *] that was assigned: null, or the wide string of a text. *)
Definition wide : Type := option string.

(** [struct hid_device_info], as far as the file assigns it (the struct is
    declared in hidapi.h).  The two strings that only the switch assigns are
    [None] until then; [next] is an address in the heap. *)
Record hid_device_info := mk_hid_device_info {
  path : option string;
  vendor_id : Z;
  product_id : Z;
  serial_number : wide;
  release_number : Z;
  manufacturer_string : option wide;
  product_string : option wide;
  interface_number : Z;
  next : option nat
}.

Definition set_next (n : option nat) (d : hid_device_info) : hid_device_info :=
  mk_hid_device_info (path d) (vendor_id d) (product_id d) (serial_number d)
    (release_number d) (manufacturer_string d) (product_string d)
    (interface_number d) n.

(** What udev answers for one entry of the enumeration: the device node of
    the hidraw device; its hid parent with the attribute ["uevent"]; its
    parents of type ["usb_device"] and ["usb_interface"] with their
    attributes. *)
Record hidraw := mk_hidraw {
  devnode : option string;
  hid_dev : option (option string);
  usb_dev : option (string → option string);
  intf_dev : option (string → option string)
}.

(** The records on the heap and the three pointers of [hid_enumerate]. *)
Record enumeration := mk_enumeration {
  heap : gmap nat hid_device_info;
  root : option nat;
  cur_dev : option nat;
  prev_dev : option nat
}.

Section enumerate.

Variable sscanf : string → list Z.
(** [mbstowcs(NULL, utf8, 0)]: [None] for [(size_t)-1]. *)
Variable mbstowcs : string → option nat.
(** [strtol(str, NULL, 16)], converted to the type of [release_number] and
    of [interface_number]. *)
Variable release_number_of : string → Z.
Variable interface_number_of : string → Z.
(** [malloc(sizeof(struct hid_device_info))], given the records allocated;
    it is taken to succeed. *)
Variable malloc : gmap nat hid_device_info → nat.

(** [utf8_to_wchar_t]. *)
Definition utf8_to_wchar_t (utf8 : option string) : wide :=
  match utf8 with
  | None => None
  | Some utf8 =>
      match mbstowcs utf8 with
      | None => Some EmptyString
      | Some _ => Some utf8
      end
  end.

(** [copy_udev_string(dev, udev_name)], for the attributes of [dev]. *)
Definition copy_udev_string (attributes : string → option string)
    (udev_name : string) : wide :=
  utf8_to_wchar_t (attributes udev_name).

(** Lines 385-399: the record as it is filled before the switch. *)
Definition new_record (e : hidraw) (dev_vid dev_pid : Z)
    (serial_number_utf8 : option string) : hid_device_info :=
  mk_hid_device_info (devnode e) dev_vid dev_pid (utf8_to_wchar_t serial_number_utf8)
    0 None None (-1) None.

(** Lines 432-448: the assignments of the case [BUS_USB]. *)
Definition usb_record (e : hidraw) (attributes : string → option string)
    (d : hid_device_info) : hid_device_info :=
  mk_hid_device_info (path d) (vendor_id d) (product_id d) (serial_number d)
    (match attributes "bcdDevice" with
     | Some str => release_number_of str
     | None => 0
     end)
    (Some (copy_udev_string attributes (device_string_names DEVICE_STRING_MANUFACTURER)))
    (Some (copy_udev_string attributes (device_string_names DEVICE_STRING_PRODUCT)))
    (match intf_dev e with
     | Some interface =>
         match interface "bInterfaceNumber" with
         | Some str => interface_number_of str
         | None => -1
         end
     | None => interface_number d
     end)
    (next d).

(** Lines 453-455: the assignments of the case [BUS_BLUETOOTH]. *)
Definition bluetooth_record (product_name_utf8 : option string)
    (d : hid_device_info) : hid_device_info :=
  mk_hid_device_info (path d) (vendor_id d) (product_id d) (serial_number d)
    (release_number d) (Some (Some EmptyString))
    (Some (utf8_to_wchar_t product_name_utf8)) (interface_number d) (next d).

(** Lines 374-382, with the record filled: the new record is allocated and
    put behind [cur_dev].  [None] if [cur_dev] points to no record. *)
Definition append (d : hid_device_info) (st : enumeration) : option enumeration :=
  let tmp := malloc (heap st) in
  match cur_dev st with
  | Some cur =>
      last ← heap st !! cur;
      Some (mk_enumeration (<[tmp := d]> (<[cur := set_next (Some tmp) last]> (heap st)))
              (root st) (Some tmp) (cur_dev st))
  | None =>
      Some (mk_enumeration (<[tmp := d]> (heap st)) (Some tmp) (Some tmp) (cur_dev st))
  end.

(** Lines 415-427: the record [cur_dev] is freed and taken off the list.
    [None] if a pointer that is followed points to no record. *)
Definition drop_current (st : enumeration) : option enumeration :=
  cur ← cur_dev st;
  _ ← heap st !! cur;
  let freed := delete cur (heap st) in
  match prev_dev st with
  | Some prev =>
      last ← freed !! prev;
      Some (mk_enumeration (<[prev := set_next None last]> freed) (root st)
              (Some prev) (prev_dev st))
  | None => Some (mk_enumeration freed None None (prev_dev st))
  end.

(** [cur_dev->... = ...]: the record [cur_dev] points to is replaced. *)
Definition assign (f : hid_device_info → hid_device_info) (st : enumeration)
    : option enumeration :=
  cur ← cur_dev st;
  d ← heap st !! cur;
  Some (mk_enumeration (<[cur := f d]> (heap st)) (root st) (cur_dev st) (prev_dev st)).

(** [id == 0x0 || id == dev_id]; [dev_id] is read only if [id] is not 0,
    and [None] if it was never written. *)
Definition wanted (id : Z) (dev_id : option Z) : option bool :=
  if id =? 0 then Some true else dev_id ≫= λ dev_id, Some (id =? dev_id).

(** The test of lines 369-370. *)
Definition matches (vendor_id product_id : Z) (dev_vid dev_pid : option Z)
    : option bool :=
  wanted vendor_id dev_vid ≫= λ vendor : bool,
  if vendor then wanted product_id dev_pid else Some false.

(** The body of the loop for one entry; [None] is undefined behaviour. *)
Definition enumerate_entry (vendor_id product_id : Z) (st : enumeration) (e : hidraw)
    : option enumeration :=
  match hid_dev e with
  | None => Some st
  | Some uevent =>
      '(result, parsed) ← parse_uevent_info sscanf uevent no_info;
      if result =? 0 then Some st
      else
        bus ← bus_type (info parsed);
        if negb (bus =? BUS_USB) && negb (bus =? BUS_BLUETOOTH) then Some st
        else
          matches vendor_id product_id (Hid.vendor_id (info parsed))
            (Hid.product_id (info parsed)) ≫= λ matched : bool,
          if matched then
            dev_vid ← Hid.vendor_id (info parsed);
            dev_pid ← Hid.product_id (info parsed);
            st ← append (new_record e dev_vid dev_pid
                           (serial_number_utf8 (info parsed))) st;
            if bus =? BUS_USB then
              match usb_dev e with
              | None => drop_current st
              | Some attributes => assign (usb_record e attributes) st
              end
            else if bus =? BUS_BLUETOOTH then
              assign (bluetooth_record (product_name_utf8 (info parsed))) st
            else Some st
          else Some st
  end.

(** The loop over the entries. *)
Fixpoint enumerate (vendor_id product_id : Z) (st : enumeration)
    (devices : list hidraw) : option enumeration :=
  match devices with
  | [] => Some st
  | e :: devices =>
      st ← enumerate_entry vendor_id product_id st e;
      enumerate vendor_id product_id st devices
  end.

(** [hid_enumerate(vendor_id, product_id)], for the answer of [udev_new]
    and the entries of the subsystem ["hidraw"]: the heap and [root].
    [hid_init] only sets the locale. *)
Definition hid_enumerate (udev_new : bool) (devices : list hidraw)
    (vendor_id product_id : Z) : Proc (gmap nat hid_device_info * option nat) :=
  if negb udev_new then
    printf ("Can't create udev" +:+ nl);; mret (∅, None)
  else
    match enumerate vendor_id product_id (mk_enumeration ∅ None None None) devices with
    | Some st => mret (heap st, root st)
    | None => undefined
    end.

End enumerate.

(** How [hid_free_enumeration] ends. *)
Inductive Freed :=
| freed (heap : gmap nat hid_device_info)
| invalid_free
| still_running.

(** [hid_free_enumeration(devs)] on a heap, for at most [fuel] records: every
    record of the list is freed with its strings.  A pointer to no record, or
    a string that was never assigned, makes the [free] invalid. *)
Fixpoint hid_free_enumeration (fuel : nat) (heap : gmap nat hid_device_info)
    (d : option nat) : Freed :=
  match d with
  | None => freed heap
  | Some a =>
      match fuel with
      | O => still_running
      | S fuel =>
          match heap !! a with
          | Some (mk_hid_device_info _ _ _ _ _ (Some _) (Some _) _ next) =>
              hid_free_enumeration fuel (delete a heap) next
          | _ => invalid_free
          end
      end
  end.

(** The records of the list that starts at [start], without their links. *)
Fixpoint chain (heap : gmap nat hid_device_info) (start : option nat)
    (addresses : list nat) (records : list hid_device_info) : Prop :=
  match addresses, records with
  | [], [] => start = None
  | a :: addresses, d :: records =>
      start = Some a
      ∧ ∃ link, heap !! a = Some (set_next link d)
                ∧ chain heap link addresses records
  | _, _ => False
  end.

End HidEnumerate.

(** ** hid.c: statements about [hid_enumerate] *)

Module HidEnumerateSpec.

Import Hid HidEnumerate.

(** Both strings of the switch were assigned. *)
Definition assigned (d : hid_device_info) : Prop :=
  is_Some (manufacturer_string d) ∧ is_Some (product_string d).

Section listed.

Variable sscanf : string → list Z.
Variable mbstowcs : string → option nat.
Variable release_number_of : string → Z.
Variable interface_number_of : string → Z.

(** The record an entry is listed with, if it is listed: it has a hid
    parent whose uevent gives the three ids, a name and a serial number, is
    on USB or Bluetooth, has the ids asked for, and on USB has a parent that
    is a USB device. *)
Definition listed (vendor_id product_id : Z) (e : hidraw) : option hid_device_info :=
  uevent ← hid_dev e;
  '(result, parsed) ← parse_uevent_info sscanf uevent no_info;
  if result =? 0 then None
  else
    bus ← bus_type (info parsed);
    dev_vid ← Hid.vendor_id (info parsed);
    dev_pid ← Hid.product_id (info parsed);
    if bool_decide ((vendor_id = 0 ∨ vendor_id = dev_vid)
                    ∧ (product_id = 0 ∨ product_id = dev_pid)) then
      let d := new_record mbstowcs e dev_vid dev_pid
                 (serial_number_utf8 (info parsed)) in
      if bus =? BUS_USB then
        attributes ← usb_dev e;
        Some (usb_record mbstowcs release_number_of interface_number_of e attributes d)
      else if bus =? BUS_BLUETOOTH then
        Some (bluetooth_record mbstowcs (product_name_utf8 (info parsed)) d)
      else None
    else None.

End listed.

(** A block that [malloc] returns is not one of those allocated. *)
Definition fresh_blocks (malloc : gmap nat hid_device_info → nat) : Prop :=
  ∀ heap, heap !! malloc heap = None.

(** The state of the loop holds the list of [records] at [addresses] and
    nothing else, and [cur_dev] points to its last record. *)
Definition consistent (st : enumeration) (addresses : list nat)
    (records : list hid_device_info) : Prop :=
  NoDup addresses
  ∧ chain (heap st) (root st) addresses records
  ∧ dom (heap st) = list_to_set addresses
  ∧ cur_dev st = last addresses.

(** The heap after the records at [addresses] are freed. *)
Definition without (addresses : list nat) (heap : gmap nat hid_device_info)
    : gmap nat hid_device_info :=
  foldl (λ heap a, delete a heap) heap addresses.

End HidEnumerateSpec.

(** ** Inputs of the examples *)

Module Examples.

Import NetlistModule Par.

(** The text of a module description with the port [a] declared twice. *)
Definition twice_declared_port : json_text :=
  text_members
    [("ports", text_members
       [("a", text_members []);
        ("a", text_members [])])].

(** A flip-flop that the engine left without a site. *)
Definition unplaced_flipflop : NetlistNode :=
  mkNode (Greenpak4NetlistCell "ff" "GP_DFF") None [].

(** Instances of the two device queries. *)
Definition example_ports (e : Greenpak4BitstreamEntity) : list string :=
  match e with
  | Greenpak4IOB _ => [EmptyString]
  | Greenpak4PowerOnReset => ["RST_DONE"]
  | _ => ["OUT"]
  end.

Definition example_name (s : Greenpak4EntityOutput) : string :=
  match m_src s with
  | Greenpak4PowerRail true => "VDD"
  | Greenpak4PowerRail false => "GND"
  | Greenpak4IOB pin => "pin " +:+ pretty pin
  | _ => m_port s
  end.

(** A placed design: an input buffer that drives a load, a flip-flop whose
    output goes nowhere, and an output buffer. *)
Definition flipflop : Greenpak4NetlistEntity := Greenpak4NetlistCell "ff" "GP_DFF".

Definition example_netlist : PARGraph NetlistNode :=
  mkGraph
    [mkNode (Greenpak4NetlistCell "btn" "GP_IBUF") (Some (Greenpak4IOB 2))
       [mkEdge "OUT" "D"];
     mkNode flipflop (Some (Greenpak4OtherEntity "DFF_0")) [];
     mkNode (Greenpak4NetlistCell "led" "GP_OBUF") (Some (Greenpak4IOB 3)) []]
    3.

Definition digital_iob : IOBState := mkIOB GetGround false.

Definition idle_oscillator (description : string) : OscillatorState :=
  mkOsc description false false GetGround.

Definition unused_acmp (i : nat) : ComparatorState :=
  mkAcmp GetGround GetGround (mkNode (Greenpak4Comparator i) None []).

Definition used_acmp (i : nat) (name : string) (input : Greenpak4EntityOutput)
    : ComparatorState :=
  mkAcmp input GetPower
    (mkNode (Greenpak4Comparator i) (Some (Greenpak4NetlistCell name "GP_ACMP")) []).

Definition device_with (acmps : list ComparatorState)
    (lfosc rosc : OscillatorState) : Greenpak4Device :=
  mkDevice GREENPAK4_SLG46620 [(2, digital_iob); (3, digital_iob)] acmps
    lfosc rosc (idle_oscillator "RCOSC_0").

(** Two comparators on pin 6, ACMP0 not instantiated. *)
Definition sharing_device : Greenpak4Device :=
  device_with [unused_acmp 0; used_acmp 1 "cmp_a" pin6; used_acmp 2 "cmp_b" pin6]
    (idle_oscillator "LFOSC_0") (idle_oscillator "RINGOSC_0").

Definition sharing_device_after : Greenpak4Device :=
  device_with
    [mkAcmp pin6 (PowerOnReset_GetOutput "RST_DONE")
       (mkNode (Greenpak4Comparator 0) None []);
     used_acmp 1 "cmp_a" pin6; used_acmp 2 "cmp_b" pin6]
    (idle_oscillator "LFOSC_0") (idle_oscillator "RINGOSC_0").

(** One comparator on pin 6 and one on VDD. *)
Definition conflict_device : Greenpak4Device :=
  device_with [unused_acmp 0; used_acmp 1 "cmp_a" pin6; used_acmp 2 "cmp_b" vdd]
    (idle_oscillator "LFOSC_0") (idle_oscillator "RINGOSC_0").

(** The LF and the ring oscillator powered down from two different pins. *)
Definition powerdown_device : Greenpak4Device :=
  device_with [unused_acmp 0]
    (mkOsc "LFOSC_0" true true (IOB_GetOutput 2 EmptyString))
    (mkOsc "RINGOSC_0" true true (IOB_GetOutput 4 EmptyString)).

(** Pin 5 driven by a voltage reference while it is a digital input. *)
Definition vref_signal : Greenpak4EntityOutput :=
  mkOutput (Greenpak4VoltageReference 0) "VOUT".

Definition analog_device : Greenpak4Device :=
  mkDevice GREENPAK4_SLG46620
    [(2, digital_iob); (5, mkIOB vref_signal false); (7, mkIOB vref_signal false)]
    [unused_acmp 0]
    (idle_oscillator "LFOSC_0") (idle_oscillator "RINGOSC_0")
    (idle_oscillator "RCOSC_0").

(** A port constructor that keeps the name and asks the module for the node
    of net 2, and a module with two ports and a cell. *)
Definition example_NewPort (cname : string) (cobject : json_object)
    (m : Greenpak4NetlistModule string) : Proc (string * Greenpak4NetlistModule string) :=
  mret (cname, (GetNode string 2 m).2).

Definition example_module : json_object :=
  json_members
    [("ports", json_members [("clk", json_members []); ("led", json_members [])]);
     ("cells", json_members [("ff", json_members [])])].

(** Collaborators of [DoPAR] for a run in which the engine gives up. *)
Definition example_BuildGraphs (netlist : unit) (device : Greenpak4Device)
    : Proc (PARGraph NetlistNode * PARGraph DeviceNode * labelmap) :=
  mret (example_netlist, mkGraph [] 3, ∅).

Definition failing_PlaceAndRoute (ngraph : PARGraph NetlistNode)
    (dgraph : PARGraph DeviceNode) (lmap : labelmap)
    : Proc (bool * PARGraph NetlistNode * PARGraph DeviceNode) :=
  mret (false, ngraph, dgraph).

Definition example_CommitChanges (dgraph : PARGraph DeviceNode)
    (device : Greenpak4Device) : Proc (Greenpak4Device * (Z * Z)) :=
  mret (device, (0, 0)).

Definition example_PlacementReport (ngraph : PARGraph NetlistNode)
    (device : Greenpak4Device) : list string :=
  map (λ n, m_name (m_data n)) (m_nodes ngraph).

Definition example_UtilizationReport (ngraph : PARGraph NetlistNode)
    (device : Greenpak4Device) (num_routes_used : Z * Z) : list string :=
  [].

(** A bitstream file of 256 bytes with bit 7 of byte 253 and bits 0 and 7 of
    byte 254 set, downloaded with [--pattern-id 3]. *)
Definition example_file : list Z := replicate 253 0 ++ [128; 129; 0].

Definition example_options : Gp4prog.Options :=
  Gp4prog.mkOptions 0 true 3 false false.

(** An erased bitstream of 256 bytes. *)
Definition blank_file : list Z := replicate 256 0.

(** A trim value with bit 7 set, [--pattern-id 90] and [--read-protect]. *)
Definition trim_options : Gp4prog.Options :=
  Gp4prog.mkOptions 200 true 90 true false.

(** A board that answers every call with success: an empty SLG46620V in the
    socket, every file holding the bitstream of the examples, and a
    read-back in which every byte is 255. *)
Definition example_board : Gp4progMain.Board :=
  Gp4progMain.mkBoard
    (λ _, true) (λ _ _, true)
    (λ _, Some (Gp4prog.SLG46620V, blank_file, Gp4progMain.EMPTY))
    (λ _ _, true) (λ _ _, true) (λ _, true) (λ _ _ _ _, Some 200)
    (λ _ _, example_file) (λ _, 2048%nat) (λ _ _ _, true)
    (λ _ size, Some (replicate size 255)) (λ _ _, true) (λ _ _ _, true)
    (λ _, true).

(** A logger with one level that takes no argument, and conversions that
    convert nothing. *)
Definition example_logger : list string → unit → option (nat * unit) := λ _ _, None.
Definition example_at_least : unit → unit → bool := λ _ _, true.
Definition example_strtol : string → Z * nat := λ _, (0, 0%nat).
Definition example_strtod : string → float * nat := λ _, (0%float, 0%nat).
Definition example_format_3g : float → string := λ _, "0".
Definition example_format_02x : Z → string := λ _, "00".

Definition example_args : list string := ["--program"; "a.txt"].

(** The variables of [main] after [--program a.txt]. *)
Definition example_command : Gp4progMain.CommandLine unit :=
  Gp4progMain.mkCommandLine unit tt false false 0 "a.txt" EmptyString true false 0
    false false 0%float [].

Definition example_parse : list string → option (Gp4progMain.Parse (Gp4progMain.CommandLine unit)) :=
  Gp4progMain.parse unit tt example_logger example_strtol example_strtod
    example_format_3g.

Definition example_run : Gp4progMain.CommandLine unit → Gp4progMain.Main unit :=
  Gp4progMain.run unit tt example_at_least example_format_3g example_format_02x
    example_board.

Definition example_main : list string → option (Gp4progMain.World * Gp4progMain.Result unit) :=
  Gp4progMain.main unit tt example_at_least example_logger example_strtol
    example_strtod example_format_3g example_format_02x example_board.


(** Entries of the subsystem hidraw: a USB device, a USB device whose
    parent is not found, a Bluetooth device and an entry without hid
    parent. *)
Definition usb_uevent : string :=
  "HID_ID=0003:00000F30:00001012" +:+ nl +:+ "HID_NAME=Silego GreenPAK" +:+ nl
  +:+ "HID_UNIQ=" +:+ nl.

Definition bluetooth_uevent : string :=
  "HID_ID=0005:00000001:00000002" +:+ nl +:+ "HID_NAME=Keyboard" +:+ nl
  +:+ "HID_UNIQ=00:11:22" +:+ nl.

Definition example_sscanf (value : string) : list Z :=
  if bool_decide (value = "0005:00000001:00000002") then [5; 1; 2]
  else [3; 3888; 4114].

Definition example_attributes (name : string) : option string :=
  if bool_decide (name = "manufacturer") then Some "Silego" else None.

Definition example_devices : list HidEnumerate.hidraw :=
  [HidEnumerate.mk_hidraw (Some "/dev/hidraw0") (Some (Some usb_uevent))
     (Some example_attributes) (Some (λ _, Some "00"));
   HidEnumerate.mk_hidraw (Some "/dev/hidraw1") (Some (Some usb_uevent)) None None;
   HidEnumerate.mk_hidraw (Some "/dev/hidraw2") (Some (Some bluetooth_uevent))
     None None;
   HidEnumerate.mk_hidraw None None None None].

Definition example_mbstowcs (utf8 : string) : option nat :=
  Some (String.length utf8).

Definition example_number_of (str : string) : Z := 0.

Definition example_malloc (heap : gmap nat HidEnumerate.hid_device_info) : nat :=
  fresh (dom heap).

End Examples.

(** * Properties *)

(** ** The process monad *)

(** The binds of a computation, written with [Proc_bind] and [Proc_ret]. *)
Ltac proc_norm :=
  unfold mbind, mret, Proc_mbind, Proc_mret, printf, eprintf, exit, undefined in *.

Lemma Proc_bind_ret {A B} (a : A) (f : A → Proc B) : Proc_bind f (Proc_ret a) = f a.
Proof. unfold Proc_ret, Proc_bind. by destruct (f a). Qed.

Lemma Proc_bind_returned {A B} (o : list Line) (a : A) (f : A → Proc B) :
  Proc_bind f (o, Returned a) = (o ++ (f a).1, (f a).2).
Proof. unfold Proc_bind. by destruct (f a). Qed.

Lemma Proc_bind_exited {A B} (o : list Line) (c : Z) (f : A → Proc B) :
  Proc_bind f (o, Exited c) = (o, Exited c).
Proof. reflexivity. Qed.

Lemma Proc_bind_undefined {A B} (o : list Line) (f : A → Proc B) :
  Proc_bind f (o, Undefined) = (o, Undefined).
Proof. reflexivity. Qed.

Lemma Proc_bind_assoc {A B C} (m : Proc A) (f : A → Proc B) (g : B → Proc C) :
  Proc_bind g (Proc_bind f m) = Proc_bind (λ a, Proc_bind g (f a)) m.
Proof.
  destruct m as [o [a| |]]; try done.
  rewrite !Proc_bind_returned. destruct (f a) as [o' [b| |]]; simpl; try done.
  rewrite !Proc_bind_returned. simpl. by rewrite app_assoc.
Qed.

Lemma Proc_bind_inv_returned {A B} (f : A → Proc B) (m : Proc A) o b :
  Proc_bind f m = (o, Returned b) →
  ∃ o1 a o2, m = (o1, Returned a) ∧ f a = (o2, Returned b) ∧ o = o1 ++ o2.
Proof.
  destruct m as [o1 [a| |]]; try done. rewrite Proc_bind_returned.
  destruct (f a) as [o2 r] eqn:E. simpl. intros [= <- ->]. by exists o1, a, o2.
Qed.

(** Runs the binds whose first computation has returned. *)
Ltac proc_run :=
  proc_norm; unfold Proc_ret in *;
  repeat (rewrite Proc_bind_returned; simpl).

Lemma exit_status_minus_one : exit_status (-1) = 255.
Proof. reflexivity. Qed.

Lemma fatal_exit_minus_one {A} : fatal (@Exited A (-1)).
Proof. exists (-1). split; [done | by rewrite exit_status_minus_one]. Qed.

(** ** Greenpak4NetlistModule *)

Section ModuleProperties.

Import NetlistModule.

Context {Port : Type}.
Variable NewPort :
  string → json_object → Greenpak4NetlistModule Port
  → Proc (Port * Greenpak4NetlistModule Port).

Implicit Type m : Greenpak4NetlistModule Port.

Lemma GetNode_lookup netnum m :
  m_nodes _ (GetNode _ netnum m).2 !! netnum = Some (GetNode _ netnum m).1.
Proof.
  unfold GetNode. destruct (m_nodes _ m !! netnum) eqn:E; simpl; [done|].
  apply lookup_insert_eq.
Qed.

(** A node that exists is returned as it is, and nothing changes. *)
Lemma GetNode_existing netnum m p :
  m_nodes _ m !! netnum = Some p → GetNode _ netnum m = (p, m).
Proof. intros E. unfold GetNode. by rewrite E. Qed.

(** Asking for any net keeps the nodes that exist. *)
Lemma GetNode_preserves netnum k m p :
  m_nodes _ m !! netnum = Some p → m_nodes _ (GetNode _ k m).2 !! netnum = Some p.
Proof.
  intros E. unfold GetNode. destruct (m_nodes _ m !! k) eqn:Ek; simpl; [done|].
  rewrite lookup_insert_ne; [done|]. intros ->. congruence.
Qed.

Lemma GetNodes_preserves ks netnum m p :
  m_nodes _ m !! netnum = Some p → m_nodes _ (GetNodes _ ks m) !! netnum = Some p.
Proof.
  revert m. induction ks as [|k ks IH]; intros m E; simpl; [done|].
  apply IH. by apply GetNode_preserves.
Qed.

(** C10. [GetNode] is idempotent.  A call for a net without a node creates
    exactly one node: the pointer returned is the one the allocation gave,
    there is one allocation and one more entry in the node map, which maps
    the net to that pointer, and every other entry is as it was; if the nodes
    of the map were all allocated before, no net had that node, and the nodes
    of the new map are all allocated.  A call for a net that has a node
    returns the node of the map and changes nothing; a second call in a row
    returns the pointer of the first and leaves the module as the first left
    it; and so does every later call for that net, whatever nets were asked
    for in between. *)
Theorem GetNode_idempotent (netnum : Z) m :
  let p1 := (GetNode _ netnum m).1 in
  let m1 := (GetNode _ netnum m).2 in
  GetNode _ netnum m1 = (p1, m1)
  ∧ (m_nodes _ m !! netnum = None →
       p1 = allocated _ m
       ∧ allocated _ m1 = S (allocated _ m)
       ∧ size (m_nodes _ m1) = S (size (m_nodes _ m))
       ∧ m_nodes _ m1 = <[netnum := p1]> (m_nodes _ m)
       ∧ m_ports _ m1 = m_ports _ m
       ∧ (nodes_allocated _ m →
            (∀ k, m_nodes _ m !! k ≠ Some p1) ∧ nodes_allocated _ m1))
  ∧ (is_Some (m_nodes _ m !! netnum) →
       m1 = m ∧ m_nodes _ m !! netnum = Some p1)
  ∧ (∀ ks, let m2 := GetNodes _ ks m1 in GetNode _ netnum m2 = (p1, m2)).
Proof.
  intros p1 m1. split; [|split; [|split]].
  - apply GetNode_existing. apply GetNode_lookup.
  - intros E. subst p1 m1. unfold GetNode. rewrite E. simpl.
    split; [done|]. split; [done|].
    split; [by apply map_size_insert_None|]. split; [done|]. split; [done|].
    intros Hallocated. split.
    + intros k Hk. apply Hallocated in Hk. lia.
    + intros k p. simpl. intros Hk.
      destruct (decide (k = netnum)) as [->|Hne].
      * rewrite lookup_insert_eq in Hk. injection Hk as <-. lia.
      * rewrite lookup_insert_ne in Hk by done. apply Hallocated in Hk. lia.
  - intros [p E]. subst p1 m1. by rewrite (GetNode_existing _ _ _ E).
  - intros ks m2. apply GetNode_existing. apply GetNodes_preserves.
    apply GetNode_lookup.
Qed.

(** *** What the constructor returns *)

Local Abbreviation load_child := (NetlistModule.load_child Port NewPort).
Local Abbreviation load_children := (NetlistModule.load_children Port NewPort).
Local Abbreviation load_member := (NetlistModule.load_member Port NewPort).
Local Abbreviation load_members := (NetlistModule.load_members Port NewPort).
Local Abbreviation keeps_ports := (NetlistModule.keeps_ports Port NewPort).
Local Abbreviation accepts_ports := (NetlistModule.accepts_ports Port NewPort).

(** A member that is loaded is an object; under ["ports"] its name is new and
    the port that [NewPort] built is stored under it; under ["cells"] and
    ["netnames"] the module stays as it is. *)
Lemma load_child_returns name cname cobject m out m' :
  keeps_ports →
  load_child name cname cobject m = (out, Returned m') →
  is_type_object cobject = true
  ∧ ((name = "ports"
      ∧ m_ports _ m !! cname = None
      ∧ ∃ p, m_ports _ m' = <[cname := p]> (m_ports _ m))
     ∨ (name ≠ "ports" ∧ m' = m)).
Proof.
  intros Hkeeps. unfold NetlistModule.load_child.
  destruct (is_type_object cobject); simpl; [|done].
  destruct (decide (name = "ports")) as [->|Hne].
  - destruct (decide (is_Some (m_ports Port m !! cname))) as [|Hnew]; [done|].
    proc_norm. intros Hrun.
    apply Proc_bind_inv_returned in Hrun as (o1 & [p m1] & o2 & Hport & [= <- <-] & ->).
    split; [done|]. left. split; [done|]. split.
    + by apply eq_None_not_Some.
    + exists p. simpl. by rewrite (Hkeeps _ _ _ _ _ _ Hport).
  - destruct (decide (name = "cells")); [by intros [= _ <-]; repeat split; auto|].
    destruct (decide (name = "netnames")); [by intros [= _ <-]; repeat split; auto|].
    done.
Qed.

Lemma load_children_returns name children m out m' :
  keeps_ports →
  load_children name children m = (out, Returned m') →
  Forall (λ c : string * json_object, is_type_object c.2 = true) children
  ∧ (name ≠ "ports" → m' = m)
  ∧ (name = "ports" →
       NoDup (map fst children)
       ∧ (∀ c, c ∈ map fst children → m_ports _ m !! c = None)
       ∧ dom (m_ports _ m') = dom (m_ports _ m) ∪ list_to_set (map fst children)).
Proof.
  intros Hkeeps. revert m out. induction children as [|[cname cobject] children IH];
    intros m out; simpl.
  - intros [= <- <-]. repeat split; try done; [constructor|set_solver..].
  - proc_norm. intros Hrun.
    apply Proc_bind_inv_returned in Hrun as (o1 & m1 & o2 & Hchild & Hrest & ->).
    apply (load_child_returns _ _ _ _ _ _ Hkeeps) in Hchild as (Hobj & Hcase).
    apply IH in Hrest as (Hobjs & Hother & Hports).
    split; [by constructor|]. split.
    + intros Hne. destruct Hcase as [[? _]|[_ ->]]; [done|]. by apply Hother.
    + intros Heq. destruct Hcase as [(_ & Hnew & p & Hins)|[? _]]; [|done].
      destruct (Hports Heq) as (Hnd & Hfresh & Hdom).
      rewrite Hins in Hfresh, Hdom. rewrite dom_insert_L in Hdom.
      assert (cname ∉ map fst children) as Hnotin.
      { intros Hin. specialize (Hfresh _ Hin). by rewrite lookup_insert_eq in Hfresh. }
      split; [by constructor|]. split; [|set_solver].
      intros c Hc. apply elem_of_cons in Hc as [->|Hc]; [done|].
      specialize (Hfresh _ Hc). rewrite lookup_insert_ne in Hfresh; [done|].
      by intros ->.
Qed.

Lemma load_members_returns members m out m' :
  keeps_ports →
  load_members members m = (out, Returned m') →
  NoDup (port_names members)
  ∧ (∀ c, c ∈ port_names members → m_ports _ m !! c = None)
  ∧ dom (m_ports _ m') = dom (m_ports _ m) ∪ list_to_set (port_names members)
  ∧ (port_names members = [] → m' = m).
Proof.
  intros Hkeeps. revert m out. induction members as [|[name child] members IH];
    intros m out; simpl.
  - intros [= <- <-]. repeat split; try done; [constructor|set_solver..].
  - proc_norm. intros Hrun.
    apply Proc_bind_inv_returned in Hrun as (o1 & m1 & o2 & Hmember & Hrest & ->).
    destruct child as [children|]; [|done]. simpl in Hmember.
    pose proof Hmember as Hfirst.
    apply (load_children_returns _ _ _ _ _ Hkeeps) in Hmember as (_ & Hother & Hports).
    apply IH in Hrest as (Hnd & Hfresh & Hdom & Hnone).
    destruct (decide (name = "ports")) as [Heq|Hne]; simpl.
    + destruct (Hports Heq) as (Hnd1 & Hfresh1 & Hdom1).
      rewrite Hdom1 in Hdom. split; [|split; [|split; [set_solver|]]].
      * apply NoDup_app. split; [done|]. split; [|done].
        intros c Hc Hc'. specialize (Hfresh _ Hc').
        assert (c ∈ dom (m_ports Port m1)) as Hin by set_solver.
        apply elem_of_dom in Hin as [p Hp]. congruence.
      * intros c Hc. apply elem_of_app in Hc as [Hc|Hc]; [by apply Hfresh1|].
        specialize (Hfresh _ Hc). apply not_elem_of_dom.
        apply not_elem_of_dom in Hfresh. set_solver.
      * intros [Hnil Hrest]%app_eq_nil. rewrite (Hnone Hrest).
        destruct children; [|done]. simpl in Hfirst. by injection Hfirst as _ <-.
    + rewrite (Hother Hne) in *. by rewrite ?app_nil_l.
Qed.

(** Whenever the constructor returns a module, with a port constructor that
    leaves the port map alone, the description was an object, the names
    declared under ["ports"] are pairwise different and the port map holds
    exactly these names; and if no port is declared the module is the empty
    one: cells and net names are printed but not stored. *)
Theorem new_module_ports (name : string) (object : json_object)
    (out : list Line) m :
  keeps_ports →
  new_Greenpak4NetlistModule Port NewPort name object = (out, Returned m) →
  ∃ members,
    object = json_members members
    ∧ NoDup (port_names members)
    ∧ dom (m_ports _ m) = list_to_set (port_names members)
    ∧ (port_names members = [] → m = mkModule Port ∅ ∅ 0).
Proof.
  intros Hkeeps. unfold new_Greenpak4NetlistModule. proc_norm.
  rewrite Proc_bind_returned.
  destruct object as [members|]; [|done].
  destruct (NetlistModule.load_members _ _ _ _) as [o r] eqn:E. simpl.
  intros [= _ ->].
  apply (load_members_returns _ _ _ _ Hkeeps) in E as (Hnd & _ & Hdom & Hnone).
  exists members. repeat split; try done. simpl in Hdom. set_solver.
Qed.

(** A section that is not ["ports"] never changes the module.  Its members
    are printed if it is ["cells"] or ["netnames"]; under any other name an
    empty section is accepted without a word, and a section with a member
    ends the run with the error that names the section. *)
Theorem sections_other_than_ports (name : string)
    (children : list (string * json_object)) m :
  name ≠ "ports" →
  Forall (λ c : string * json_object, is_type_object c.2 = true) children →
  load_member name (json_members children) m
  = if decide (name = "cells") then
      (map (λ c, (Stdout, "    Cell " +:+ c.1 +:+ nl)) children, Returned m)
    else if decide (name = "netnames") then
      (map (λ c, (Stdout, "    Net name " +:+ c.1 +:+ nl)) children, Returned m)
    else match children with
         | [] => ([], Returned m)
         | _ :: _ =>
             ([(Stderr, "ERROR: Unknown top-level JSON object " +:+ quoted name +:+ nl)],
              Exited (-1))
         end.
Proof.
  intros Hne Hobjs. simpl.
  assert (∀ cname cobject, is_type_object cobject = true →
    load_child name cname cobject m
    = if decide (name = "cells") then ([(Stdout, "    Cell " +:+ cname +:+ nl)], Returned m)
      else if decide (name = "netnames")
           then ([(Stdout, "    Net name " +:+ cname +:+ nl)], Returned m)
           else ([(Stderr, "ERROR: Unknown top-level JSON object " +:+ quoted name +:+ nl)],
                 Exited (-1))) as Hchild.
  { intros cname cobject Hobj. unfold NetlistModule.load_child. rewrite Hobj. simpl.
    rewrite decide_False by done. by repeat case_decide. }
  induction children as [|[cname cobject] children IH]; simpl.
  - by repeat case_decide.
  - proc_norm. rewrite Hchild by apply (Forall_inv Hobjs).
    specialize (IH (Forall_inv_tail Hobjs)).
    repeat case_decide; try done; rewrite Proc_bind_returned, IH; done.
Qed.

(** *** The objects json-c hands over *)

Lemma json_object_object_add_keys (members : list (string * json_object)) key val :
  (json_object_object_add members key val).*1
  = if bool_decide (key ∈ members.*1) then members.*1 else members.*1 ++ [key].
Proof.
  unfold json_object_object_add. case_bool_decide.
  - clear. induction members as [|[k v] members IH]; [done|].
    cbn [map fmap list_fmap]. f_equal; [|exact IH].
    simpl. by case_bool_decide.
  - by rewrite fmap_app.
Qed.

Lemma json_object_object_add_objects (members : list (string * json_object)) key val :
  Forall (λ c : string * json_object, is_type_object c.2 = true) members →
  is_type_object val = true →
  Forall (λ c : string * json_object, is_type_object c.2 = true)
    (json_object_object_add members key val).
Proof.
  intros Hmembers Hval. unfold json_object_object_add. case_bool_decide.
  - apply Forall_fmap. eapply Forall_impl; [exact Hmembers|].
    intros [k v] Hv. simpl. by case_bool_decide.
  - apply Forall_app. split; [done|]. by constructor.
Qed.

(** The members of a parsed object have pairwise different names, the names
    that are written; and they are objects if what is written are objects. *)
Lemma parsed_members (members : list (string * json_text)) :
  ∀ object : list (string * json_object),
  let parsed :=
    foldl (λ object (member : string * json_text),
             json_object_object_add object member.1 (json_tokener_parse member.2))
      object members in
  NoDup object.*1 →
  NoDup parsed.*1
  ∧ (list_to_set parsed.*1 : gset string)
    = list_to_set object.*1 ∪ list_to_set members.*1
  ∧ (Forall (λ c : string * json_object, is_type_object c.2 = true) object →
     Forall (λ c : string * json_text, ∃ written, c.2 = text_members written) members →
     Forall (λ c : string * json_object, is_type_object c.2 = true) parsed).
Proof.
  induction members as [|[key text] members IH]; intros object parsed Hnodup.
  - subst parsed. simpl. split; [done|]. split; [set_solver|]. by intros.
  - subst parsed. simpl.
    set (added := json_object_object_add object key (json_tokener_parse text)).
    assert (NoDup added.*1 ∧ (list_to_set added.*1 : gset string)
                             = list_to_set object.*1 ∪ {[key]}) as [Hadded Hkeys].
    { subst added. rewrite json_object_object_add_keys. case_bool_decide as Hin.
      - split; [done|]. apply (elem_of_list_to_set (C := gset string)) in Hin.
        set_solver.
      - split; [|rewrite list_to_set_app_L; set_solver].
        apply NoDup_app. split; [done|]. split; [|apply NoDup_singleton].
        intros k Hk ->%list_elem_of_singleton. done. }
    destruct (IH added Hadded) as (Hnd & Hset & Hobjects).
    split; [done|]. split; [rewrite Hset, Hkeys; set_solver|].
    intros Hobject Htexts. apply Forall_cons in Htexts as [[written Hwritten] Htexts].
    apply Hobjects; [|done]. apply json_object_object_add_objects; [done|].
    simpl in Hwritten. by rewrite Hwritten.
Qed.

(** The declarations of a section ["ports"] whose names are pairwise
    different are all loaded, if the port constructor accepts them. *)
Lemma load_children_distinct (children : list (string * json_object)) :
  ∀ m,
  keeps_ports →
  accepts_ports →
  NoDup children.*1 →
  Forall (λ c : string * json_object, is_type_object c.2 = true) children →
  (∀ c, c ∈ children.*1 → m_ports _ m !! c = None) →
  ∃ out m',
    load_children "ports" children m = (out, Returned m')
    ∧ stderr_of out = []
    ∧ dom (m_ports _ m') = dom (m_ports _ m) ∪ list_to_set children.*1.
Proof.
  induction children as [|[cname cobject] children IH];
    intros m Hkeeps Haccepts Hnodup Hobjects Hfresh.
  - exists [], m. simpl. split; [done|]. split; [done|]. set_solver.
  - apply NoDup_cons in Hnodup as [Hnotin Hnodup].
    apply Forall_cons in Hobjects as [Hobject Hobjects]. simpl in Hobject.
    destruct (Haccepts cname cobject m) as (o1 & port & m1 & Hport & Herr).
    pose proof (Hkeeps _ _ _ _ _ _ Hport) as Hports.
    set (m2 := set_ports Port m1 (<[cname := port]> (m_ports Port m1))).
    destruct (IH m2 Hkeeps Haccepts Hnodup Hobjects) as (o2 & m' & Hrest & Herr' & Hdom).
    { intros c Hc. subst m2. simpl. rewrite Hports.
      rewrite lookup_insert_ne by (intros ->; done).
      apply Hfresh. by right. }
    exists (o1 ++ o2), m'. split; [|split].
    + change (load_children "ports" ((cname, cobject) :: children) m)
        with (Proc_bind (λ m', load_children "ports" children m')
                (load_child "ports" cname cobject m)).
      assert (load_child "ports" cname cobject m = (o1, Returned m2)) as ->.
      { unfold NetlistModule.load_child. rewrite Hobject. simpl.
        rewrite decide_False.
        2: { intros Hsome. rewrite (Hfresh cname) in Hsome by by left.
             by destruct Hsome. }
        proc_norm. rewrite Hport, Proc_bind_returned. simpl.
        by rewrite app_nil_r. }
      by rewrite Proc_bind_returned, Hrest.
    + unfold stderr_of in *. by rewrite omap_app, Herr, Herr'.
    + rewrite Hdom. subst m2. simpl. rewrite Hports, dom_insert_L. set_solver.
Qed.

(** C9.  A description as it is written, with a section ["ports"] whose
    declarations are objects, read by json-c and handed to the constructor
    with a port constructor that accepts every declaration: whether or not a
    name is declared more than once, the constructor returns, writes nothing
    to stderr, and the port map holds the names written.  json-c has kept one
    member for each name, so the test for a redeclaration never holds. *)
Theorem redeclared_port_loaded_silently (name : string)
    (ports : list (string * json_text)) :
  keeps_ports →
  accepts_ports →
  Forall (λ c : string * json_text, ∃ written, c.2 = text_members written) ports →
  ∃ out m,
    new_Greenpak4NetlistModule Port NewPort name
      (json_tokener_parse (text_members [("ports", text_members ports)]))
    = ((Stdout, "Module " +:+ name +:+ "..." +:+ nl) :: out, Returned m)
    ∧ stderr_of out = []
    ∧ dom (m_ports _ m) = list_to_set ports.*1.
Proof.
  intros Hkeeps Haccepts Hobjects.
  destruct (parsed_members ports [] ltac:(constructor)) as (Hnodup & Hkeys & Hparsed).
  specialize (Hparsed ltac:(constructor) Hobjects).
  destruct (load_children_distinct _ (mkModule Port ∅ ∅ 0) Hkeeps Haccepts Hnodup Hparsed)
    as (out & m & Hrun & Herr & Hdom); [done|].
  exists out, m. split; [|split; [done|]].
  - set (parsed := foldl _ [] ports) in *.
    assert (json_tokener_parse (text_members [("ports", text_members ports)])
            = json_members [("ports", json_members parsed)]) as ->.
    { cbn [json_tokener_parse foldl fst snd]. unfold json_object_object_add at 1.
      cbn [fmap list_fmap]. by rewrite bool_decide_false by apply not_elem_of_nil. }
    assert (load_members [("ports", json_members parsed)] (mkModule Port ∅ ∅ 0)
            = (out, Returned m)) as Hmembers.
    { change (load_members [("ports", json_members parsed)] (mkModule Port ∅ ∅ 0))
        with (Proc_bind (λ m', Proc_ret m')
                (load_children "ports" parsed (mkModule Port ∅ ∅ 0))).
      rewrite Hrun, Proc_bind_returned. simpl. by rewrite app_nil_r. }
    unfold new_Greenpak4NetlistModule. proc_norm. rewrite Proc_bind_returned.
    by rewrite Hmembers.
  - rewrite Hdom, Hkeys. simpl. set_solver.
Qed.

End ModuleProperties.

(** ** PostPARDRC *)

Section DRCProperties.

Import Par.

Variable GetOutputPorts : Greenpak4BitstreamEntity → list string.
Variable GetOutputName : Greenpak4EntityOutput → string.

Local Abbreviation check_node := (Par.check_node GetOutputPorts).
Local Abbreviation no_load := (Par.no_load GetOutputPorts).
Local Abbreviation check_iob := (Par.check_iob GetOutputName).
Local Abbreviation check_acmp_mux := (Par.check_acmp_mux GetOutputName).
Local Abbreviation check_shared_input := (Par.check_shared_input GetOutputName).
Local Abbreviation check_oscillators := (Par.check_oscillators GetOutputName).
Local Abbreviation device_checks := (Par.device_checks GetOutputName).
Local Abbreviation checks_before_oscillators :=
  (Par.checks_before_oscillators GetOutputPorts GetOutputName).
Local Abbreviation comparator_line := (Par.comparator_line GetOutputName).
Local Abbreviation oscillator_line := (Par.oscillator_line GetOutputName).
Local Abbreviation PostPARDRC := (Par.PostPARDRC GetOutputPorts GetOutputName).
Local Abbreviation mux_stage := (Par.mux_stage GetOutputName).
Local Abbreviation oscillator_stage := (Par.oscillator_stage GetOutputName).
Local Abbreviation conflict_exit := (Par.conflict_exit GetOutputName).
Local Abbreviation powerdown_exit := (Par.powerdown_exit GetOutputName).

(** The lines of a loop whose body always returns. *)
Lemma for_each_returned {A} (body : A → Proc unit) (out : A → list Line) l :
  (∀ x, x ∈ l → body x = (out x, Returned tt)) →
  for_each body l = (concat (map out l), Returned tt).
Proof.
  induction l as [|x l IH]; intros Hbody; simpl; [done|]. proc_norm.
  rewrite (Hbody x) by apply list_elem_of_here.
  rewrite Proc_bind_returned, IH; [done|].
  intros y Hy. apply Hbody. by apply list_elem_of_further.
Qed.

Lemma for_each_printf {A} (line : A → string) (l : list A) :
  for_each (λ x, printf (line x)) l = (map (λ x, (Stdout, line x)) l, Returned tt).
Proof.
  rewrite (for_each_returned _ (λ x, [(Stdout, line x)])) by done.
  f_equal. induction l as [|x l IH]; simpl; [done|]. by rewrite IH.
Qed.

(** *** The loop over the netlist nodes *)

Lemma check_node_mated node :
  is_Some (m_mate node) →
  check_node node = (if no_load node then [warning_line node] else [], Returned tt).
Proof.
  intros [dst E]. unfold Par.check_node, Par.no_load. rewrite E. simpl.
  proc_norm. rewrite Proc_bind_returned. simpl.
  destruct (is_PowerRail dst); simpl; [by rewrite andb_false_r|].
  destruct (GetOutputPorts dst) as [|port ports]; simpl;
    [by rewrite !andb_false_r|].
  destruct (is_output_iob_cell (m_data node)); simpl; [by rewrite andb_false_r|].
  by destruct (bool_decide (GetEdgeCount node = 0%nat)).
Qed.

(** The missing mate is dereferenced before it is tested. *)
Lemma check_node_unmated node :
  m_mate node = None → check_node node = ([], Undefined).
Proof. intros E. unfold Par.check_node. by rewrite E. Qed.

Lemma warnings_filter (nodes : list NetlistNode) :
  concat (map (λ n, if no_load n then [warning_line n] else []) nodes)
  = map warning_line (List.filter no_load nodes).
Proof.
  induction nodes as [|n nodes IH]; simpl; [done|].
  rewrite IH. by destruct (no_load n).
Qed.

Lemma check_nodes_mated (nodes : list NetlistNode) :
  Forall (λ n, is_Some (m_mate n)) nodes →
  for_each check_node nodes
  = (map warning_line (List.filter no_load nodes), Returned tt).
Proof.
  intros Hall. rewrite <- warnings_filter. apply for_each_returned.
  intros n Hn. apply check_node_mated. by eapply Forall_forall in Hall.
Qed.

(** With a node that has no mate the loop ends in undefined behaviour, and
    it has written nothing to stderr. *)
Lemma check_nodes_unmated (nodes : list NetlistNode) :
  Exists (λ n, m_mate n = None) nodes →
  (for_each check_node nodes).2 = Undefined
  ∧ stderr_of (for_each check_node nodes).1 = [].
Proof.
  induction nodes as [|n nodes IH]; intros Hex; [by apply Exists_nil in Hex|].
  simpl. destruct (m_mate n) as [dst|] eqn:E.
  - rewrite check_node_mated by (rewrite E; eauto). proc_norm.
    rewrite Proc_bind_returned. simpl. apply Exists_cons in Hex as [Hn|Hex]; [congruence|].
    destruct (IH Hex) as [-> Herr]. split; [done|].
    unfold stderr_of in *. rewrite omap_app, Herr.
    by destruct (no_load n).
  - by rewrite check_node_unmated.
Qed.

Lemma PostPARDRC_unfold netlist device :
  PostPARDRC netlist device
  = (printf drc_banner ;; for_each check_node (m_nodes netlist) ;; device_checks device).
Proof. reflexivity. Qed.

Lemma Proc_bind_prefixed {A B} (o : list Line) (m : Proc A) (f : A → Proc B) :
  Proc_bind f (prefixed o m) = prefixed o (Proc_bind f m).
Proof.
  destruct m as [o' [a| |]]; unfold prefixed; simpl; try done.
  rewrite !Proc_bind_returned. simpl. by rewrite app_assoc.
Qed.

(** When every node is placed, the first loop prints the warnings of the
    nodes without load and the checks of the device follow. *)
Lemma PostPARDRC_mated netlist device :
  Forall (λ n, is_Some (m_mate n)) (m_nodes netlist) →
  PostPARDRC netlist device
  = prefixed ((Stdout, drc_banner)
                :: map warning_line (List.filter no_load (m_nodes netlist)))
             (device_checks device).
Proof.
  intros Hall. rewrite PostPARDRC_unfold, check_nodes_mated by done.
  proc_norm. by rewrite !Proc_bind_returned.
Qed.

Lemma PostPARDRC_unmated netlist device :
  Exists (λ n, m_mate n = None) (m_nodes netlist) →
  (PostPARDRC netlist device).2 = Undefined
  ∧ stderr_of (PostPARDRC netlist device).1 = [].
Proof.
  intros Hex. generalize (check_nodes_unmated _ Hex).
  rewrite PostPARDRC_unfold. proc_norm. rewrite Proc_bind_returned.
  unfold NetlistNode. destruct (for_each _ _) as [o r]. simpl.
  intros [-> Herr]. by rewrite Proc_bind_undefined.
Qed.

(** C1 at its failing input.  For a netlist graph whose only node has no
    mate, [PostPARDRC] prints its banner and then evaluates
    [mate->GetData()] on the null mate: the run ends in undefined behaviour,
    the diagnostic ["is not mapped to any site in the device"] is never
    printed and [exit] is never called. *)
Theorem PostPARDRC_unmated_node (device : Greenpak4Device) :
  let run := PostPARDRC (mkGraph [Examples.unplaced_flipflop] 0) device in
  run = ([(Stdout, drc_banner)], Undefined)
  ∧ stderr_of run.1 = []
  ∧ run.2 ≠ Exited (-1).
Proof. by cbv zeta; repeat split. Qed.

(** C5. On a netlist graph all of whose nodes are placed, the first loop of
    [PostPARDRC] prints one warning, which names the node between quotes and
    says that it has no load, for each node that is [no_load] (no outgoing
    edge, mate not a power rail, not a [GP_IOBUF] or [GP_OBUF] cell, mate
    with at least one output port), in the order of the nodes, and nothing
    for any other node; the loop then returns, and the run goes on with the
    checks of the device, whose outcome does not depend on the warnings. *)
Theorem no_load_warnings (netlist : PARGraph NetlistNode) (device : Greenpak4Device) :
  Forall (λ n, is_Some (m_mate n)) (m_nodes netlist) →
  let warnings :=
    map (λ node : NetlistNode,
           (Stdout, "    WARNING: Node " +:+ (dq +:+ m_name (m_data node) +:+ dq)
                      +:+ " has no load" +:+ nl))
      (List.filter no_load (m_nodes netlist)) in
  for_each check_node (m_nodes netlist) = (warnings, Returned tt)
  ∧ (PostPARDRC netlist device).1
    = (Stdout, drc_banner) :: warnings ++ (device_checks device).1
  ∧ (PostPARDRC netlist device).2 = (device_checks device).2.
Proof.
  intros Hall warnings. split; [by apply check_nodes_mated|].
  by rewrite PostPARDRC_mated.
Qed.

(** *** The loop over the IOBs *)

Lemma check_iob_ok it :
  analog_mismatch it.2 = false → check_iob it = ([], Returned tt).
Proof.
  unfold Par.check_iob, analog_mismatch, GetRealEntity. by intros ->.
Qed.

Lemma check_iobs_ok (iobs : list (Z * IOBState)) :
  Forall (λ it, analog_mismatch it.2 = false) iobs →
  for_each check_iob iobs = ([], Returned tt).
Proof.
  intros Hok. rewrite (for_each_returned _ (λ _, [])).
  - f_equal. induction iobs as [|it iobs IH]; simpl; [done|].
    apply IH. by eapply Forall_inv_tail.
  - intros it Hit. apply check_iob_ok. by eapply Forall_forall in Hok.
Qed.

Lemma device_checks_ok device :
  Forall (λ it, analog_mismatch it.2 = false) (m_iobs device) →
  device_checks device = Proc_bind oscillator_stage (mux_stage device).
Proof.
  intros Hok. unfold Par.device_checks. rewrite check_iobs_ok by done.
  proc_norm. by rewrite Proc_bind_returned; destruct (Proc_bind _ _).
Qed.

Lemma checks_before_oscillators_ok netlist device :
  Forall (λ n, is_Some (m_mate n)) (m_nodes netlist) →
  Forall (λ it, analog_mismatch it.2 = false) (m_iobs device) →
  checks_before_oscillators netlist device
  = prefixed ((Stdout, drc_banner)
                :: map warning_line (List.filter no_load (m_nodes netlist)))
             (mux_stage device).
Proof.
  intros Hall Hok. unfold Par.checks_before_oscillators.
  rewrite check_nodes_mated, check_iobs_ok by done.
  proc_norm. rewrite !Proc_bind_returned. simpl.
  unfold prefixed, mux_stage. simpl. done.
Qed.

(** [PostPARDRC] is the checks before the oscillators followed by the
    oscillator check. *)
Lemma PostPARDRC_stages netlist device :
  PostPARDRC netlist device
  = Proc_bind oscillator_stage (checks_before_oscillators netlist device).
Proof.
  unfold Par.PostPARDRC, Par.checks_before_oscillators, oscillator_stage.
  proc_norm. by rewrite !Proc_bind_assoc.
Qed.

(** *** The shared input mux of the comparators *)

Lemma acmp_inputs_users acmps :
  acmp_inputs acmps = map request (List.filter uses_shared_mux acmps).
Proof.
  induction acmps as [|a acmps IH]; simpl; [done|].
  destruct (uses_shared_mux a) eqn:Hu; simpl; rewrite <- IH; clear IH;
    unfold uses_shared_mux in Hu; unfold request, instance_name;
    rewrite !bool_decide_not;
    destruct (m_mate (GetPARNode a)) as [node|] eqn:E;
    destruct (bool_decide (GetInput a = pin6)), (bool_decide (GetInput a = vdd));
    simpl in *; done.
Qed.

Lemma user_input a acmps :
  a ∈ List.filter uses_shared_mux acmps → GetInput a = pin6 ∨ GetInput a = vdd.
Proof.
  rewrite list_elem_of_In, filter_In. intros [_ Hu]. unfold uses_shared_mux in Hu.
  apply andb_prop in Hu as [Hu _]. apply orb_prop in Hu as [Hu|Hu];
    apply bool_decide_eq_true in Hu; auto.
Qed.

Lemma user_input_not_gnd a acmps :
  a ∈ List.filter uses_shared_mux acmps → GetInput a ≠ gnd.
Proof. intros Ha. by destruct (user_input _ _ Ha) as [-> | ->]. Qed.

Lemma check_shared_input_set inputs todo shared :
  shared ≠ gnd →
  check_shared_input inputs todo shared
  = if forallb (λ s, bool_decide (shared = s.2)) todo
    then mret shared else conflict_exit inputs.
Proof.
  intros Hset. induction todo as [|s todo IH]; simpl; [done|].
  rewrite (bool_decide_false (shared = gnd)) by done.
  destruct (bool_decide (shared = s.2)); simpl; [done|].
  rewrite for_each_printf. proc_norm. rewrite !Proc_bind_returned. simpl.
  by rewrite app_nil_r.
Qed.

Lemma check_shared_input_unset inputs todo :
  Forall (λ s, s.2 ≠ gnd) todo →
  check_shared_input inputs todo gnd
  = match todo with
    | [] => mret gnd
    | s :: rest =>
        if forallb (λ p, bool_decide (s.2 = p.2)) rest
        then mret s.2 else conflict_exit inputs
    end.
Proof.
  destruct todo as [|s rest]; intros Hne; simpl; [done|].
  rewrite (bool_decide_true (s.2 = s.2)) by done.
  apply check_shared_input_set. by eapply Forall_inv in Hne.
Qed.

Lemma forallb_requests (u : ComparatorState) (rest : list ComparatorState) :
  forallb (λ p, bool_decide ((request u).2 = p.2)) (map request rest) = true
  ↔ ∀ b, b ∈ rest → GetInput u = GetInput b.
Proof.
  induction rest as [|c rest IH]; simpl.
  - split; [|done]. intros _ b Hb. by apply elem_of_nil in Hb.
  - rewrite andb_true_iff, IH, bool_decide_eq_true. split.
    + intros [Hc Hrest] b Hb. apply elem_of_cons in Hb as [->|Hb]; auto.
    + intros Hall. split; [apply Hall, list_elem_of_here|].
      intros b Hb. by apply Hall, list_elem_of_further.
Qed.

Lemma agree_cons u rest :
  agree (u :: rest) ↔ ∀ b, b ∈ rest → GetInput u = GetInput b.
Proof.
  split.
  - intros Hag b Hb. apply Hag; [apply list_elem_of_here|by apply list_elem_of_further].
  - intros Hall a b Ha Hb.
    apply elem_of_cons in Ha as [->|Ha]; apply elem_of_cons in Hb as [->|Hb];
      try done; [by apply Hall|symmetry; by apply Hall|].
    by rewrite <- (Hall a Ha), <- (Hall b Hb).
Qed.

Lemma agree_or_disagree users : agree users ∨ disagree users.
Proof.
  destruct users as [|u rest]; [left; intros a b Ha; by apply elem_of_nil in Ha|].
  destruct (forallb (λ p, bool_decide ((request u).2 = p.2)) (map request rest)) eqn:F.
  - left. apply agree_cons. by apply forallb_requests.
  - right. destruct (decide (Forall (λ b, GetInput u = GetInput b) rest)) as [Hall|Hex].
    + rewrite Forall_forall in Hall. apply forallb_requests in Hall. congruence.
    + apply not_Forall_Exists in Hex; [|intros b; apply _].
      apply Exists_exists in Hex as (b & Hb & Hne).
      exists u, b. split; [apply list_elem_of_here|].
      split; [by apply list_elem_of_further|done].
Qed.

Lemma agree_not_disagree users : agree users → ¬ disagree users.
Proof. intros Hag (a & b & Ha & Hb & Hne). by apply Hne, Hag. Qed.

(** The loop over [inputs], in terms of the comparators that use the mux. *)
Lemma check_shared_input_users acmps :
  let users := List.filter uses_shared_mux acmps in
  check_shared_input (acmp_inputs acmps) (acmp_inputs acmps) gnd
  = match users with
    | [] => mret gnd
    | u :: rest =>
        if forallb (λ p, bool_decide ((request u).2 = p.2)) (map request rest)
        then mret (GetInput u) else conflict_exit (map request users)
    end.
Proof.
  intros users. rewrite acmp_inputs_users. fold users.
  rewrite check_shared_input_unset.
  - by destruct users.
  - apply Forall_forall. intros p Hp. apply list_elem_of_fmap in Hp as (a & -> & Ha).
    by eapply user_input_not_gnd.
Qed.

Lemma check_acmp_mux_disagree device :
  disagree (List.filter uses_shared_mux (m_acmps device)) →
  check_acmp_mux device
  = conflict_exit (map request (List.filter uses_shared_mux (m_acmps device))).
Proof.
  intros Hdis. unfold Par.check_acmp_mux. rewrite check_shared_input_users.
  destruct (List.filter uses_shared_mux (m_acmps device)) as [|u rest] eqn:E.
  { destruct Hdis as (a & _ & Ha & _). by apply elem_of_nil in Ha. }
  destruct (forallb _ _) eqn:F; [|done].
  exfalso. eapply agree_not_disagree; [|exact Hdis].
  apply agree_cons. by apply forallb_requests.
Qed.

Lemma check_acmp_mux_agree device acmp0 :
  GetAcmp device 0 = Some acmp0 →
  agree (List.filter uses_shared_mux (m_acmps device)) →
  check_acmp_mux device
  = match List.filter uses_shared_mux (m_acmps device) with
    | [] => ([], Returned device)
    | u :: _ =>
        if bool_decide (GetInput acmp0 = gnd)
        then ([(Stdout, acmp0_info)],
              Returned (set_acmps device
                          (<[0%nat := owner_for (GetInput u) acmp0]> (m_acmps device))))
        else ([], Returned device)
    end.
Proof.
  intros H0 Hag. unfold Par.check_acmp_mux. rewrite check_shared_input_users.
  rewrite acmp_inputs_users, H0.
  destruct (List.filter uses_shared_mux (m_acmps device)) as [|u rest] eqn:E.
  - simpl. proc_run. by rewrite andb_false_r.
  - pose proof (proj2 (forallb_requests _ _) (proj1 (agree_cons _ _) Hag)) as F.
    rewrite F. simpl. proc_run. rewrite andb_true_r.
    destruct (bool_decide (GetInput acmp0 = gnd)); [|done]. by proc_run.
Qed.

Lemma check_acmp_mux_no_acmp0 device :
  GetAcmp device 0 = None →
  agree (List.filter uses_shared_mux (m_acmps device)) →
  check_acmp_mux device = ([], Undefined).
Proof.
  intros H0 Hag. unfold Par.check_acmp_mux. rewrite check_shared_input_users, H0.
  destruct (List.filter uses_shared_mux (m_acmps device)) as [|u rest] eqn:E.
  - simpl. by proc_run.
  - pose proof (proj2 (forallb_requests _ _) (proj1 (agree_cons _ _) Hag)) as F.
    rewrite F. simpl. by proc_run.
Qed.

(** When every node is placed and no IOB is rejected, the run reaches the
    part-specific check. *)
Lemma PostPARDRC_reaches_mux netlist device :
  Forall (λ n, is_Some (m_mate n)) (m_nodes netlist) →
  Forall (λ it, analog_mismatch it.2 = false) (m_iobs device) →
  PostPARDRC netlist device
  = prefixed ((Stdout, drc_banner)
                :: map warning_line (List.filter no_load (m_nodes netlist)))
             (Proc_bind oscillator_stage (mux_stage device)).
Proof.
  intros Hall Hok.
  by rewrite PostPARDRC_stages, checks_before_oscillators_ok, Proc_bind_prefixed.
Qed.

(** C2. On an SLG46620 whose netlist nodes are all placed and whose IOBs
    pass their check, let [users] be the used comparators whose input is pin
    6 or VDD.  If two of them request different sources, [PostPARDRC] prints
    the conflict error on stderr, then one line for each user with its
    instance name, right-justified in ten characters, and the name of the
    source it requests, and exits with status -1 (255 for the parent).  If they all request the same source, the comparator
    check returns without writing to stderr and the run goes on with the
    oscillator check. *)
Theorem acmp_mux_conflict (netlist : PARGraph NetlistNode) (device : Greenpak4Device) :
  GetPart device = GREENPAK4_SLG46620 →
  Forall (λ n, is_Some (m_mate n)) (m_nodes netlist) →
  Forall (λ it, analog_mismatch it.2 = false) (m_iobs device) →
  is_Some (GetAcmp device 0) →
  let users := List.filter uses_shared_mux (m_acmps device) in
  let before :=
    (Stdout, drc_banner) :: map warning_line (List.filter no_load (m_nodes netlist)) in
  (disagree users →
     PostPARDRC netlist device
     = (before
        ++ (Stderr, "    ERROR: Multiple comparators tried to simultaneously use "
                      +:+ "different outputs from the ACMP0 input mux" +:+ nl)
           :: map (λ a, (Stdout,
                         "        Comparator "
                           +:+ (spaces (10 - String.length (instance_name a))
                                  +:+ instance_name a)
                           +:+ " requested " +:+ GetOutputName (GetInput a) +:+ nl))
                users,
        Exited (-1))
     ∧ fatal (PostPARDRC netlist device).2)
  ∧ (agree users →
     ∃ out device',
       check_acmp_mux device = (out, Returned device')
       ∧ stderr_of out = []
       ∧ PostPARDRC netlist device
         = prefixed (before ++ out) (oscillator_stage device')).
Proof.
  intros Hpart Hall Hok [acmp0 H0] users before.
  pose proof (PostPARDRC_reaches_mux _ _ Hall Hok) as Hrun.
  unfold mux_stage in Hrun. rewrite Hpart in Hrun. fold before in Hrun. split.
  - intros Hdis. rewrite Hrun, check_acmp_mux_disagree by done.
    unfold conflict_exit, prefixed. rewrite Proc_bind_exited. simpl.
    rewrite map_map. split; [done|]. apply fatal_exit_minus_one.
  - intros Hag. rewrite Hrun, (check_acmp_mux_agree _ _ H0 Hag). fold users.
    destruct users as [|u rest];
      [|destruct (bool_decide (GetInput acmp0 = gnd))];
      eexists _, _; (split; [reflexivity|]); (split; [done|]);
      rewrite Proc_bind_returned; unfold prefixed; simpl;
      by rewrite <- ?app_assoc.
Qed.


(** *** The power-down sources of the oscillators *)

Lemma powerdowns_sharing device :
  powerdowns device
  = map powerdown_entry (List.filter powers_down (oscillators device)).
Proof.
  unfold powerdowns, powerdown_of, oscillators, powers_down. simpl.
  by destruct (IsUsed (GetLFOscillator device) && _ && _),
    (IsUsed (GetRingOscillator device) && _ && _),
    (IsUsed (GetRCOscillator device) && _ && _).
Qed.

Lemma sharing_not_constant osc (oscs : list OscillatorState) :
  osc ∈ List.filter powers_down oscs → IsPowerRail (GetPowerDown osc) = false.
Proof.
  rewrite list_elem_of_In, filter_In. intros [_ Hp]. unfold powers_down in Hp.
  apply andb_prop in Hp as [_ Hp]. by apply negb_true_iff in Hp.
Qed.

Lemma same_source_cons u rest :
  same_source (u :: rest) ↔ ∀ b, b ∈ rest → GetPowerDown u = GetPowerDown b.
Proof.
  split.
  - intros Hs b Hb. apply Hs; [apply list_elem_of_here|by apply list_elem_of_further].
  - intros Hall a b Ha Hb.
    apply elem_of_cons in Ha as [->|Ha]; apply elem_of_cons in Hb as [->|Hb];
      try done; [by apply Hall|symmetry; by apply Hall|].
    by rewrite <- (Hall a Ha), <- (Hall b Hb).
Qed.

Lemma forallb_sources (u : OscillatorState) (rest : list OscillatorState) :
  forallb (λ p, bool_decide (GetPowerDown u = p.2)) (map powerdown_entry rest) = true
  ↔ ∀ b, b ∈ rest → GetPowerDown u = GetPowerDown b.
Proof.
  induction rest as [|c rest IH]; simpl.
  - split; [|done]. intros _ b Hb. by apply elem_of_nil in Hb.
  - rewrite andb_true_iff, IH, bool_decide_eq_true. split.
    + intros [Hc Hrest] b Hb. apply elem_of_cons in Hb as [->|Hb]; auto.
    + intros Hall. split; [apply Hall, list_elem_of_here|].
      intros b Hb. by apply Hall, list_elem_of_further.
Qed.

Lemma same_or_distinct oscs : same_source oscs ∨ distinct_sources oscs.
Proof.
  destruct oscs as [|u rest]; [left; intros a b Ha; by apply elem_of_nil in Ha|].
  destruct (decide (Forall (λ b, GetPowerDown u = GetPowerDown b) rest)) as [Hall|Hex].
  - left. apply same_source_cons. by apply Forall_forall.
  - right. apply not_Forall_Exists in Hex; [|intros b; apply _].
    apply Exists_exists in Hex as (b & Hb & Hne).
    exists u, b. split; [apply list_elem_of_here|].
    split; [by apply list_elem_of_further|done].
Qed.

Lemma same_not_distinct oscs : same_source oscs → ¬ distinct_sources oscs.
Proof. intros Hs (a & b & Ha & Hb & Hne). by apply Hne, Hs. Qed.

(** Once [ok] is false it stays false. *)
Lemma same_powerdown_false todo src : same_powerdown todo src false = false.
Proof.
  revert src. induction todo as [|p todo IH]; intros src; simpl; [done|].
  destruct (bool_decide _); apply IH.
Qed.

(** Once [src] holds a source that is no power rail it is never replaced. *)
Lemma same_powerdown_set todo src :
  IsPowerRail src = false →
  same_powerdown todo src true = forallb (λ p, bool_decide (src = p.2)) todo.
Proof.
  intros Hsrc. induction todo as [|p todo IH]; simpl; [done|].
  rewrite Hsrc, bool_decide_not.
  destruct (bool_decide (src = p.2)); simpl; [done|].
  apply same_powerdown_false.
Qed.

Lemma same_powerdown_sharing (oscs : list OscillatorState) :
  let sharing := List.filter powers_down oscs in
  same_powerdown (map powerdown_entry sharing) GetGround true = true
  ↔ same_source sharing.
Proof.
  intros sharing.
  assert (∀ o, o ∈ sharing → IsPowerRail (GetPowerDown o) = false) as Hnc.
  { intros o. apply sharing_not_constant. }
  destruct sharing as [|u rest]; simpl.
  - split; [|done]. intros _ a b Ha. by apply elem_of_nil in Ha.
  - rewrite (bool_decide_false (GetPowerDown u ≠ GetPowerDown u)) by auto.
    rewrite same_powerdown_set by apply Hnc, list_elem_of_here.
    by rewrite forallb_sources, same_source_cons.
Qed.

Lemma check_oscillators_same device :
  same_source (List.filter powers_down (oscillators device)) →
  check_oscillators device = ([], Returned tt).
Proof.
  intros Hs. unfold Par.check_oscillators. rewrite powerdowns_sharing.
  destruct (bool_decide _); [|done].
  by rewrite (proj2 (same_powerdown_sharing _) Hs).
Qed.

Lemma check_oscillators_distinct device :
  distinct_sources (List.filter powers_down (oscillators device)) →
  check_oscillators device
  = powerdown_exit (List.filter powers_down (oscillators device)).
Proof.
  intros Hd. unfold Par.check_oscillators. rewrite powerdowns_sharing.
  rewrite bool_decide_true.
  - destruct (same_powerdown _ _ _) eqn:E.
    + apply same_powerdown_sharing in E. by apply same_not_distinct in E.
    + simpl. rewrite for_each_printf. proc_run.
      unfold powerdown_exit. by rewrite map_map, app_nil_r.
  - destruct Hd as (a & _ & Ha & _). intros E. apply map_eq_nil in E.
    rewrite E in Ha. by apply elem_of_nil in Ha.
Qed.

Lemma mux_stage_oscillators device out device' :
  mux_stage device = (out, Returned device') →
  oscillators device' = oscillators device.
Proof.
  unfold mux_stage. destruct (GetPart device); try by intros [= _ <-].
  destruct (agree_or_disagree (List.filter uses_shared_mux (m_acmps device)))
    as [Hag|Hdis]; [|by rewrite check_acmp_mux_disagree].
  destruct (GetAcmp device 0) as [acmp0|] eqn:H0;
    [|by rewrite check_acmp_mux_no_acmp0].
  rewrite (check_acmp_mux_agree _ _ H0 Hag).
  destruct (List.filter _ _); [by intros [= _ <-]|].
  by destruct (bool_decide _); intros [= _ <-].
Qed.

Lemma checks_before_oscillators_device netlist device out device' :
  checks_before_oscillators netlist device = (out, Returned device') →
  oscillators device' = oscillators device.
Proof.
  unfold Par.checks_before_oscillators. fold (mux_stage device). proc_norm.
  rewrite Proc_bind_returned.
  destruct (for_each check_node (m_nodes netlist)) as [o1 [[]| |]]; try done.
  rewrite Proc_bind_returned.
  destruct (for_each check_iob (m_iobs device)) as [o2 [[]| |]]; try done.
  rewrite Proc_bind_returned.
  destruct (mux_stage device) as [o3 r] eqn:E. simpl. intros [= _ ->].
  by eapply mux_stage_oscillators.
Qed.

(** C4. Whenever a run of [PostPARDRC] reaches the oscillator check, let
    [sharing] be the oscillators among LF, ring and RC that are used, have
    power-down enabled and a power-down source that is no constant.  The run
    ends in a fatal exit if and only if two oscillators of [sharing] have
    different power-down sources; it then has printed the error on stderr and
    one line for each oscillator of [sharing] with its description,
    right-justified in ten characters, and the name of its power-down signal;
    and
    when all the sources are the same the run returns and prints nothing
    more. *)
Theorem oscillator_powerdown_sharing (netlist : PARGraph NetlistNode)
    (device : Greenpak4Device) (out : list Line) (device' : Greenpak4Device) :
  checks_before_oscillators netlist device = (out, Returned device') →
  let sharing := List.filter powers_down (oscillators device) in
  let run := PostPARDRC netlist device in
  (distinct_sources sharing ↔ fatal run.2)
  ∧ (distinct_sources sharing →
       run = (out
              ++ (Stderr, "    ERROR: Multiple oscillators have power-down enabled, "
                            +:+ "but do not share the same power-down signal" +:+ nl)
                 :: map (λ o, (Stdout,
                               "    Oscillator "
                                 +:+ (spaces (10 - String.length (GetDescription o))
                                        +:+ GetDescription o)
                                 +:+ " powerdown is " +:+ GetOutputName (GetPowerDown o)
                                 +:+ nl))
                      sharing,
              Exited (-1)))
  ∧ (same_source sharing → run = (out, Returned device')).
Proof.
  intros Hbefore sharing run.
  pose proof (checks_before_oscillators_device _ _ _ _ Hbefore) as Hosc.
  assert (run = prefixed out (oscillator_stage device')) as Hrun.
  { unfold run. by rewrite PostPARDRC_stages, Hbefore, Proc_bind_returned. }
  assert (distinct_sources sharing →
          run = (out ++ (@Par.powerdown_exit GetOutputName unit sharing).1, Exited (-1))) as Hdistinct.
  { intros Hd. rewrite Hrun. unfold oscillator_stage. proc_norm.
    rewrite check_oscillators_distinct; rewrite Hosc; done. }
  assert (same_source sharing → run = (out, Returned device')) as Hsame.
  { intros Hs. rewrite Hrun. unfold oscillator_stage. proc_norm.
    rewrite check_oscillators_same by (by rewrite Hosc).
    rewrite Proc_bind_returned. unfold prefixed. simpl. by rewrite app_nil_r. }
  split; [split|split; [done|done]].
  - intros Hd. rewrite (Hdistinct Hd). apply fatal_exit_minus_one.
  - intros (c & Hc & _). destruct (same_or_distinct sharing) as [Hs|Hd]; [|done].
    by rewrite (Hsame Hs) in Hc.
Qed.

(** The vector [inputs] of lines 150-169 holds an entry for exactly the
    comparators whose input is pin 6 or VDD and whose PAR node has a mate:
    the name of the mate and the input. *)
Theorem acmp_inputs_membership (acmps : list ComparatorState) (p : spair) :
  p ∈ acmp_inputs acmps
  ↔ ∃ acmp node,
      acmp ∈ acmps
      ∧ (GetInput acmp = pin6 ∨ GetInput acmp = vdd)
      ∧ m_mate (GetPARNode acmp) = Some node
      ∧ p = (m_name node, GetInput acmp).
Proof.
  rewrite acmp_inputs_users, list_elem_of_fmap. split.
  - intros (acmp & -> & Hin). pose proof (user_input _ _ Hin) as Hsrc.
    apply list_elem_of_In, filter_In in Hin as [Hin Hu].
    unfold uses_shared_mux in Hu. apply andb_prop in Hu as [_ Hu].
    apply bool_decide_eq_true in Hu as [node Hnode].
    exists acmp, node. repeat split; try done; [by apply list_elem_of_In|].
    unfold request, instance_name. by rewrite Hnode.
  - intros (acmp & node & Hin & Hsrc & Hnode & ->). exists acmp. split.
    + unfold request, instance_name. by rewrite Hnode.
    + apply list_elem_of_In, filter_In. split; [by apply list_elem_of_In|].
      unfold uses_shared_mux. rewrite Hnode.
      rewrite (bool_decide_true (is_Some (Some node))) by eauto.
      rewrite andb_true_r.
      destruct Hsrc as [-> | ->]; [done|]. apply orb_true_r.
Qed.

(** The vector [powerdowns] of lines 217-223 holds an entry for exactly the
    oscillators among LF, ring and RC that are used, have power-down enabled
    and a power-down source that is no power rail: the description and the
    source. *)
Theorem powerdowns_membership (device : Greenpak4Device) (p : spair) :
  p ∈ powerdowns device
  ↔ ∃ osc,
      osc ∈ oscillators device
      ∧ IsUsed osc = true
      ∧ GetPowerDownEn osc = true
      ∧ IsPowerRail (GetPowerDown osc) = false
      ∧ p = (GetDescription osc, GetPowerDown osc).
Proof.
  rewrite powerdowns_sharing, list_elem_of_fmap. split.
  - intros (osc & -> & Hin). pose proof (sharing_not_constant _ _ Hin) as Hnc.
    apply list_elem_of_In, filter_In in Hin as [Hin Hp].
    unfold powers_down in Hp. apply andb_prop in Hp as [Hp _].
    apply andb_prop in Hp as [Hused Hen].
    exists osc. repeat split; try done. by apply list_elem_of_In.
  - intros (osc & Hin & Hused & Hen & Hnc & ->). exists osc. split; [done|].
    apply list_elem_of_In, filter_In. split; [by apply list_elem_of_In|].
    unfold powers_down, IsConstantPowerDown. by rewrite Hused, Hen, Hnc.
Qed.

(** *** Further properties of the checks *)

Lemma check_iob_rejected it :
  analog_mismatch it.2 = true →
  check_iob it
  = ([(Stderr, analog_ibuf_error GetOutputName it.1 (GetOutputSignal it.2))],
     Exited (-1)).
Proof.
  unfold Par.check_iob, analog_mismatch, GetRealEntity. intros ->. by proc_run.
Qed.

Lemma for_each_cons {A} (body : A → Proc unit) (x : A) (l : list A) :
  for_each body (x :: l) = Proc_bind (λ _, for_each body l) (body x).
Proof. reflexivity. Qed.

(** The loop over the IOBs stops at the first IOB that is driven by an
    analog source without being an analog input buffer. *)
Lemma check_iobs_rejected (pre rest : list (Z * IOBState)) (bad : Z * IOBState) :
  Forall (λ it, analog_mismatch it.2 = false) pre →
  analog_mismatch bad.2 = true →
  for_each check_iob (pre ++ bad :: rest)
  = ([(Stderr, analog_ibuf_error GetOutputName bad.1 (GetOutputSignal bad.2))],
     Exited (-1)).
Proof.
  intros Hpre Hbad. induction pre as [|it pre IH].
  - change ([] ++ bad :: rest) with (bad :: rest).
    rewrite for_each_cons, check_iob_rejected by done.
    apply Proc_bind_exited.
  - change ((it :: pre) ++ bad :: rest) with (it :: pre ++ bad :: rest).
    rewrite for_each_cons, check_iob_ok by apply (Forall_inv Hpre).
    rewrite Proc_bind_returned, IH by apply (Forall_inv_tail Hpre). done.
Qed.


(** What the part-specific check can return: the device it was given, or
    that device with ACMP0 configured for the source of a user of the mux. *)
Lemma mux_stage_returns device out device' :
  mux_stage device = (out, Returned device') →
  (device' = device ∧ out = [])
  ∨ ∃ acmp0 u,
      GetPart device = GREENPAK4_SLG46620
      ∧ GetAcmp device 0 = Some acmp0
      ∧ GetInput acmp0 = gnd
      ∧ agree (List.filter uses_shared_mux (m_acmps device))
      ∧ u ∈ List.filter uses_shared_mux (m_acmps device)
      ∧ out = [(Stdout, acmp0_info)]
      ∧ device' = set_acmps device
                    (<[0%nat := owner_for (GetInput u) acmp0]> (m_acmps device)).
Proof.
  unfold Par.mux_stage. destruct (GetPart device) eqn:Hpart;
    try by (intros [= <- <-]; left).
  destruct (agree_or_disagree (List.filter uses_shared_mux (m_acmps device)))
    as [Hag|Hdis]; [|by rewrite check_acmp_mux_disagree].
  destruct (GetAcmp device 0) as [acmp0|] eqn:H0;
    [|by rewrite check_acmp_mux_no_acmp0].
  rewrite (check_acmp_mux_agree _ _ H0 Hag).
  destruct (List.filter _ _) as [|u rest] eqn:E; [by intros [= <- <-]; left|].
  destruct (bool_decide _) eqn:Hgnd; intros [= <- <-]; [|by left].
  right. exists acmp0, u. apply bool_decide_eq_true in Hgnd.
  repeat split; try done. apply list_elem_of_here.
Qed.

(** A run of [PostPARDRC] that returns has gone through every check. *)
Lemma PostPARDRC_returns netlist device out device' :
  PostPARDRC netlist device = (out, Returned device') →
  ∃ o1 o2 o3,
    for_each check_node (m_nodes netlist) = (o1, Returned tt)
    ∧ for_each check_iob (m_iobs device) = (o2, Returned tt)
    ∧ mux_stage device = (o3, Returned device')
    ∧ check_oscillators device' = ([], Returned tt)
    ∧ out = (Stdout, drc_banner) :: o1 ++ o2 ++ o3.
Proof.
  unfold Par.PostPARDRC. fold (mux_stage device). proc_norm.
  rewrite Proc_bind_returned.
  destruct (for_each check_node (m_nodes netlist)) as [o1 [[]| |]]; try done.
  rewrite Proc_bind_returned.
  destruct (for_each check_iob (m_iobs device)) as [o2 [[]| |]]; try done.
  rewrite Proc_bind_returned.
  destruct (mux_stage device) as [o3 [d| |]] eqn:E; try done.
  rewrite Proc_bind_returned.
  destruct (same_or_distinct (List.filter powers_down (oscillators d))) as [Hs|Hd].
  - rewrite (check_oscillators_same _ Hs). proc_run. intros [= <- <-].
    exists o1, o2, o3. repeat split; try done;
      [by apply check_oscillators_same|by rewrite !app_nil_r].
  - by rewrite (check_oscillators_distinct _ Hd).
Qed.

(** Whenever [PostPARDRC] returns, the device is the one it was given except,
    at most, for ACMP0: the part, the IOBs, the oscillators and every other
    comparator are untouched; ACMP0 keeps its PAR node and is either
    untouched or was at ground and is now powered from RST_DONE with pin 6
    or VDD as input; and on a part other than the SLG46620 nothing changes
    at all. *)
Theorem PostPARDRC_frame (netlist : PARGraph NetlistNode)
    (device : Greenpak4Device) (out : list Line) (device' : Greenpak4Device) :
  PostPARDRC netlist device = (out, Returned device') →
  GetPart device' = GetPart device
  ∧ m_iobs device' = m_iobs device
  ∧ oscillators device' = oscillators device
  ∧ length (m_acmps device') = length (m_acmps device)
  ∧ (∀ i, i ≠ 0%nat → GetAcmp device' i = GetAcmp device i)
  ∧ (∀ acmp0, GetAcmp device 0 = Some acmp0 →
       ∃ acmp0', GetAcmp device' 0 = Some acmp0'
         ∧ GetPARNode acmp0' = GetPARNode acmp0
         ∧ (acmp0' = acmp0
            ∨ (GetInput acmp0 = gnd
               ∧ GetPowerEn acmp0' = PowerOnReset_GetOutput "RST_DONE"
               ∧ (GetInput acmp0' = pin6 ∨ GetInput acmp0' = vdd))))
  ∧ (GetPart device ≠ GREENPAK4_SLG46620 → device' = device).
Proof.
  intros Hrun. apply PostPARDRC_returns in Hrun as (o1 & o2 & o3 & _ & _ & Hmux & _).
  apply mux_stage_returns in Hmux
    as [[-> _]|(acmp0 & u & Hpart & H0 & Hgnd & _ & Hu & _ & ->)].
  { repeat split; try done. intros acmp0 H0. exists acmp0. auto. }
  repeat split; try done.
  - simpl. by rewrite length_insert.
  - intros i Hi. unfold GetAcmp. simpl. by apply list_lookup_insert_ne.
  - intros acmp H0'. rewrite H0 in H0'. injection H0' as <-.
    exists (owner_for (GetInput u) acmp0). split; [|split; [done|]].
    + unfold GetAcmp. simpl. apply list_lookup_insert_eq. by eapply lookup_lt_Some.
    + right. repeat split; try done. simpl. by eapply user_input.
Qed.

Lemma mux_stage_idempotent device out device' :
  mux_stage device = (out, Returned device') →
  mux_stage device' = ([], Returned device').
Proof.
  intros Hmux. pose proof Hmux as Hcases. apply mux_stage_returns in Hcases
    as [[-> ->]|(acmp0 & u & Hpart & H0 & Hgnd & Hag & Hu & _ & ->)]; [done|].
  unfold Par.mux_stage. simpl. rewrite Hpart.
  unfold GetAcmp in H0.
  destruct (m_acmps device) as [|a tail] eqn:Hacmps; [done|]. injection H0 as ->.
  assert (uses_shared_mux acmp0 = false) as Hnot.
  { unfold uses_shared_mux. rewrite Hgnd. done. }
  simpl in Hag, Hu. rewrite Hnot in Hag, Hu.
  set (acmp0' := owner_for (GetInput u) acmp0).
  set (device' := set_acmps device (<[0%nat:=acmp0']> (acmp0 :: tail))).
  assert (GetInput acmp0' ≠ gnd) as Hset.
  { change (GetInput u ≠ gnd). by eapply user_input_not_gnd. }
  assert (agree (List.filter uses_shared_mux (m_acmps device'))) as Hag'.
  { simpl. destruct (uses_shared_mux acmp0'); [|done].
    apply agree_cons. intros b Hb. simpl. by apply Hag. }
  rewrite (check_acmp_mux_agree device' acmp0' eq_refl Hag').
  destruct (List.filter uses_shared_mux (m_acmps device')); [done|].
  by rewrite (bool_decide_false _ Hset).
Qed.

(** After a run of [PostPARDRC] that returned, a second run on the device it
    left returns that same device, and prints what the first run printed
    except for the INFO line of the comparator check. *)
Theorem PostPARDRC_idempotent (netlist : PARGraph NetlistNode)
    (device : Greenpak4Device) (out : list Line) (device' : Greenpak4Device) :
  PostPARDRC netlist device = (out, Returned device') →
  ∃ out',
    PostPARDRC netlist device' = (out', Returned device')
    ∧ (out = out' ∨ out = out' ++ [(Stdout, acmp0_info)]).
Proof.
  intros Hrun.
  apply PostPARDRC_returns in Hrun as (o1 & o2 & o3 & Hnodes & Hio & Hmux & Hosc & ->).
  pose proof (mux_stage_idempotent _ _ _ Hmux) as Hmux'.
  assert (m_iobs device' = m_iobs device) as Hiobs.
  { pose proof Hmux as Hcases. by apply mux_stage_returns in Hcases
      as [[-> _]|(? & ? & _ & _ & _ & _ & _ & _ & ->)]. }
  exists ((Stdout, drc_banner) :: o1 ++ o2).
  assert (PostPARDRC netlist device' = ((Stdout, drc_banner) :: o1 ++ o2, Returned device'))
    as Hrun'.
  { unfold Par.PostPARDRC. fold (mux_stage device'). rewrite Hnodes, Hiobs, Hio.
    proc_norm. rewrite !Proc_bind_returned. simpl. rewrite Hmux'.
    rewrite Proc_bind_returned, Hosc. simpl. by rewrite !app_nil_r. }
  split; [done|].
  apply mux_stage_returns in Hmux as [[_ ->]|(_ & _ & _ & _ & _ & _ & _ & -> & _)].
  - left. by rewrite app_nil_r.
  - right. simpl. by rewrite <- app_assoc.
Qed.

End DRCProperties.

(** ** AllocateLabel *)

Section LabelProperties.

Import Par.

Context {N D : Type}.

(** While the two counters agree a call returns, and they agree afterwards. *)
Lemma AllocateLabel_keeps_lockstep (ngraph : PARGraph N) (dgraph : PARGraph D)
    (lmap : labelmap) (description : string) :
  m_nextLabel ngraph = m_nextLabel dgraph →
  ∃ ngraph' dgraph' lmap',
    AllocateLabel ngraph dgraph lmap description
    = ([], Returned (m_nextLabel ngraph, ngraph', dgraph', lmap'))
    ∧ m_nextLabel ngraph' = m_nextLabel dgraph'.
Proof.
  intros Heq. unfold AllocateLabel, PARGraph_AllocateLabel.
  rewrite bool_decide_false by auto.
  eexists _, _, _. split; [reflexivity|]. simpl. by rewrite Heq.
Qed.


End LabelProperties.

(** ** DoPAR *)

Section DoPARProperties.

Import Par.

Variable GetOutputPorts : Greenpak4BitstreamEntity → list string.
Variable GetOutputName : Greenpak4EntityOutput → string.
Variable Greenpak4Netlist : Type.
Variable BuildGraphs :
  Greenpak4Netlist → Greenpak4Device →
  Proc (PARGraph NetlistNode * PARGraph DeviceNode * labelmap).
Variable PlaceAndRoute :
  PARGraph NetlistNode → PARGraph DeviceNode → labelmap →
  Proc (bool * PARGraph NetlistNode * PARGraph DeviceNode).
Variable CommitChanges :
  PARGraph DeviceNode → Greenpak4Device → Proc (Greenpak4Device * (Z * Z)).
Variable PrintPlacementReport : PARGraph NetlistNode → Greenpak4Device → list string.
Variable PrintUtilizationReport :
  PARGraph NetlistNode → Greenpak4Device → Z * Z → list string.

Local Abbreviation PostPARDRC := (Par.PostPARDRC GetOutputPorts GetOutputName).
Local Abbreviation DoPAR :=
  (Par.DoPAR GetOutputPorts GetOutputName Greenpak4Netlist BuildGraphs PlaceAndRoute
     CommitChanges PrintPlacementReport PrintUtilizationReport).



End DoPARProperties.

(** ** gp4prog: the bitstream that is downloaded *)

Section DownloadProperties.

Import Gp4prog.

Lemma uint8_range z : 0 ≤ uint8 z < 256.
Proof.
  unfold uint8. change 255 with (Z.ones 8). rewrite Z.land_ones by lia.
  apply Z.mod_pos_bound. lia.
Qed.

Lemma byte_bit_index b k : 0 ≤ b < 256 → Z.testbit b k = true → 0 ≤ k < 8.
Proof.
  intros Hb Hk. split.
  - destruct (Z.neg_nonneg_cases k) as [Hneg|]; [|done].
    by rewrite Z.testbit_neg_r in Hk.
  - destruct (Z.lt_ge_cases k 8) as [|Hge]; [done|].
    destruct (Z.eq_dec b 0) as [->|Hnz]; [by rewrite Z.bits_0 in Hk|].
    rewrite Z.bits_above_log2 in Hk; [done|lia|].
    apply Z.lt_le_trans with 8; [|done]. apply Z.log2_lt_pow2; lia.
Qed.

Lemma or_byte_bit x b k :
  0 ≤ k < 8 → Z.testbit (or_byte x b) k = Z.testbit b k || Z.testbit x k.
Proof.
  intros Hk. unfold or_byte, uint8. change 255 with (Z.ones 8).
  rewrite Z.land_spec, Z.lor_spec, Z.ones_spec_low by lia.
  by rewrite andb_true_r.
Qed.

(** A bit that is set stays set. *)
Lemma or_byte_keeps x b k :
  0 ≤ b < 256 → Z.testbit b k = true → Z.testbit (or_byte x b) k = true.
Proof.
  intros Hb Hk. rewrite or_byte_bit by (by eapply byte_bit_index).
  by rewrite Hk.
Qed.

Lemma or_assign_alter i x (v : list Z) :
  (i < length v)%nat → or_assign i x v = Some (alter (or_byte x) i v).
Proof.
  intros Hi. unfold or_assign. destruct (lookup_lt_is_Some_2 v i Hi) as [b Hb].
  rewrite Hb. simpl. f_equal. apply list_eq. intros j.
  rewrite list_lookup_alter. destruct (decide (i = j)) as [<-|Hne].
  - rewrite list_lookup_insert_eq by done. by rewrite Hb.
  - by rewrite list_lookup_insert_ne.
Qed.

(** A subscript past the end is undefined behaviour. *)
Lemma or_assign_out_of_bounds i x (v : list Z) :
  (length v ≤ i)%nat → or_assign i x v = None.
Proof. intros Hi. unfold or_assign. by rewrite lookup_ge_None_2. Qed.

Lemma set_fields_bytes (o : Options) (v : list Z) :
  (254 < length v)%nat →
  ∃ v', set_fields o v = Some v'
        ∧ length v' = length v
        ∧ ∀ i, v' !! i = set_field o i <$> v !! i.
Proof.
  intros Hlen. unfold set_fields.
  rewrite or_assign_alter by lia. simpl.
  rewrite or_assign_alter by (rewrite length_alter; lia). simpl.
  destruct (patternIdSpecified o) eqn:Hspec; simpl.
  - rewrite or_assign_alter by (rewrite !length_alter; lia). simpl.
    rewrite or_assign_alter by (rewrite !length_alter; lia). simpl.
    rewrite or_assign_alter by (rewrite !length_alter; lia).
    eexists. split; [reflexivity|]. split; [by rewrite !length_alter|].
    intros i. unfold set_field. rewrite Hspec. rewrite !list_lookup_alter.
    repeat case_decide; subst; try done; by destruct (v !! _).
  - rewrite or_assign_alter by (rewrite !length_alter; lia).
    eexists. split; [reflexivity|]. split; [by rewrite !length_alter|].
    intros i. unfold set_field. rewrite Hspec. rewrite !list_lookup_alter.
    repeat case_decide; subst; try done; by destruct (v !! _).
Qed.

Lemma set_field_keeps o i b k :
  0 ≤ b < 256 → Z.testbit b k = true → Z.testbit (set_field o i b) k = true.
Proof.
  intros Hb Hk. unfold set_field.
  repeat case_decide; try done; repeat case_match; try done;
    repeat (apply or_byte_keeps; [apply uint8_range || done|]); done.
Qed.

(** For a part whose bitstream ends before byte 246 the subscripts of lines
    349-368 are past the end of the vector: a file of the right length is
    accepted by the length check and the run is undefined. *)
Lemma download_short_part_out_of_bounds (BitstreamLength : Z) (o : Options)
    (file : list Z) :
  file ≠ [] →
  Z.of_nat (length file) = BitstreamLength / 8 →
  (length file ≤ 246)%nat →
  prepare_download BitstreamLength o file = OutOfBounds.
Proof.
  intros Hne Hpart Hshort. unfold prepare_download.
  rewrite bool_decide_false by done. rewrite bool_decide_false by auto.
  unfold set_fields. by rewrite or_assign_out_of_bounds.
Qed.

(** C8. For a bitstream file of the length of the part, long enough to
    hold byte 254, [main] hands [DownloadBitstream] an image of the same
    length in which every byte other than 246, 247, 253 and 254 is the byte
    of the file; no bit that is set in the file is cleared in the image; and
    the bits of bytes 253 and 254 are the bits of the file OR-ed with the
    pattern id (bit 7 of byte 253 and bits 0-6 of byte 254, when one was
    given) and with the read protection flag (bit 7 of byte 254). *)
Theorem download_keeps_bits (BitstreamLength : Z) (o : Options) (file : list Z) :
  Forall (λ b, 0 ≤ b < 256) file →
  (254 < length file)%nat →
  Z.of_nat (length file) = BitstreamLength / 8 →
  ∃ image,
    prepare_download BitstreamLength o file
    = CallDownloadBitstream (if programNvram o then PROGRAMMING else EMULATION) image
    ∧ length image = length file
    ∧ (∀ i, i ≠ 246%nat → i ≠ 247%nat → i ≠ 253%nat → i ≠ 254%nat →
         image !! i = file !! i)
    ∧ (∀ i b, file !! i = Some b →
         ∃ b', image !! i = Some b'
               ∧ ∀ k, Z.testbit b k = true → Z.testbit b' k = true)
    ∧ (∀ b k, file !! 253%nat = Some b → 0 ≤ k < 8 →
         ∃ b', image !! 253%nat = Some b'
               ∧ Z.testbit b' k
                 = Z.testbit b k
                   || (patternIdSpecified o && Z.testbit (Z.shiftl (patternId o) 7) k))
    ∧ (∀ b k, file !! 254%nat = Some b → 0 ≤ k < 8 →
         ∃ b', image !! 254%nat = Some b'
               ∧ Z.testbit b' k
                 = Z.testbit b k
                   || (patternIdSpecified o && Z.testbit (Z.shiftr (patternId o) 1) k)
                   || Z.testbit (Z.shiftl (Z.b2z (readProtect o)) 7) k).
Proof.
  intros Hbytes Hlen Hpart.
  destruct (set_fields_bytes o file Hlen) as (image & Hset & Hlength & Hlookup).
  exists image. split; [|split; [done|split; [|split; [|split]]]].
  - unfold prepare_download. rewrite bool_decide_false.
    + rewrite bool_decide_false by auto. by rewrite Hset.
    + intros ->. simpl in Hlen. lia.
  - intros i H246 H247 H253 H254. rewrite Hlookup. unfold set_field.
    repeat case_decide; try done; by destruct (file !! i).
  - intros i b Hb. rewrite Hlookup, Hb. eexists. split; [done|].
    intros k Hk. apply set_field_keeps; [|done].
    rewrite Forall_forall in Hbytes. apply Hbytes. by eapply list_elem_of_lookup_2.
  - intros b k Hb Hk. rewrite Hlookup, Hb. eexists. split; [done|].
    unfold set_field. simpl.
    destruct (patternIdSpecified o); simpl; [by apply or_byte_bit|].
    by rewrite orb_false_r.
  - intros b k Hb Hk. rewrite Hlookup, Hb. eexists. split; [done|].
    unfold set_field. simpl. rewrite or_byte_bit by done.
    destruct (patternIdSpecified o); simpl; [by rewrite or_byte_bit|].
    by rewrite orb_false_r.
Qed.

(** *** The bits the download step changes *)

Lemma bit_index_bound n b k :
  0 ≤ n → 0 ≤ b < 2 ^ n → Z.testbit b k = true → 0 ≤ k < n.
Proof.
  intros Hn Hb Hk. split.
  - destruct (Z.neg_nonneg_cases k) as [Hneg|]; [|done].
    by rewrite Z.testbit_neg_r in Hk.
  - destruct (Z.lt_ge_cases k n) as [|Hge]; [done|].
    destruct (Z.eq_dec b 0) as [->|Hnz]; [by rewrite Z.bits_0 in Hk|].
    rewrite Z.bits_above_log2 in Hk; [done|lia|].
    apply Z.lt_le_trans with n; [|done]. apply Z.log2_lt_pow2; lia.
Qed.

Lemma testbit_land_1 b k :
  0 ≤ k → Z.land (Z.shiftr b k) 1 = Z.b2z (Z.testbit b k).
Proof.
  intros Hk. change 1 with (Z.ones 1). rewrite Z.land_ones by lia.
  change (2 ^ 1) with 2. rewrite Zmod_odd, Z.testbit_odd.
  by destruct (Z.odd _).
Qed.

Lemma bit_at_testbit (v : list Z) (i : nat) :
  bit_at v i = (λ b, Z.testbit b (Z.of_nat (i mod 8))) <$> v !! (i / 8)%nat.
Proof.
  unfold bit_at. destruct (v !! _) as [b|]; [|done]. simpl.
  rewrite testbit_land_1 by lia. by destruct (Z.testbit _ _).
Qed.

Lemma or_byte_changes x b k :
  0 ≤ k < 8 → Z.testbit (or_byte x b) k ≠ Z.testbit b k →
  Z.testbit x k = true.
Proof.
  intros Hk. rewrite or_byte_bit by done.
  by destruct (Z.testbit b k), (Z.testbit x k).
Qed.

Lemma shiftl_7_bit x k :
  0 ≤ k < 8 → Z.testbit (Z.shiftl x 7) k = true →
  k = 7 ∧ Z.testbit x 0 = true.
Proof.
  intros Hk. rewrite Z.shiftl_spec by lia. intros Hbit.
  destruct (Z.eq_dec k 7) as [->|]; [done|].
  rewrite Z.testbit_neg_r in Hbit by lia. done.
Qed.

Lemma shiftr_1_bit x k :
  0 ≤ k → Z.testbit (Z.shiftr x 1) k = Z.testbit x (k + 1).
Proof. intros Hk. by rewrite Z.shiftr_spec. Qed.

Lemma or_assign_Some i x (v v' : list Z) :
  or_assign i x v = Some v' → (i < length v)%nat ∧ length v' = length v.
Proof.
  unfold or_assign. intros Hv.
  destruct (v !! i) as [b|] eqn:Hb; [|done]. simpl in Hv.
  injection Hv as <-. split; [by eapply lookup_lt_Some|].
  by rewrite length_insert.
Qed.

(** The subscripts of lines 349-368 are inside the vector only when it
    holds byte 254. *)
Lemma set_fields_Some (o : Options) (v v' : list Z) :
  set_fields o v = Some v' → (254 < length v)%nat.
Proof.
  unfold set_fields. intros Hv.
  destruct (or_assign 246 _ v) as [v1|] eqn:H1; [|done]. simpl in Hv.
  destruct (or_assign 247 _ v1) as [v2|] eqn:H2; [|done]. simpl in Hv.
  apply or_assign_Some in H1 as [_ H1]. apply or_assign_Some in H2 as [_ H2].
  destruct (patternIdSpecified o); simpl in Hv.
  - destruct (or_assign 253 _ v2) as [v3|] eqn:H3; [|done]. simpl in Hv.
    destruct (or_assign 254 _ v3) as [v4|] eqn:H4; [|done]. simpl in Hv.
    apply or_assign_Some in H3 as [_ H3]. apply or_assign_Some in H4 as [_ H4].
    apply or_assign_Some in Hv as [Hv _]. lia.
  - apply or_assign_Some in Hv as [Hv _]. lia.
Qed.

Lemma SLG46620V_fields (bitno : Z) :
  (1975 ≤ bitno ≤ 1981 →
     BitFunction SLG46620V bitno = Some "RC oscillator trimming value")
  ∧ (bitno = 1982 → BitFunction SLG46620V bitno = Some "unknown--reserved")
  ∧ (2031 ≤ bitno ≤ 2038 → BitFunction SLG46620V bitno = Some "pattern ID")
  ∧ (bitno = 2039 → BitFunction SLG46620V bitno = Some "read protection").
Proof.
  unfold BitFunction, SLG46620V_bitFunction, between.
  repeat split; intros Hbit;
    repeat match goal with
           | |- context [?a <=? ?b] => destruct (Z.leb_spec a b); try lia
           | |- context [?a =? ?b] => destruct (Z.eqb_spec a b); try lia
           end; done.
Qed.

(** Every bit in which the image handed to [DownloadBitstream] differs from
    the file is a bit of one of the three fields, set because the
    corresponding bit of the trim value, of the pattern id or the read
    protection flag is set; [BitFunction] names it after its field, except
    for bit 1982, which bit 7 of the trim value reaches and which
    [BitFunction] reports as reserved. *)
Theorem download_changes_field_bits (o : Options) (file image : list Z) (i : nat) :
  Forall (λ b, 0 ≤ b < 256) file →
  0 ≤ rcFtw o < 256 →
  0 ≤ patternId o < 256 →
  set_fields o file = Some image →
  bit_at image i ≠ bit_at file i →
  ∃ bitFunction,
    BitFunction SLG46620V (Z.of_nat i) = Some bitFunction
    ∧ ((bitFunction = "RC oscillator trimming value"
        ∧ (1975 ≤ i ≤ 1981)%nat
        ∧ Z.testbit (rcFtw o) (Z.of_nat i - 1975) = true)
       ∨ (bitFunction = "unknown--reserved"
          ∧ i = 1982%nat ∧ 128 ≤ rcFtw o)
       ∨ (bitFunction = "pattern ID"
          ∧ (2031 ≤ i ≤ 2038)%nat
          ∧ patternIdSpecified o = true
          ∧ Z.testbit (patternId o) (Z.of_nat i - 2031) = true)
       ∨ (bitFunction = "read protection"
          ∧ i = 2039%nat ∧ readProtect o = true)).
Proof.
  intros Hbytes Hftw Hid Hset Hdiff.
  pose proof (set_fields_Some _ _ _ Hset) as Hlen.
  destruct (set_fields_bytes o file Hlen) as (image' & Hset' & _ & Hlookup).
  rewrite Hset in Hset'. injection Hset' as <-.
  rewrite !bit_at_testbit, Hlookup in Hdiff.
  pose proof (Nat.div_mod_eq i 8) as Hi.
  pose proof (Nat.mod_upper_bound i 8 ltac:(done)) as Hk.
  revert Hdiff Hi Hk. generalize (i / 8)%nat (i mod 8)%nat. intros j k Hdiff Hi Hk.
  destruct (file !! j) as [b|] eqn:Hb; [|done]. simpl in Hdiff.
  assert (0 ≤ b < 256) as Hbyte.
  { rewrite Forall_forall in Hbytes. apply Hbytes.
    by eapply list_elem_of_lookup_2. }
  assert (Z.testbit (set_field o j b) (Z.of_nat k) ≠ Z.testbit b (Z.of_nat k))
    as Hbit by congruence.
  clear Hdiff. destruct (SLG46620V_fields (Z.of_nat i)) as (Htrim & Hres & Hpat & Hprot).
  unfold set_field in Hbit. repeat case_decide.
  - apply or_byte_changes in Hbit; [|lia].
    apply shiftl_7_bit in Hbit as [Hseven Hzero]; [|lia].
    eexists. split; [apply Htrim; lia|]. left.
    split; [done|]. split; [lia|].
    by replace (Z.of_nat i - 1975) with 0 by lia.
  - apply or_byte_changes in Hbit; [|lia].
    rewrite shiftr_1_bit in Hbit by lia.
    pose proof (bit_index_bound 8 _ _ ltac:(lia) Hftw Hbit) as Hindex.
    destruct (decide (k = 6)%nat) as [Hsix|Hlow].
    + eexists. split; [apply Hres; lia|]. right. left.
      split; [done|]. split; [lia|].
      destruct (Z.lt_ge_cases (rcFtw o) 128) as [Hsmall|]; [|done].
      pose proof (bit_index_bound 7 _ _ ltac:(lia) (conj (proj1 Hftw) Hsmall) Hbit).
      lia.
    + eexists. split; [apply Htrim; lia|]. left.
      split; [done|]. split; [lia|].
      by replace (Z.of_nat i - 1975) with (Z.of_nat k + 1) by lia.
  - destruct (patternIdSpecified o) eqn:Hspec; [|done].
    apply or_byte_changes in Hbit; [|lia].
    apply shiftl_7_bit in Hbit as [Hseven Hzero]; [|lia].
    eexists. split; [apply Hpat; lia|]. right. right. left.
    split; [done|]. split; [lia|]. split; [done|].
    by replace (Z.of_nat i - 2031) with 0 by lia.
  - rewrite or_byte_bit in Hbit by lia.
    destruct (Z.testbit (Z.shiftl (Z.b2z (readProtect o)) 7) (Z.of_nat k))
      eqn:Hprotect.
    + apply shiftl_7_bit in Hprotect as [Hseven Hzero]; [|lia].
      eexists. split; [apply Hprot; lia|]. right. right. right.
      split; [done|]. split; [lia|]. by destruct (readProtect o).
    + rewrite orb_false_r in Hbit.
      destruct (patternIdSpecified o) eqn:Hspec; [|done].
      apply or_byte_changes in Hbit; [|lia].
      rewrite shiftr_1_bit in Hbit by lia.
      pose proof (bit_index_bound 8 _ _ ltac:(lia) Hid Hbit) as Hindex.
      eexists. split; [apply Hpat; lia|]. right. right. left.
      split; [done|]. split; [lia|]. split; [done|].
      by replace (Z.of_nat i - 2031) with (Z.of_nat k + 1) by lia.
  - done.
Qed.

(** *** The pattern id that is logged *)

Lemma byte_high_bit b k : 0 ≤ b < 256 → 8 ≤ k → Z.testbit b k = false.
Proof.
  intros Hb Hk. destruct (Z.testbit b k) eqn:Hbit; [|done].
  pose proof (bit_index_bound 8 b k ltac:(lia) Hb Hbit). lia.
Qed.

Lemma land_255_bit z k :
  0 ≤ k → Z.testbit (Z.land z 255) k = Z.testbit z k && bool_decide (k < 8).
Proof.
  intros Hk. change 255 with (Z.ones 8). rewrite Z.land_spec.
  case_bool_decide.
  - by rewrite Z.ones_spec_low by lia.
  - by rewrite Z.ones_spec_high by lia.
Qed.

(** The id read from the bytes 253 and 254 after a pattern id [p] is OR-ed
    into them is the id read before, OR-ed with [p]. *)
Lemma patternID_or hi lo p :
  0 ≤ hi < 256 → 0 ≤ lo < 256 → 0 ≤ p < 256 →
  Z.lor (Z.land (Z.shiftl (or_byte (Z.shiftr p 1) hi) 1) 255)
        (Z.land (Z.shiftr (or_byte (Z.shiftl p 7) lo) 7) 255)
  = Z.lor (Z.lor (Z.land (Z.shiftl hi 1) 255) (Z.land (Z.shiftr lo 7) 255)) p.
Proof.
  intros Hhi Hlo Hp. apply Z.bits_inj'. intros n Hn.
  rewrite !Z.lor_spec, !land_255_bit by done.
  case_bool_decide as Hlow.
  - rewrite !andb_true_r, !Z.shiftl_spec, !Z.shiftr_spec by done.
    destruct (Z.eq_dec n 0) as [->|Hpos].
    + rewrite !Z.testbit_neg_r by lia. rewrite !orb_false_l.
      rewrite or_byte_bit, Z.shiftl_spec by lia. done.
    + rewrite or_byte_bit, shiftr_1_bit by lia.
      replace (n - 1 + 1) with n by lia.
      rewrite (byte_high_bit (or_byte _ lo)); [|apply uint8_range|lia].
      rewrite (byte_high_bit lo) by (done || lia).
      by rewrite !orb_false_r.
  - rewrite !andb_false_r. simpl. symmetry. apply byte_high_bit; [done|lia].
Qed.

(** The id printed as ["Bitstream ID code"] is the id stored in the file
    OR-ed with the id given on the command line; the trim value has no part
    in it. *)
Theorem logged_patternID_or (o : Options) (file : list Z) :
  Forall (λ b, 0 ≤ b < 256) file →
  (254 < length file)%nat →
  0 ≤ patternId o < 256 →
  ∃ stored,
    read_patternID file = Some stored
    ∧ logged_patternID o file
      = Some (Z.lor stored (if patternIdSpecified o then patternId o else 0)).
Proof.
  intros Hbytes Hlen Hid.
  destruct (lookup_lt_is_Some_2 file 254 ltac:(lia)) as [hi Hhi].
  destruct (lookup_lt_is_Some_2 file 253 ltac:(lia)) as [lo Hlo].
  assert (0 ≤ hi < 256 ∧ 0 ≤ lo < 256) as [Hhi_byte Hlo_byte].
  { rewrite Forall_forall in Hbytes.
    split; apply Hbytes; by eapply list_elem_of_lookup_2. }
  eexists. split; [unfold read_patternID; by rewrite Hhi, Hlo|].
  unfold logged_patternID.
  rewrite or_assign_alter by lia. simpl.
  rewrite or_assign_alter by (rewrite length_alter; lia). simpl.
  destruct (patternIdSpecified o); simpl.
  - rewrite or_assign_alter by (rewrite !length_alter; lia). simpl.
    rewrite or_assign_alter by (rewrite !length_alter; lia). simpl.
    unfold read_patternID. rewrite !list_lookup_alter.
    repeat case_decide; try done. rewrite Hhi, Hlo. simpl.
    f_equal. by apply patternID_or.
  - unfold read_patternID. rewrite !list_lookup_alter.
    repeat case_decide; try done. rewrite Hhi, Hlo. simpl.
    by rewrite Z.lor_0_r.
Qed.

(** *** Verification *)

Lemma bit_at_is_Some (v : list Z) (i : nat) :
  (i < length v * 8)%nat → is_Some (bit_at v i).
Proof.
  intros Hi. rewrite bit_at_testbit.
  destruct (lookup_lt_is_Some_2 v (i / 8)) as [b Hb].
  { apply Nat.Div0.div_lt_upper_bound. lia. }
  rewrite Hb. by eexists.
Qed.

Lemma bit_at_byte (v : list Z) (j k : nat) :
  (k < 8)%nat →
  bit_at v (8 * j + k) = (λ b, Z.testbit b (Z.of_nat k)) <$> v !! j.
Proof.
  intros Hk. rewrite bit_at_testbit.
  replace ((8 * j + k) / 8)%nat with j
    by (apply (Nat.div_unique _ 8 j k); [done|lia]).
  replace ((8 * j + k) mod 8)%nat with k
    by (apply (Nat.mod_unique _ 8 j k); [done|lia]).
  done.
Qed.

(** Two vectors of bytes with the same bits are the same. *)
Lemma same_bits_same_bytes (v w : list Z) :
  Forall (λ b, 0 ≤ b < 256) v → Forall (λ b, 0 ≤ b < 256) w →
  length v = length w →
  (∀ i, (i < length v * 8)%nat → bit_at v i = bit_at w i) →
  v = w.
Proof.
  intros Hv Hw Hlen Hbits. apply list_eq. intros j.
  destruct (decide (j < length v)%nat) as [Hj|Hj].
  - destruct (lookup_lt_is_Some_2 v j Hj) as [a Ha].
    destruct (lookup_lt_is_Some_2 w j ltac:(lia)) as [b Hb].
    rewrite Ha, Hb. f_equal.
    assert (0 ≤ a < 256 ∧ 0 ≤ b < 256) as [Ha_byte Hb_byte].
    { rewrite Forall_forall in Hv, Hw.
      split; [apply Hv|apply Hw]; by eapply list_elem_of_lookup_2. }
    apply Z.bits_inj'. intros n Hn.
    destruct (Z.lt_ge_cases n 8) as [Hlow|Hhigh].
    + pose proof (Hbits (8 * j + Z.to_nat n)%nat ltac:(lia)) as Hbit.
      rewrite !bit_at_byte, Ha, Hb in Hbit by lia. simpl in Hbit.
      rewrite Z2Nat.id in Hbit by done. congruence.
    + by rewrite !byte_high_bit.
  - by rewrite !lookup_ge_None_2 by lia.
Qed.

Lemma compare_bits_SLG46620V (newBitstream bitstreamToVerify : list Z)
    (todo : list nat) (failed : bool) (log : list Difference) :
  Forall (λ i, is_Some (bit_at newBitstream i)
               ∧ is_Some (bit_at bitstreamToVerify i)) todo →
  ∃ differences,
    compare_bits SLG46620V newBitstream bitstreamToVerify todo failed log
    = Verified (failed || bool_decide (differences ≠ [])) (log ++ differences)
    ∧ diff_bit <$> differences
      = filter (λ i, bit_at newBitstream i ≠ bit_at bitstreamToVerify i) todo
    ∧ Forall (λ d,
        bit_at newBitstream (diff_bit d) = Some (diff_expected d)
        ∧ bit_at bitstreamToVerify (diff_bit d) = Some (diff_actual d)
        ∧ BitFunction SLG46620V (Z.of_nat (diff_bit d)) = Some (diff_meaning d))
        differences.
Proof.
  intros Htodo. revert failed log.
  induction Htodo as [|i todo [[e He] [a Ha]] _ IH]; intros failed log.
  - exists []. simpl. by rewrite orb_false_r, app_nil_r.
  - simpl. rewrite He, Ha. rewrite filter_cons.
    destruct (eqb e a) eqn:Heq; simpl.
    + apply eqb_prop in Heq as ->.
      destruct (IH failed log) as (differences & Hrun & Hbits & Hall).
      exists differences. rewrite decide_False by (intros Hne; apply Hne; congruence).
      done.
    + apply eqb_false_iff in Heq.
      destruct (IH true (log ++ [mkDifference i e a
                 match SLG46620V_bitFunction (Z.of_nat i) with
                 | Some bitFunction => bitFunction
                 | None => "unknown--reserved"
                 end])) as (differences & Hrun & Hbits & Hall).
      eexists (_ :: differences). rewrite decide_True by congruence.
      split; [|split].
      * rewrite Hrun, <- app_assoc. simpl. by rewrite orb_true_r.
      * rewrite fmap_cons. by rewrite Hbits.
      * by constructor.
Qed.

(** When the part is an SLG46620V and both vectors hold the bytes of the
    part, the verification runs to its end; it passes exactly when the
    vector read back is the vector that was programmed; and the lines of the
    log name, in ascending order, exactly the bits in which the two differ,
    each with the two values and the name [BitFunction] gives it. *)
Theorem verify_reports_differences (newBitstream bitstreamToVerify : list Z)
    (bitstreamLength : nat) :
  Forall (λ b, 0 ≤ b < 256) newBitstream →
  Forall (λ b, 0 ≤ b < 256) bitstreamToVerify →
  length newBitstream = bitstreamLength →
  length bitstreamToVerify = bitstreamLength →
  ∃ failed differences,
    verify SLG46620V newBitstream bitstreamToVerify bitstreamLength
    = Verified failed differences
    ∧ (failed = false ↔ newBitstream = bitstreamToVerify)
    ∧ diff_bit <$> differences
      = filter (λ i, bit_at newBitstream i ≠ bit_at bitstreamToVerify i)
          (seq 0 (bitstreamLength * 8))
    ∧ Forall (λ d,
        bit_at newBitstream (diff_bit d) = Some (diff_expected d)
        ∧ bit_at bitstreamToVerify (diff_bit d) = Some (diff_actual d)
        ∧ BitFunction SLG46620V (Z.of_nat (diff_bit d)) = Some (diff_meaning d))
        differences.
Proof.
  intros Hnew Hactual Hlen_new Hlen_actual.
  destruct (compare_bits_SLG46620V newBitstream bitstreamToVerify
              (seq 0 (bitstreamLength * 8)) false [])
    as (differences & Hrun & Hbits & Hall).
  { apply Forall_forall. intros i Hi. apply elem_of_seq in Hi.
    split; apply bit_at_is_Some; lia. }
  exists (bool_decide (differences ≠ [])), differences.
  split; [done|]. split; [|done].
  split.
  - intros Hpassed. apply bool_decide_eq_false in Hpassed.
    assert (differences = []) as -> by (by destruct differences; [|destruct Hpassed]).
    apply same_bits_same_bytes; [done|done|lia|].
    intros i Hi. destruct (decide (bit_at newBitstream i = bit_at bitstreamToVerify i))
      as [|Hdiff]; [done|].
    assert (i ∈ filter (λ i, bit_at newBitstream i ≠ bit_at bitstreamToVerify i)
                  (seq 0 (bitstreamLength * 8))) as Hin.
    { apply list_elem_of_filter. split; [done|]. apply elem_of_seq. lia. }
    rewrite <- Hbits in Hin. by apply elem_of_nil in Hin.
  - intros <-. apply bool_decide_eq_false. intros Hsome. apply Hsome.
    apply fmap_nil_inv with (f := diff_bit). rewrite Hbits.
    clear. induction (seq 0 (bitstreamLength * 8)) as [|i l IH]; [done|].
    rewrite filter_cons. by rewrite decide_False by (by intros Hne; apply Hne).
Qed.

(** A part [BitFunction] does not know stops the verification at the first
    bit that differs. *)
Lemma compare_bits_unknown_part (part : SilegoPart)
    (newBitstream bitstreamToVerify : list Z) (todo : list nat)
    (failed : bool) (log : list Difference) :
  part ≠ SLG46620V →
  Forall (λ i, is_Some (bit_at newBitstream i)
               ∧ is_Some (bit_at bitstreamToVerify i)) todo →
  compare_bits part newBitstream bitstreamToVerify todo failed log
  = if bool_decide (Forall (λ i, bit_at newBitstream i = bit_at bitstreamToVerify i) todo)
    then Verified failed log else UnknownPart.
Proof.
  intros Hpart Htodo.
  induction Htodo as [|i todo [[e He] [a Ha]] _ IH].
  - by rewrite bool_decide_true by constructor.
  - cbn [compare_bits]. rewrite He, Ha. destruct (eqb e a) eqn:Heq; cbn [negb].
    + apply eqb_prop in Heq as ->. rewrite IH.
      case_bool_decide as Hrest; case_bool_decide as Hall; try done.
      * exfalso. apply Hall. constructor; [congruence|done].
      * exfalso. by apply Forall_cons in Hall as [_ Hall].
    + apply eqb_false_iff in Heq.
      rewrite bool_decide_false.
      * by destruct part.
      * intros Hall. apply Forall_cons in Hall as [Hsame _]. congruence.
Qed.

(** For a part other than the SLG46620V a bit that differs is never
    reported as a failed verification: [BitFunction] ends the run with
    ["Unknown part"] at the first one. *)
Theorem verify_unknown_part (part : SilegoPart)
    (newBitstream bitstreamToVerify : list Z) (bitstreamLength : nat) :
  part ≠ SLG46620V →
  Forall (λ b, 0 ≤ b < 256) newBitstream →
  Forall (λ b, 0 ≤ b < 256) bitstreamToVerify →
  length newBitstream = bitstreamLength →
  length bitstreamToVerify = bitstreamLength →
  verify part newBitstream bitstreamToVerify bitstreamLength
  = if bool_decide (newBitstream = bitstreamToVerify)
    then Verified false [] else UnknownPart.
Proof.
  intros Hpart Hnew Hactual Hlen_new Hlen_actual. unfold verify.
  rewrite compare_bits_unknown_part; [|done|].
  - case_bool_decide as Hbits; case_bool_decide as Hsame; try done.
    + exfalso. apply Hsame. apply same_bits_same_bytes; [done|done|lia|].
      intros i Hi. rewrite Forall_forall in Hbits. apply Hbits.
      apply elem_of_seq. lia.
    + exfalso. apply Hbits. subst bitstreamToVerify. by apply Forall_forall.
  - apply Forall_forall. intros i Hi. apply elem_of_seq in Hi.
    split; apply bit_at_is_Some; lia.
Qed.

(** *** The file [WriteBitstream] writes *)

(** After the header the file has eight lines for every byte of the
    bitstream, in order, with the bits of the byte from the least
    significant one up; no subscript leaves the vector.  A line starts with
    its index converted to [int], which is the index itself for a bitstream
    of less than 2^28 bytes, then the bit, each followed by two tabs, and
    ends with an empty comment. *)
Theorem WriteBitstream_lines (bitstream : list Z) :
  ∃ lines,
    WriteBitstream true bitstream
    = Some (("index" +:+ tab +:+ tab +:+ "value" +:+ tab +:+ tab +:+ "comment" +:+ nl)
              :: lines)
    ∧ length lines = (length bitstream * 8)%nat
    ∧ ∀ j k b, bitstream !! j = Some b → (k < 8)%nat →
        ∃ index,
          lines !! (8 * j + k)%nat
          = Some (pretty index +:+ tab +:+ tab
                    +:+ pretty (Z.b2z (Z.testbit b (Z.of_nat k))) +:+ tab +:+ tab
                    +:+ "//" +:+ nl)
          ∧ index = (Z.of_nat (8 * j + k) + 2 ^ 31) mod 2 ^ 32 - 2 ^ 31
          ∧ (Z.of_nat (length bitstream) < 2 ^ 28 → index = Z.of_nat (8 * j + k)).
Proof.
  unfold WriteBitstream, bitstream_values.
  destruct (mapM (bit_value bitstream) (seq 0 (length bitstream * 8)))
    as [values|] eqn:Hvalues.
  - eexists. split; [reflexivity|].
    pose proof (length_mapM _ _ _ Hvalues) as Hlength.
    rewrite length_seq in Hlength. split; [by rewrite length_imap|].
    intros j k b Hb Hk. rewrite list_lookup_imap.
    apply mapM_Some_1 in Hvalues.
    pose proof (lookup_lt_Some _ _ _ Hb) as Hj.
    destruct (Forall2_lookup_l _ _ _ (8 * j + k)%nat (8 * j + k)%nat Hvalues)
      as (value & Hvalue & Hbit).
    { apply lookup_seq. lia. }
    exists (int_of_size_t (8 * j + k)). split; [|split].
    2: { reflexivity. }
    2: { intros Hshort. unfold int_of_size_t.
         rewrite Z.mod_small; lia. }
    rewrite Hvalue. cbn [fmap option_fmap option_map]. unfold bitstream_line.
    do 6 f_equal.
    unfold bit_value in Hbit.
    replace ((8 * j + k) / 8)%nat with j in Hbit
      by (apply (Nat.div_unique _ 8 j k); [done|lia]).
    replace ((8 * j + k) mod 8)%nat with k in Hbit
      by (apply (Nat.mod_unique _ 8 j k); [done|lia]).
    rewrite Hb in Hbit. simpl in Hbit. injection Hbit as <-.
    apply testbit_land_1. lia.
  - exfalso. apply mapM_None_1, Exists_exists in Hvalues as (i & Hi & Hnone).
    apply elem_of_seq in Hi. unfold bit_value in Hnone.
    destruct (lookup_lt_is_Some_2 bitstream (i / 8)) as [b Hb].
    { apply Nat.Div0.div_lt_upper_bound. lia. }
    by rewrite Hb in Hnone.
Qed.

End DownloadProperties.

(** ** gp4prog: when the download step leaves its vectors *)

Section DownloadBounds.

Import Gp4prog.

Lemma set_fields_length (o : Options) (v v' : list Z) :
  set_fields o v = Some v' → length v' = length v.
Proof.
  intros Hset. pose proof (set_fields_Some _ _ _ Hset) as Hlen.
  destruct (set_fields_bytes o v Hlen) as (v'' & Hset' & Hlength & _).
  congruence.
Qed.

Lemma set_fields_None (o : Options) (v : list Z) :
  set_fields o v = None → (length v ≤ 254)%nat.
Proof.
  intros Hset. destruct (decide (254 < length v)%nat) as [Hlen|]; [|lia].
  destruct (set_fields_bytes o v Hlen) as (v' & Hset' & _). congruence.
Qed.

Lemma logged_patternID_None (o : Options) (v : list Z) :
  logged_patternID o v = None → (length v ≤ 254)%nat.
Proof.
  intros Hlogged. destruct (decide (254 < length v)%nat) as [Hlen|]; [|lia].
  exfalso. revert Hlogged. unfold logged_patternID.
  rewrite or_assign_alter by lia. simpl.
  rewrite or_assign_alter by (rewrite length_alter; lia). simpl.
  destruct (lookup_lt_is_Some_2 v 254 ltac:(lia)) as [hi Hhi].
  destruct (lookup_lt_is_Some_2 v 253 ltac:(lia)) as [lo Hlo].
  destruct (patternIdSpecified o); simpl.
  - rewrite or_assign_alter by (rewrite !length_alter; lia). simpl.
    rewrite or_assign_alter by (rewrite !length_alter; lia). simpl.
    unfold read_patternID. rewrite !list_lookup_alter.
    repeat case_decide; try done. by rewrite Hhi, Hlo.
  - unfold read_patternID. rewrite !list_lookup_alter.
    repeat case_decide; try done. by rewrite Hhi, Hlo.
Qed.

(** The verification leaves a vector only if one of the two is shorter than
    the part. *)
Lemma verify_out_of_bounds (part : SilegoPart)
    (newBitstream bitstreamToVerify : list Z) (bitstreamLength : nat) :
  verify part newBitstream bitstreamToVerify bitstreamLength = BitOutOfBounds →
  (length newBitstream < bitstreamLength)%nat
  ∨ (length bitstreamToVerify < bitstreamLength)%nat.
Proof.
  intros Hverify.
  destruct (decide (bitstreamLength ≤ length newBitstream)%nat) as [Hnew|]; [|lia].
  destruct (decide (bitstreamLength ≤ length bitstreamToVerify)%nat) as [Hactual|]; [|lia].
  exfalso. revert Hverify. unfold verify.
  assert (Forall (λ i, is_Some (bit_at newBitstream i)
                       ∧ is_Some (bit_at bitstreamToVerify i))
            (seq 0 (bitstreamLength * 8))) as Hbits.
  { apply Forall_forall. intros i Hi. apply elem_of_seq in Hi.
    split; apply bit_at_is_Some; lia. }
  destruct part as [| |n].
  - rewrite compare_bits_unknown_part by done. by case_bool_decide.
  - destruct (compare_bits_SLG46620V _ _ _ false [] Hbits) as (differences & -> & _).
    done.
  - rewrite compare_bits_unknown_part by done. by case_bool_decide.
Qed.

Lemma verify_SLG46620V (newBitstream bitstreamToVerify : list Z)
    (bitstreamLength : nat) :
  (bitstreamLength ≤ length newBitstream)%nat →
  (bitstreamLength ≤ length bitstreamToVerify)%nat →
  ∃ failed differences,
    verify SLG46620V newBitstream bitstreamToVerify bitstreamLength
    = Verified failed differences.
Proof.
  intros Hnew Hactual. unfold verify.
  destruct (compare_bits_SLG46620V newBitstream bitstreamToVerify
              (seq 0 (bitstreamLength * 8)) false []) as (differences & -> & _);
    [|by eexists _, _].
  apply Forall_forall. intros i Hi. apply elem_of_seq in Hi.
  split; apply bit_at_is_Some; lia.
Qed.

End DownloadBounds.

(** ** gp4prog: the argument loop *)

Section ParseProperties.

Import Gp4progMain MainSpec.

Variable Severity : Type.
Variable NOTICE : Severity.
Variable ParseLoggerArguments : list string → Severity → option (nat * Severity).
Variable strtol : string → Z * nat.
Variable strtod : string → float * nat.
Variable format_3g : float → string.

Local Abbreviation parse_nets := (Gp4progMain.parse_nets strtol).
Local Abbreviation parse_argument :=
  (Gp4progMain.parse_argument Severity ParseLoggerArguments strtol strtod format_3g).
Local Abbreviation parse_arguments :=
  (Gp4progMain.parse_arguments Severity ParseLoggerArguments strtol strtod format_3g).
Local Abbreviation parse :=
  (Gp4progMain.parse Severity NOTICE ParseLoggerArguments strtol strtod format_3g).
Local Abbreviation CommandLine := (Gp4progMain.CommandLine Severity).
Local Abbreviation accepted := (MainSpec.accepted Severity).

Lemma advance_length n arg : (String.length (advance n arg) ≤ String.length arg)%nat.
Proof.
  revert arg. induction n as [|n IH]; intros [|c arg]; simpl; try lia.
  specialize (IH arg). lia.
Qed.

(** The loop of [--nets] ends: every iteration but the last moves [arg]
    forward by at least the comma. *)
Lemma parse_nets_ends fuel arg nets :
  (String.length arg < fuel)%nat → is_Some (parse_nets fuel arg nets).
Proof.
  revert arg nets. induction fuel as [|fuel IH]; intros arg nets Hfuel; [lia|].
  simpl. destruct (strtol arg) as [net converted].
  pose proof (advance_length converted arg) as Hshorter.
  destruct (advance converted arg) as [|c rest]; simpl in *.
  - destruct (invalid_net net); by eexists.
  - destruct (negb (Ascii.eqb c ",")); [by eexists|].
    destruct (invalid_net net); [by eexists|].
    apply IH. lia.
Qed.

(** The nets the loop of [--nets] adds are test points: 1 to 20 without 11. *)
Lemma parse_nets_valid fuel arg nets nets' :
  parse_nets fuel arg nets = Some (Ok nets') →
  Forall (λ net, 1 ≤ net ≤ 20 ∧ net ≠ 11) nets →
  Forall (λ net, 1 ≤ net ≤ 20 ∧ net ≠ 11) nets'.
Proof.
  revert arg nets. induction fuel as [|fuel IH]; intros arg nets Hrun Hnets; [done|].
  simpl in Hrun. destruct (strtol arg) as [net converted].
  assert (invalid_net net = false → Forall (λ net, 1 ≤ net ≤ 20 ∧ net ≠ 11) (nets ++ [net]))
    as Hadd.
  { intros Hvalid. apply Forall_app. split; [done|]. constructor; [|done].
    unfold invalid_net in Hvalid. lia. }
  destruct (advance converted arg) as [|c rest].
  - destruct (invalid_net net); [done|]. injection Hrun as <-. by apply Hadd.
  - destruct (negb (Ascii.eqb c ",")); [done|].
    destruct (invalid_net net); [done|].
    eapply IH; [exact Hrun|]. by apply Hadd.
Qed.

Lemma parse_nets_stops fuel arg nets text code :
  parse_nets fuel arg nets = Some (Stop text code) → code = 1.
Proof.
  revert arg nets. induction fuel as [|fuel IH]; intros arg nets Hrun; [done|].
  simpl in Hrun. destruct (strtol arg) as [net converted].
  destruct (advance converted arg) as [|c rest].
  - destruct (invalid_net net); [by injection Hrun|done].
  - destruct (negb (Ascii.eqb c ",")); [by injection Hrun|].
    destruct (invalid_net net); [by injection Hrun|].
    by eapply IH.
Qed.

Lemma parse_argument_accepted s rest c :
  accepted c →
  ∃ r, parse_argument s rest c = Some r
       ∧ match r with
         | Ok (taken, c') => accepted c'
         | Stop text code => stops text code
         end.
Proof.
  intros (Hnets & Hfreq & Hid & Hvoltage). unfold Gp4progMain.parse_argument.
  assert (∀ text, ∃ r : Parse (nat * CommandLine),
            Some (Stop text 1) = Some r
            ∧ match r with
              | Ok (taken, c') => accepted c'
              | Stop text code => stops text code
              end) as Herror.
  { intros text. eexists. split; [reflexivity|]. by right. }
  assert (∀ taken c', accepted c' →
            ∃ r : Parse (nat * CommandLine),
              Some (Ok (taken, c')) = Some r
              ∧ match r with
                | Ok (taken, c') => accepted c'
                | Stop text code => stops text code
                end) as Hok.
  { intros taken c' Hc'. eexists. split; [reflexivity|]. done. }
  destruct (ParseLoggerArguments _ _) as [[taken verbosity]|];
    [by apply Hok|].
  case_bool_decide; [eexists; split; [reflexivity|]; left; auto|].
  case_bool_decide; [eexists; split; [reflexivity|]; left; auto|].
  case_bool_decide; [by apply Hok|].
  case_bool_decide; [destruct rest; [apply Herror|by apply Hok]|].
  case_bool_decide; [by apply Hok|].
  case_bool_decide.
  { destruct rest as [|value rest]; [apply Herror|].
    destruct (bool_decide (value = "25k"));
      [apply Hok; split; [|split; [|split]]; simpl; auto|].
    destruct (bool_decide (value = "2M"));
      [apply Hok; split; [|split; [|split]]; simpl; auto|].
    apply Herror. }
  case_bool_decide.
  { destruct (negb _); [apply Herror|]. destruct rest; [apply Herror|by apply Hok]. }
  case_bool_decide.
  { destruct (negb _); [apply Herror|]. destruct rest; [apply Herror|by apply Hok]. }
  case_bool_decide; [by apply Hok|].
  case_bool_decide.
  { destruct rest as [|arg rest]; [apply Herror|].
    destruct (strtol arg) as [id converted].
    destruct (_ && _ && _) eqn:Hvalid; [|apply Herror].
    apply Hok. split; [|split; [|split]]; simpl; auto. lia. }
  case_bool_decide; [by apply Hok|].
  case_bool_decide.
  { destruct rest as [|arg rest]; [apply Herror|].
    destruct (strtod arg) as [value converted].
    destruct (negb (bool_decide _)); [apply Herror|].
    destruct (valid_voltage value) eqn:Hvalid; [|apply Herror].
    apply Hok. split; [|split; [|split]]; simpl; auto. }
  case_bool_decide.
  { destruct rest as [|arg rest]; [apply Herror|].
    destruct (parse_nets_ends (S (String.length arg)) arg (nets _ c)) as [r Hr]; [lia|].
    rewrite Hr. destruct r as [nets'|text code].
    - apply Hok. split; [|split; [|split]]; simpl; auto.
      by eapply parse_nets_valid.
    - eexists. split; [reflexivity|]. right. by eapply parse_nets_stops. }
  destruct (_ && _); [by apply Hok|apply Herror].
Qed.

Lemma parse_arguments_accepted args skip c :
  accepted c →
  ∃ r, parse_arguments args skip c = Some r
       ∧ match r with
         | Ok c' => accepted c'
         | Stop text code => stops text code
         end.
Proof.
  revert skip c. induction args as [|s rest IH]; intros skip c Hc.
  - by eexists.
  - simpl. destruct skip as [|skip]; [|by apply IH].
    destruct (parse_argument_accepted s rest c Hc) as (r & -> & Hr).
    destruct r as [[taken c']|text code]; [by apply IH|by eexists].
Qed.

Lemma initial_accepted : accepted (initial Severity NOTICE).
Proof. split; [|split; [|split]]; simpl; auto. lia. Qed.

(** The loop over the arguments always ends.  When it returns from [main],
    the code is 0 after the usage or the version text and 1 after any other
    message.  When it goes on, every net is one of the test points 1 to 20
    other than 11, the trim frequency is 0, 25000 or 2000000, the pattern
    id is in 0..255 and the voltage passes the range check. *)
Theorem parse_accepts (args : list string) :
  ∃ r, parse args = Some r
       ∧ match r with
         | Ok c =>
             Forall (λ net, 1 ≤ net ≤ 20 ∧ net ≠ 11) (nets _ c)
             ∧ (rcOscFreq _ c = 0 ∨ rcOscFreq _ c = 25000 ∨ rcOscFreq _ c = 2000000)
             ∧ 0 ≤ patternId _ c ≤ 255
             ∧ valid_voltage (voltage _ c) = true
         | Stop text code =>
             (code = 0 ∧ (text = usage ∨ text = version)) ∨ code = 1
         end.
Proof. apply parse_arguments_accepted, initial_accepted. Qed.

(** *** The bitstream named first is the one downloaded *)

Lemma parse_argument_download s rest c taken c' :
  parse_argument s rest c = Some (Ok (taken, c')) →
  (downloadFilename _ c ≠ EmptyString →
     downloadFilename _ c' = downloadFilename _ c
     ∧ programNvram _ c' = programNvram _ c)
  ∧ (programNvram _ c' = true → programNvram _ c = true ∨ s = "--program")
  ∧ (force _ c' = true → force _ c = true ∨ s = "--force").
Proof.
  unfold Gp4progMain.parse_argument.
  assert (∀ taken1 c1,
            downloadFilename _ c1 = downloadFilename _ c →
            programNvram _ c1 = programNvram _ c →
            force _ c1 = force _ c →
            Some (Ok (taken1, c1)) = Some (Ok (taken, c')) →
            (downloadFilename _ c ≠ EmptyString →
               downloadFilename _ c' = downloadFilename _ c
               ∧ programNvram _ c' = programNvram _ c)
            ∧ (programNvram _ c' = true → programNvram _ c = true ∨ s = "--program")
            ∧ (force _ c' = true → force _ c = true ∨ s = "--force")) as Hsame.
  { intros taken1 c1 Hfile Hnvram Hforce [= <- <-].
    rewrite Hfile, Hnvram, Hforce. auto. }
  destruct (ParseLoggerArguments _ _) as [[taken' verbosity]|];
    [by apply Hsame|].
  case_bool_decide; [done|].
  case_bool_decide; [done|].
  case_bool_decide; [by apply Hsame|].
  case_bool_decide; [destruct rest; [done|by apply Hsame]|].
  case_bool_decide; [by apply Hsame|].
  case_bool_decide.
  { destruct rest as [|value rest]; [done|].
    destruct (bool_decide (value = "25k")); [by apply Hsame|].
    destruct (bool_decide (value = "2M")); [by apply Hsame|done]. }
  case_bool_decide.
  { case_bool_decide as Hfile; [|done]. destruct rest; [done|].
    intros [= <- <-]. simpl. split; [by intros ?|auto]. }
  case_bool_decide.
  { case_bool_decide as Hfile; [|done]. destruct rest; [done|].
    intros [= <- <-]. simpl. split; [by intros ?|auto]. }
  case_bool_decide as Hforce.
  { intros [= <- <-]. simpl. auto. }
  case_bool_decide.
  { destruct rest as [|arg rest]; [done|].
    destruct (strtol arg) as [id converted].
    destruct (_ && _ && _); [by apply Hsame|done]. }
  case_bool_decide; [by apply Hsame|].
  case_bool_decide.
  { destruct rest as [|arg rest]; [done|].
    destruct (strtod arg) as [value converted].
    destruct (negb (bool_decide _)); [done|].
    destruct (negb (valid_voltage value)); [done|by apply Hsame]. }
  case_bool_decide.
  { destruct rest as [|arg rest]; [done|].
    destruct (Gp4progMain.parse_nets _ _ _ _) as [[nets'|]|]; [by apply Hsame|done|done]. }
  case_bool_decide as Hfile.
  - destruct (match s with EmptyString => true | String _ _ => _ end); [|done].
    intros [= <- <-]. simpl. split; [by intros ?|auto].
  - rewrite andb_false_r. done.
Qed.

Lemma parse_arguments_download (args : list string) (skip : nat) (c c' : CommandLine) :
  parse_arguments args skip c = Some (Ok c') →
  downloadFilename _ c ≠ EmptyString →
  downloadFilename _ c' = downloadFilename _ c
  ∧ programNvram _ c' = programNvram _ c.
Proof.
  revert skip c. induction args as [|s rest IH]; intros skip c Hrun Hnamed.
  - by injection Hrun as <-.
  - simpl in Hrun. destruct skip as [|skip]; [|by eapply IH].
    destruct (parse_argument s rest c) as [[[taken c1]|]|] eqn:Hstep; [|done|done].
    destruct (parse_argument_download _ _ _ _ _ Hstep) as ([Hfile Hnvram] & _);
      [done|].
    destruct (IH _ _ Hrun) as [Hfile' Hnvram']; [congruence|].
    split; congruence.
Qed.

(** With a bitstream file named, an argument that the logger leaves alone
    and that is [-e], [--emulate] or [--program] ends [main]. *)
Lemma parse_argument_second_option s rest c :
  downloadFilename _ c ≠ EmptyString →
  ParseLoggerArguments (s :: rest) (console_verbosity _ c) = None →
  s = "-e" ∨ s = "--emulate" ∨ s = "--program" →
  parse_argument s rest c
  = Some (Stop ("only one --emulate or --program option can be specified" +:+ nl) 1).
Proof.
  intros Hnamed Hlogger Hs. unfold Gp4progMain.parse_argument. rewrite Hlogger.
  rewrite (bool_decide_false (downloadFilename _ c = EmptyString)) by done.
  by destruct Hs as [-> | [-> | ->]].
Qed.

(** With a bitstream file named, an argument that the logger leaves alone
    and that does not start with a dash ends [main]. *)
Lemma parse_argument_second_file s rest c :
  downloadFilename _ c ≠ EmptyString →
  ParseLoggerArguments (s :: rest) (console_verbosity _ c) = None →
  match s with String a _ => a ≠ "-"%char | EmptyString => True end →
  parse_argument s rest c
  = Some (Stop ("Unrecognized command-line argument " +:+ (dq +:+ s +:+ dq)
                  +:+ ", use --help" +:+ nl) 1).
Proof.
  intros Hnamed Hlogger Hplain. unfold Gp4progMain.parse_argument. rewrite Hlogger.
  rewrite (bool_decide_false (downloadFilename _ c = EmptyString)) by done.
  rewrite andb_false_r.
  repeat (rewrite bool_decide_false;
          [|clear -Hplain; intros Hs; repeat destruct Hs as [Hs|Hs];
            subst s; by simpl in Hplain]).
  done.
Qed.

(** Once a bitstream file is named, by [--emulate], [--program] or as a
    plain argument, the rest of the loop leaves the file name and the
    choice between SRAM and NVM as they are, and any later attempt to name
    another one ends [main] with 1: when the loop comes to an argument that
    the logger leaves alone, [-e], [--emulate] and [--program] print that
    only one such option can be specified, and an argument that does not
    start with a dash is printed as unrecognized. *)
Theorem parse_keeps_download (c : CommandLine) :
  downloadFilename _ c ≠ EmptyString →
  (∀ args skip c',
     parse_arguments args skip c = Some (Ok c') →
     downloadFilename _ c' = downloadFilename _ c
     ∧ programNvram _ c' = programNvram _ c)
  ∧ (∀ s rest,
       ParseLoggerArguments (s :: rest) (console_verbosity _ c) = None →
       (s = "-e" ∨ s = "--emulate" ∨ s = "--program" →
        parse_arguments (s :: rest) 0 c
        = Some (Stop ("only one --emulate or --program option can be specified"
                        +:+ nl) 1))
       ∧ (match s with String a _ => a ≠ "-"%char | EmptyString => True end →
          parse_arguments (s :: rest) 0 c
          = Some (Stop ("Unrecognized command-line argument " +:+ (dq +:+ s +:+ dq)
                          +:+ ", use --help" +:+ nl) 1))).
Proof.
  intros Hnamed. split.
  - intros args skip c' Hrun. by eapply parse_arguments_download.
  - intros s rest Hlogger. split; intros Hs.
    + change (parse_arguments (s :: rest) 0 c)
        with (match parse_argument s rest c with
              | Some (Ok (taken, c)) => parse_arguments rest taken c
              | Some (Stop text code) => Some (Stop text code)
              | None => None
              end).
      by rewrite parse_argument_second_option.
    + change (parse_arguments (s :: rest) 0 c)
        with (match parse_argument s rest c with
              | Some (Ok (taken, c)) => parse_arguments rest taken c
              | Some (Stop text code) => Some (Stop text code)
              | None => None
              end).
      by rewrite parse_argument_second_file.
Qed.

Lemma parse_arguments_switches args skip c c' :
  parse_arguments args skip c = Some (Ok c') →
  (programNvram _ c' = true → programNvram _ c = true ∨ "--program" ∈ args)
  ∧ (force _ c' = true → force _ c = true ∨ "--force" ∈ args).
Proof.
  revert skip c. induction args as [|s rest IH]; intros skip c Hrun.
  - injection Hrun as <-. auto.
  - simpl in Hrun. destruct skip as [|skip].
    + destruct (parse_argument s rest c) as [[[taken c1]|]|] eqn:Hstep; [|done|done].
      destruct (parse_argument_download _ _ _ _ _ Hstep) as (_ & Hnvram & Hforce).
      destruct (IH _ _ Hrun) as [Hnvram' Hforce'].
      split; intros Hset.
      * destruct (Hnvram' Hset) as [Hbefore|Hlater]; [|right; by right].
        destruct (Hnvram Hbefore) as [? | ->]; [by left|right; by left].
      * destruct (Hforce' Hset) as [Hbefore|Hlater]; [|right; by right].
        destruct (Hforce Hbefore) as [? | ->]; [by left|right; by left].
    + destruct (IH _ _ Hrun) as [Hnvram Hforce].
      split; intros Hset; [destruct (Hnvram Hset)|destruct (Hforce Hset)];
        auto; right; by right.
Qed.

(** Programming the NVM and [force] are switched on by their own options
    only. *)
Lemma parse_switches args c :
  parse args = Some (Ok c) →
  (programNvram _ c = true → "--program" ∈ args)
  ∧ (force _ c = true → "--force" ∈ args).
Proof.
  intros Hrun. destruct (parse_arguments_switches _ _ _ _ Hrun) as [Hnvram Hforce].
  split; intros Hset; [destruct (Hnvram Hset)|destruct (Hforce Hset)]; done.
Qed.

End ParseProperties.

(** ** gp4prog: the run of [main] *)

Section MainProperties.

Import Gp4prog Gp4progMain MainSpec.

Variable Severity : Type.
Variable NOTICE : Severity.
Variable at_least : Severity → Severity → bool.
Variable ParseLoggerArguments : list string → Severity → option (nat * Severity).
Variable strtol : string → Z * nat.
Variable strtod : string → float * nat.
Variable format_3g : float → string.
Variable format_02x : Z → string.
Variable board : Board.

Local Abbreviation CommandLine := (Gp4progMain.CommandLine Severity).
Local Abbreviation prepared := (MainSpec.prepared Severity board).
Local Abbreviation detected := (MainSpec.detected Severity board).
Local Abbreviation finished := (MainSpec.finished board).
Local Abbreviation short := (MainSpec.short Severity board).
Local Abbreviation defined := (MainSpec.defined Severity board).
Local Abbreviation cooperative := (MainSpec.cooperative board).
Local Abbreviation parse :=
  (Gp4progMain.parse Severity NOTICE ParseLoggerArguments strtol strtod format_3g).
Local Abbreviation main :=
  (Gp4progMain.main Severity NOTICE at_least ParseLoggerArguments strtol strtod
     format_3g format_02x board).
Local Abbreviation open_board := (Gp4progMain.open_board Severity NOTICE at_least board).
Local Abbreviation detect := (Gp4progMain.detect Severity board).
Local Abbreviation check_empty := (Gp4progMain.check_empty Severity board).
Local Abbreviation upload := (Gp4progMain.upload Severity board).
Local Abbreviation socket_test := (Gp4progMain.socket_test Severity board).
Local Abbreviation reset_board := (Gp4progMain.reset_board Severity board).
Local Abbreviation trim := (Gp4progMain.trim Severity format_3g board).
Local Abbreviation download := (Gp4progMain.download Severity format_02x board).
Local Abbreviation set_voltage_supply :=
  (Gp4progMain.set_voltage_supply Severity format_3g board).
Local Abbreviation set_nets_config := (Gp4progMain.set_nets_config Severity board).
Local Abbreviation actions := (Gp4progMain.actions Severity format_3g format_02x board).
Local Abbreviation run :=
  (Gp4progMain.run Severity NOTICE at_least format_3g format_02x board).

(** *** The monad *)

Lemma Main_bind_continue {A B} (m : Main A) (f : A → Main B) w w' a :
  m w = (w', Continue a) → (m ≫= f) w = f a w'.
Proof. intros Hm. unfold mbind, Main_mbind, Main_bind. by rewrite Hm. Qed.

Lemma Main_bind_ended {A B} (m : Main A) (f : A → Main B) w w' e :
  m w = (w', Ended e) → (m ≫= f) w = (w', Ended e).
Proof. intros Hm. unfold mbind, Main_mbind, Main_bind. by rewrite Hm. Qed.

(** *** The order of the calls *)

Lemma in_order_bind {A B} s1 s2 rest (m : Main A) (f : A → Main B) :
  in_order s1 (s2 ++ rest) m →
  (∀ a, in_order s2 rest (f a)) →
  in_order (s1 ++ s2) rest (m ≫= f).
Proof.
  intros Hm Hf w. destruct (Hm w) as (calls1 & Hhistory1 & Hnames1).
  destruct (m w) as [w1 [a|e]] eqn:Hrun; simpl in *.
  - rewrite (Main_bind_continue _ _ _ _ _ Hrun).
    destruct (Hf a w1) as (calls2 & Hhistory2 & Hnames2).
    exists (calls1 ++ calls2). split.
    + by rewrite Hhistory2, Hhistory1, app_assoc.
    + rewrite fmap_app. destruct (f a w1).2.
      * by apply sublist_app.
      * rewrite <- app_assoc. by apply sublist_app.
  - rewrite (Main_bind_ended _ _ _ _ _ Hrun). simpl.
    exists calls1. split; [done|]. by rewrite <- app_assoc.
Qed.

Lemma in_order_weaken {A} s s' rest rest' (m : Main A) :
  in_order s rest m →
  sublist s s' → sublist (s ++ rest) (s' ++ rest') →
  in_order s' rest' m.
Proof.
  intros Hm Hs Hrest w. destruct (Hm w) as (calls & Hhistory & Hnames).
  exists calls. split; [done|].
  destruct (m w).2; by etrans.
Qed.

Lemma in_order_ret {A} rest (a : A) : in_order [] rest (mret a).
Proof. intros w. exists []. split; [by rewrite app_nil_r|]. simpl. constructor. Qed.

Lemma in_order_stop {A} rest e : in_order [] rest (@stop A e).
Proof.
  intros w. exists []. split; [by rewrite app_nil_r|]. simpl. apply sublist_nil_l.
Qed.

Lemma in_order_write rest o : in_order [] rest (write o).
Proof. intros w. exists []. split; [by rewrite app_nil_r|]. simpl. constructor. Qed.

Lemma in_order_invoke {A} rest c (answer : list Call → A) :
  in_order [function_name c] rest (invoke c answer).
Proof. intros w. exists [c]. split; [done|]. simpl. done. Qed.

Local Ltac run_stage w :=
  intros w;
  unfold Gp4progMain.open_board, Gp4progMain.detect, Gp4progMain.check_empty,
    Gp4progMain.upload, Gp4progMain.socket_test, Gp4progMain.reset_board,
    Gp4progMain.trim, Gp4progMain.download, verify_programmed,
    Gp4progMain.set_voltage_supply, Gp4progMain.set_nets_config, finish, led_off,
    log, write, invoke, return_, stop;
  unfold mbind, mret, Main_mbind, Main_mret, Main_bind, Main_ret;
  cbn;
  repeat (match goal with
          | |- context [match ?x with _ => _ end] =>
              lazymatch x with
              | context [match _ with _ => _ end] => fail
              | _ => destruct x eqn:?
              end
          end; cbn).

Local Ltac added_calls :=
  first [ exists []; split; [by rewrite app_nil_r|]
        | eexists; split; [by rewrite <- ?app_assoc|] ];
  cbn.

Local Ltac in_this_order :=
  added_calls; vm_compute;
  repeat first [apply sublist_nil_l | apply sublist_skip | apply sublist_cons].

Lemma open_board_order c :
  in_order ["OpenBoard"] (tail main_order) (open_board c).
Proof. run_stage w; in_this_order. Qed.

Lemma detect_order c :
  in_order ["SetStatusLED"; "DetectPart"] (drop 3 main_order) (detect c).
Proof. run_stage w; in_this_order. Qed.

Lemma check_empty_order c d :
  in_order [] (drop 3 main_order) (check_empty c d).
Proof. run_stage w; in_this_order. Qed.

Lemma upload_order c d :
  in_order ["WriteBitstream"] (drop 4 main_order) (upload c d).
Proof. run_stage w; in_this_order. Qed.

Lemma socket_test_order c d :
  in_order ["SocketTest"] (drop 5 main_order) (socket_test c d).
Proof. run_stage w; in_this_order. Qed.

Lemma reset_board_order c :
  in_order ["Reset"] (drop 6 main_order) (reset_board c).
Proof. run_stage w; in_this_order. Qed.

Lemma trim_order c d :
  in_order ["TrimOscillator"] (drop 7 main_order) (trim c d).
Proof. run_stage w; in_this_order. Qed.

Lemma download_order c d rcFtw :
  in_order ["ReadBitstream"; "DownloadBitstream"; "UploadBitstream"; "SetIOConfig"]
    (drop 11 main_order) (download c d rcFtw).
Proof. run_stage w; in_this_order. Qed.

Lemma set_voltage_supply_order c :
  in_order ["ConfigureSiggen"] (drop 12 main_order) (set_voltage_supply c).
Proof. run_stage w; in_this_order. Qed.

Lemma set_nets_config_order c :
  in_order ["SetIOConfig"] (drop 13 main_order) (set_nets_config c).
Proof. run_stage w; in_this_order. Qed.

Lemma finish_order :
  in_order ["CheckStatus"; "SetStatusLED"; "USBCleanup"] [] (finish board).
Proof. run_stage w; in_this_order. Qed.

Lemma actions_order c d : in_order (drop 3 main_order) [] (actions c d).
Proof.
  unfold Gp4progMain.actions.
  refine (in_order_bind [] (drop 3 main_order) [] _ _ (check_empty_order c d) (λ _, _)).
  refine (in_order_bind ["WriteBitstream"] (drop 4 main_order) [] _ _
            (upload_order c d) (λ _, _)).
  refine (in_order_bind ["SocketTest"] (drop 5 main_order) [] _ _
            (socket_test_order c d) (λ _, _)).
  refine (in_order_bind ["Reset"] (drop 6 main_order) [] _ _
            (reset_board_order c) (λ _, _)).
  refine (in_order_bind ["TrimOscillator"] (drop 7 main_order) [] _ _
            (trim_order c d) (λ rcFtw, _)).
  refine (in_order_bind (take 4 (drop 7 main_order)) (drop 11 main_order) [] _ _
            (download_order c d rcFtw) (λ _, _)).
  refine (in_order_bind ["ConfigureSiggen"] (drop 12 main_order) [] _ _
            (set_voltage_supply_order c) (λ _, _)).
  refine (in_order_bind ["SetIOConfig"] (drop 13 main_order) [] _ _
            (set_nets_config_order c) (λ _, _)).
  exact finish_order.
Qed.

Lemma run_in_order c : in_order main_order [] (run c).
Proof.
  unfold Gp4progMain.run.
  refine (in_order_bind ["OpenBoard"] (tail main_order) [] _ _
            (open_board_order c) (λ _, _)).
  destruct (no_actions _ c).
  - run_stage w; in_this_order.
  - refine (in_order_bind ["SetStatusLED"; "DetectPart"] (drop 3 main_order) [] _ _
              (detect_order c) (λ d, _)).
    apply actions_order.
Qed.

(** Whatever the order of the options on the command line and whatever the
    board answers, [main] calls the functions of the board in the order in
    which the source has them ([main_order]; reading the bitstream and the
    socket test come before the reset, unlike in the usage text): each at
    most once, [SetStatusLED] and [SetIOConfig] at most twice, and none
    after [USBCleanup]. *)
Theorem run_calls_in_order (c : CommandLine) :
  sublist (function_name <$> history (run c start).1) main_order.
Proof.
  destruct (run_in_order c start) as (calls & Hhistory & Hnames).
  rewrite Hhistory. simpl. destruct (run c start).2; [done|].
  by rewrite app_nil_r in Hnames.
Qed.

(** *** What the calls and the ending of a part of [main] satisfy *)

Lemma spec_ret {A} P Q (C : A → Prop) (a : A) : C a → spec P Q C (mret a).
Proof. intros Ha w. exists []. by rewrite app_nil_r. Qed.

Lemma spec_stop {A} P (Q : World → Ending → Prop) (C : A → Prop) e :
  (∀ w, Q w e) → spec P Q C (stop e).
Proof. intros He w. exists []. rewrite app_nil_r. simpl. auto. Qed.

Lemma spec_write P Q (C : unit → Prop) o : C tt → spec P Q C (write o).
Proof. intros Ha w. exists []. by rewrite app_nil_r. Qed.

Lemma spec_invoke {A} (P : Call → Prop) Q (C : A → Prop) c (answer : list Call → A) :
  P c → (∀ h, C (answer h)) → spec P Q C (invoke c answer).
Proof. intros Hc Ha w. exists [c]. simpl. auto. Qed.

Lemma spec_bind {A B} P Q (C1 : A → Prop) (C2 : B → Prop) (m : Main A) (f : A → Main B) :
  spec P Q C1 m → (∀ a, C1 a → spec P Q C2 (f a)) → spec P Q C2 (m ≫= f).
Proof.
  intros Hm Hf w. destruct (Hm w) as (calls1 & Hhistory1 & Hcalls1 & Hresult1).
  destruct (m w) as [w1 [a|e]] eqn:Hrun; simpl in *.
  - rewrite (Main_bind_continue _ _ _ _ _ Hrun).
    destruct (Hf a Hresult1 w1) as (calls2 & Hhistory2 & Hcalls2 & Hresult2).
    exists (calls1 ++ calls2). split; [by rewrite Hhistory2, Hhistory1, app_assoc|].
    split; [by apply Forall_app|done].
  - rewrite (Main_bind_ended _ _ _ _ _ Hrun). simpl. by exists calls1.
Qed.

Lemma spec_weaken {A} P Q (C C' : A → Prop) (m : Main A) :
  spec P Q C m → (∀ a, C a → C' a) → spec P Q C' m.
Proof.
  intros Hm HC w. destruct (Hm w) as (calls & Hhistory & Hcalls & Hresult).
  exists calls. split; [done|]. split; [done|].
  destruct (m w).2; auto.
Qed.

Lemma spec_invoke_bind {A B} (P : Call → Prop) Q (C : B → Prop) c
    (answer : list Call → A) (f : A → Main B) :
  P c → (∀ h, spec P Q C (f (answer h))) → spec P Q C (invoke c answer ≫= f).
Proof.
  intros Hc Hf w. unfold mbind, Main_mbind, Main_bind, invoke.
  destruct (Hf (history w) (mkWorld (history w ++ [c]) (output w)))
    as (calls & Hhistory & Hcalls & Hresult).
  exists (c :: calls). split; [by rewrite Hhistory; simpl; rewrite <- app_assoc|].
  split; [by constructor|done].
Qed.

Local Ltac spec_step :=
  lazymatch goal with
  | |- spec _ _ _ (mret _) => apply spec_ret
  | |- spec _ _ _ (stop _) => apply spec_stop; intros ?
  | |- spec _ _ _ (return_ _) => apply spec_stop; intros ?
  | |- spec _ _ _ (write _) => apply spec_write
  | |- spec _ _ _ (log _ _) => apply spec_write
  | |- spec _ _ _ (led_off _) => unfold led_off
  | |- spec _ _ _ (invoke _ _ ≫= _) => apply spec_invoke_bind; [|intros ?]
  | |- spec _ _ _ (invoke _ _) => apply spec_invoke; [|intros ?]
  | |- spec _ _ _ (_ ≫= _) => apply (spec_bind _ _ (λ _, True)); [|intros ? _]
  | |- spec _ _ _ (if ?b then _ else _) => destruct b eqn:?
  | |- spec _ _ _ (match ?x with _ => _ end) => destruct x eqn:?
  end.

Local Ltac spec_steps := repeat spec_step.

(** *** What is downloaded *)

Lemma check_empty_continues c d :
  spec (downloads (prepared c d)) (λ _ _, True)
    (λ _, programNvram _ c = true → bitstreamKind d = Some EMPTY ∨ force _ c = true)
    (check_empty c d).
Proof.
  unfold Gp4progMain.check_empty. spec_steps; try done; auto.
  - intros _. right. by destruct (force _ c).
Qed.

Lemma trim_value P Q c d :
  (∀ part voltage freq, P (call_TrimOscillator part voltage freq)) →
  (∀ w, Q w (Return 1)) →
  spec P Q (λ rcFtw, 0 ≤ rcFtw < 256) (trim c d).
Proof.
  intros HP HQ. unfold Gp4progMain.trim. spec_steps; try done.
  - apply uint8_range.
Qed.

Lemma download_prepared c d rcFtw :
  0 ≤ rcFtw < 256 →
  (programNvram _ c = true → bitstreamKind d = Some EMPTY ∨ force _ c = true) →
  spec (downloads (prepared c d)) (λ _ _, True) (λ _, True) (download c d rcFtw).
Proof.
  intros Hftw Hempty. unfold Gp4progMain.download, verify_programmed.
  spec_steps; try done.
  all: apply negb_false_iff, bool_decide_eq_true in Heqb1.
  all: assert (prepare_download (Z.of_nat (BitstreamLength board (detectedPart d)))
                 (options _ c rcFtw) (ReadBitstream board h (downloadFilename _ c))
               = CallDownloadBitstream
                   (if programNvram _ c then PROGRAMMING else EMULATION) l) as Hstep
    by (unfold prepare_download; rewrite Heqb0, Heqo0;
        rewrite bool_decide_false; [done|];
        rewrite Heqb1, Nat2Z.inj_div; intros Hne; by apply Hne).
  all: apply negb_true_iff, bool_decide_eq_false in Heqb.
  - apply negb_true_iff in Heqb2. rewrite Heqb2 in Hstep.
    exists h, rcFtw. rewrite Heqb2. by repeat (split; [done|]).
  - apply negb_false_iff in Heqb2. rewrite Heqb2 in Hstep.
    exists h, rcFtw. rewrite Heqb2. repeat (split; [done|]). auto.
Qed.

Lemma actions_downloads c d :
  spec (downloads (prepared c d)) (λ _ _, True) (λ _, True) (actions c d).
Proof.
  unfold Gp4progMain.actions.
  eapply spec_bind; [apply check_empty_continues|]. intros ? Hempty. simpl in Hempty.
  apply (spec_bind _ _ (λ _, True));
    [unfold Gp4progMain.upload; spec_steps; done|intros _ _].
  apply (spec_bind _ _ (λ _, True));
    [unfold Gp4progMain.socket_test; spec_steps; done|intros _ _].
  apply (spec_bind _ _ (λ _, True));
    [unfold Gp4progMain.reset_board; spec_steps; done|intros _ _].
  eapply spec_bind; [by apply trim_value|]. intros rcFtw Hftw. simpl in Hftw.
  apply (spec_bind _ _ (λ _, True)); [by apply download_prepared|intros _ _].
  apply (spec_bind _ _ (λ _, True));
    [unfold Gp4progMain.set_voltage_supply; spec_steps; done|intros _ _].
  apply (spec_bind _ _ (λ _, True));
    [unfold Gp4progMain.set_nets_config; spec_steps; done|intros _ _].
  unfold finish. spec_steps; done.
Qed.

Lemma detect_detected P Q c :
  P (call_SetStatusLED true) → P (call_SetStatusLED false) → P call_DetectPart →
  (∀ w, Q w (Return 1)) →
  spec P Q (detected c) (detect c).
Proof.
  intros Hon Hoff Hdetect HQ. unfold Gp4progMain.detect.
  spec_steps; try done.
  - intros _. simpl. eauto.
  - intros Hneeded. congruence.
Qed.


Lemma spec_calls {A} (P P' : Call → Prop) Q (C : A → Prop) (m : Main A) :
  spec P Q C m → (∀ c, P c → P' c) → spec P' Q C m.
Proof.
  intros Hm HP w. destruct (Hm w) as (calls & Hhistory & Hcalls & Hresult).
  exists calls. split; [done|]. split; [|done].
  eapply Forall_impl; [exact Hcalls|done].
Qed.

Lemma run_downloads c :
  spec (downloads (λ image mode, ∃ d, detected c d ∧ prepared c d image mode))
    (λ _ _, True) (λ _, True) (run c).
Proof.
  unfold Gp4progMain.run.
  apply (spec_bind _ _ (λ _, True));
    [unfold Gp4progMain.open_board; spec_steps; done|intros _ _].
  destruct (no_actions _ c); [spec_steps; done|].
  eapply spec_bind; [by apply detect_detected|]. intros d Hd.
  eapply spec_calls; [apply actions_downloads|].
  intros [] Hcall; try done. simpl in *. eauto.
Qed.

(** Whenever [main] calls [DownloadBitstream], the arguments were accepted
    by the argument loop and name a bitstream file; [DetectPart] had
    answered with a part; and the image and the mode are those the download
    step prepares from the file read, the switches and a trim value of
    eight bits.  The NVM is programmed only if [--program] is among the
    arguments and the part was detected as empty or [--force] is among the
    arguments. *)
Theorem main_downloads (args : list string) (w : World) (r : Result unit)
    (image : list Z) (mode : DownloadMode) :
  main args = Some (w, r) →
  call_DownloadBitstream image mode ∈ history w →
  ∃ c h part programmed kind h' rcFtw,
    parse args = Some (Ok c)
    ∧ downloadFilename _ c ≠ EmptyString
    ∧ DetectPart board h = Some (part, programmed, kind)
    ∧ 0 ≤ rcFtw < 256
    ∧ prepare_download (Z.of_nat (BitstreamLength board part)) (options _ c rcFtw)
        (ReadBitstream board h' (downloadFilename _ c))
      = CallDownloadBitstream mode image
    ∧ (mode = PROGRAMMING →
         "--program" ∈ args ∧ (kind = EMPTY ∨ "--force" ∈ args)).
Proof.
  unfold Gp4progMain.main. intros Hmain Hcall.
  destruct (parse args) as [[c|text code]|] eqn:Hparse; [| |done].
  - injection Hmain as Hrun. 
    destruct (run_downloads c start) as (calls & Hhistory & Hcalls & _).
    rewrite Hrun in Hhistory. simpl in Hhistory. rewrite Hhistory in Hcall.
    rewrite Forall_forall in Hcalls. apply Hcalls in Hcall.
    destruct Hcall as (d & Hd & h' & rcFtw & Hfile & Hftw & Hstep & Hmode & Hempty).
    destruct Hd as (h & programmed & kind & Hdetect & Hkind).
    { unfold needs_part. apply negb_true_iff.
      rewrite (bool_decide_false (downloadFilename _ c = EmptyString)) by done.
      by rewrite andb_false_r. }
    exists c, h, (detectedPart d), programmed, kind, h', rcFtw.
    repeat (split; [done|]).
    intros ->. destruct (parse_switches _ _ _ _ _ _ _ _ Hparse) as [Hnvram Hforce].
    destruct (programNvram _ c) eqn:Hprogram; [|done].
    split; [by apply Hnvram|].
    destruct Hempty as [Hempty|Hforced]; [done| |].
    + left. congruence.
    + right. by apply Hforce.
  - injection Hmain as <- <-. by apply elem_of_nil in Hcall.
Qed.

(** *** How [main] ends *)

Lemma finish_finished : spec (λ _, True) finished (λ _ : unit, True) (finish board).
Proof.
  intros w. unfold finish, led_off, log, write, invoke, return_, stop.
  unfold mbind, mret, Main_mbind, Main_mret, Main_bind, Main_ret. cbn.
  destruct (CheckStatus board (history w)) eqn:Hcheck; cbn.
  - eexists. split; [by rewrite <- !app_assoc|]. split; [by repeat constructor|].
    intros _. exists (history w). by rewrite <- !app_assoc.
  - eexists. split; [by rewrite <- !app_assoc|]. split; [by repeat constructor|].
    by intros [=].
Qed.

Local Ltac unfold_stages :=
  unfold Gp4progMain.open_board, Gp4progMain.detect, Gp4progMain.check_empty,
    Gp4progMain.upload, Gp4progMain.socket_test, Gp4progMain.reset_board,
    Gp4progMain.trim, Gp4progMain.download, verify_programmed,
    Gp4progMain.set_voltage_supply, Gp4progMain.set_nets_config.

Lemma actions_finished c d :
  spec (λ _, True) finished (λ _, True) (actions c d).
Proof.
  unfold Gp4progMain.actions.
  do 8 (apply (spec_bind _ _ (λ _, True));
        [by unfold_stages; spec_steps|intros ? _]).
  apply finish_finished.
Qed.

Lemma run_start c :
  run c start
  = let w := mkWorld [call_OpenBoard]
               (if at_least (console_verbosity _ c) NOTICE then [printed version] else []) in
    if OpenBoard board [] then
      if no_actions _ c then
        (mkWorld (history w)
           (output w ++ [logged LogNotice ("No actions requested, exiting" +:+ nl)]),
         Ended (Return 0))
      else (detect c ≫= actions c) w
    else (w, Ended (Return 1)).
Proof.
  unfold Gp4progMain.run, Gp4progMain.open_board, log, write, invoke, return_, stop, start.
  unfold mbind, mret, Main_mbind, Main_mret, Main_bind, Main_ret. cbn.
  destruct (at_least _ _); cbn; destruct (OpenBoard board []); cbn;
    destruct (no_actions _ c); reflexivity.
Qed.

(** [main] returns 0 in two ways only.  Either the board was opened and no
    action was requested: then [OpenBoard] is the only call made.  Or an
    action was requested and [main] reached its end: the last three calls
    are the final [CheckStatus], which reported no fault, the switching off
    of the status LED and [USBCleanup]. *)
Theorem run_returns_0 (c : CommandLine) (w : World) :
  run c start = (w, Ended (Return 0)) →
  OpenBoard board [] = true
  ∧ ((no_actions _ c = true ∧ history w = [call_OpenBoard])
     ∨ (no_actions _ c = false
        ∧ ∃ h, history w
               = h ++ [call_CheckStatus; call_SetStatusLED false; call_USBCleanup]
               ∧ CheckStatus board h = true)).
Proof.
  rewrite run_start. cbn zeta.
  destruct (OpenBoard board []); [|by intros [=]].
  intros Hrun. split; [done|]. destruct (no_actions _ c).
  - injection Hrun as <-. by left.
  - right. split; [done|].
    assert (spec (λ _, True) finished (λ _, True) (detect c ≫= actions c)) as Hspec.
    { eapply spec_bind; [by apply (detect_detected _ _ c)|].
      intros d _. apply actions_finished. }
    match type of Hrun with ?m ?w0 = _ =>
      destruct (Hspec w0) as (calls & _ & _ & Hend) end.
    rewrite Hrun in Hend. by apply Hend.
Qed.

(** *** Undefined behaviour *)

Lemma spec_endings {A} P (Q Q' : World → Ending → Prop) (C : A → Prop) (m : Main A) :
  spec P Q C m → (∀ w e, Q w e → Q' w e) → spec P Q' C m.
Proof.
  intros Hm HQ w. destruct (Hm w) as (calls & Hhistory & Hcalls & Hresult).
  exists calls. split; [done|]. split; [done|].
  destruct (m w).2; auto.
Qed.

Lemma check_empty_defined c d :
  detected c d → spec (λ _, True) (defined c d) (λ _, True) (check_empty c d).
Proof.
  intros Hd. unfold Gp4progMain.check_empty. spec_steps; try done.
  destruct Hd as (h & programmed & kind & _ & Hkind); [|congruence].
  unfold needs_part. rewrite Heqb. by rewrite !andb_false_r.
Qed.

Lemma download_defined c d rcFtw :
  spec (λ _, True) (defined c d) (λ _, True) (download c d rcFtw).
Proof.
  unfold Gp4progMain.download, verify_programmed. spec_steps; try done.
  all: apply negb_true_iff, bool_decide_eq_false in Heqb.
  all: apply negb_false_iff, bool_decide_eq_true in Heqb1.
  all: split; [done|intros _; split; [done|]].
  - right. apply negb_false_iff in Heqb2. split; [done|].
    eexists _, _. split; [done|].
    apply verify_out_of_bounds in Heqv as [Hshort|Hshort]; [|done].
    apply set_fields_length in Heqo0. lia.
  - left. pose proof (set_fields_length _ _ _ Heqo0) as Hlength.
    apply lookup_ge_None in Heqo1. lia.
  - left. apply set_fields_None in Heqo0. lia.
  - left. apply logged_patternID_None in Heqo. lia.
Qed.

Lemma actions_defined c d :
  detected c d → spec (λ _, True) (defined c d) (λ _, True) (actions c d).
Proof.
  intros Hd. unfold Gp4progMain.actions.
  apply (spec_bind _ _ (λ _, True)); [by apply check_empty_defined|intros ? _].
  do 4 (apply (spec_bind _ _ (λ _, True));
        [by unfold_stages; spec_steps|intros ? _]).
  apply (spec_bind _ _ (λ _, True)); [by apply download_defined|intros ? _].
  do 2 (apply (spec_bind _ _ (λ _, True));
        [by unfold_stages; spec_steps|intros ? _]).
  unfold finish. by spec_steps.
Qed.

(** [main] never reads [bitstreamKind] before [DetectPart] has set it.  A
    subscript leaves a vector in two cases only, both in the download of a
    bitstream file for a detected part: the part's bitstream is too short
    to hold byte 254, or the NVM was programmed and [UploadBitstream] gave
    back fewer bytes than the part has. *)
Theorem run_undefined_behaviour (c : CommandLine) :
  (run c start).2 ≠ Ended Uninitialized
  ∧ ((run c start).2 = Ended OutOfBounds →
       downloadFilename _ c ≠ EmptyString
       ∧ ∃ h part programmed kind,
           DetectPart board h = Some (part, programmed, kind)
           ∧ ((BitstreamLength board part / 8 ≤ 254)%nat
              ∨ (programNvram _ c = true
                 ∧ ∃ h' bitstreamToVerify,
                     UploadBitstream board h' (BitstreamLength board part / 8)
                     = Some bitstreamToVerify
                     ∧ (length bitstreamToVerify
                        < BitstreamLength board part / 8)%nat))).
Proof.
  assert (spec (λ _, True)
            (λ w e, e ≠ Uninitialized
                    ∧ (e = OutOfBounds →
                         downloadFilename _ c ≠ EmptyString
                         ∧ ∃ d, detected c d ∧ short c d))
            (λ _, True) (run c)) as Hspec.
  { unfold Gp4progMain.run.
    apply (spec_bind _ _ (λ _, True));
      [by unfold Gp4progMain.open_board; spec_steps|intros ? _].
    destruct (no_actions _ c); [by spec_steps|].
    eapply spec_bind; [by apply detect_detected|]. intros d Hd.
    eapply spec_endings; [by apply actions_defined|].
    intros w e [Huninitialized Hbounds]. split; [done|].
    intros Hout. destruct (Hbounds Hout). eauto. }
  destruct (Hspec start) as (calls & _ & _ & Hend).
  destruct (run c start).2 as [[]|e]; [done|].
  destruct Hend as [Huninitialized Hbounds].
  split; [congruence|]. intros [= ->].
  destruct (Hbounds eq_refl) as (Hfile & d & Hd & Hshort).
  split; [done|].
  destruct Hd as (h & programmed & kind & Hdetect & _).
  { unfold needs_part. apply negb_true_iff.
    rewrite (bool_decide_false (downloadFilename _ c = EmptyString)) by done.
    by rewrite andb_false_r. }
  by exists h, (detectedPart d), programmed, kind.
Qed.

(** *** A run on a board that answers every call with success *)

Lemma run_cooperative c part programmed kind :
  cooperative part programmed kind →
  (downloadFilename _ c ≠ EmptyString →
     ∀ h, length (ReadBitstream board h (downloadFilename _ c))
          = (BitstreamLength board part / 8)%nat
          ∧ (254 < BitstreamLength board part / 8)%nat) →
  (programNvram _ c = true →
     part = SLG46620V ∧ (kind = EMPTY ∨ force _ c = true)) →
  (rcOscFreq _ c ≠ 0 → PrimFloat.eqb (voltage _ c) 0 = false) →
  spec (λ _, True) returns_0 (λ _ : unit, False) (run c).
Proof.
  intros (Hopen & Hled & Hdetect & Hsocket & Hreset & Htrim & Hdownload & Hupload
          & Hconfig & Hsiggen & Hcheck) Hfile Hprogram Hvoltage.
  assert (∀ b : bool, negb b = true → b = true → False) as Hnegb by (by intros []).
  unfold Gp4progMain.run.
  apply (spec_bind _ _ (λ _, True)); [|intros ? _].
  { unfold Gp4progMain.open_board. spec_steps; try done; congruence. }
  destruct (no_actions _ c); [by spec_steps|].
  apply (spec_bind _ _ (λ d, needs_part _ c = true →
                             detectedPart d = part ∧ bitstreamKind d = Some kind)).
  { unfold Gp4progMain.detect. spec_steps; try done.
    all: try (exfalso; eapply Hnegb; [eassumption|apply Hled]).
    all: try match goal with H : DetectPart board _ = _ |- _ =>
               rewrite Hdetect in H; simplify_eq end.
    all: try (intros ?; congruence).
    by intros _. }
  intros d Hd. unfold Gp4progMain.actions.
  apply (spec_bind _ _ (λ _, True)); [|intros ? _].
  { unfold Gp4progMain.check_empty. spec_steps; try done.
    all: destruct (Hprogram eq_refl) as [_ Hready].
    all: destruct Hd as [_ Hkind];
      [unfold needs_part;
       match goal with H : programNvram _ _ = true |- _ => rewrite H end;
       by rewrite !andb_false_r|].
    all: destruct Hready as [->|Hforce]; [congruence|].
    all: try congruence.
    exfalso. eapply Hnegb; eassumption. }
  apply (spec_bind _ _ (λ _, True)); [|intros ? _].
  { unfold Gp4progMain.upload. by spec_steps. }
  apply (spec_bind _ _ (λ _, True)); [|intros ? _].
  { unfold Gp4progMain.socket_test. spec_steps; try done.
    exfalso; eapply Hnegb; [eassumption|apply Hsocket]. }
  apply (spec_bind _ _ (λ _, True)); [|intros ? _].
  { unfold Gp4progMain.reset_board. spec_steps; try done.
    exfalso; eapply Hnegb; [eassumption|apply Hreset]. }
  apply (spec_bind _ _ (λ _, True)); [|intros rcFtw _].
  { unfold Gp4progMain.trim. spec_steps; try done.
    - match goal with H : negb (_ =? 0) = true |- _ =>
        apply negb_true_iff, Z.eqb_neq in H; specialize (Hvoltage H) end.
      congruence.
    - match goal with H : TrimOscillator board ?h ?p ?v ?f = None |- _ =>
        destruct (Htrim h p v f) as [? ?]; congruence end. }
  apply (spec_bind _ _ (λ _, True)); [|intros ? _].
  { assert (downloadFilename _ c ≠ EmptyString →
            detectedPart d = part
            ∧ ∀ h, length (ReadBitstream board h (downloadFilename _ c))
                   = (BitstreamLength board part / 8)%nat
                   ∧ (254 < BitstreamLength board part / 8)%nat) as Hnamed.
    { intros Hnamed. split; [|by apply Hfile]. apply Hd.
      unfold needs_part. apply negb_true_iff.
      rewrite (bool_decide_false (downloadFilename _ c = EmptyString)) by done.
      by rewrite andb_false_r. }
    clear Hd Hfile.
    unfold Gp4progMain.download, verify_programmed. spec_steps; try done.
    all: match goal with H : negb (bool_decide (downloadFilename _ _ = _)) = true |- _ =>
           apply negb_true_iff, bool_decide_eq_false in H;
           destruct (Hnamed H) as [Hpart Hlength]; clear Hnamed;
           rewrite ?Hpart in * end.
    all: match goal with h : list Call |- _ =>
           destruct (Hlength h) as [Hread Hlong]; clear Hlength end.
    all: exfalso.
    all: repeat match goal with
                | H : negb _ = true |- _ => apply negb_true_iff in H
                | H : negb _ = false |- _ => apply negb_false_iff in H
                | H : bool_decide _ = true |- _ => apply bool_decide_eq_true in H
                | H : bool_decide _ = false |- _ => apply bool_decide_eq_false in H
                end.
    all: try match goal with
             | H : DownloadBitstream _ _ _ _ = false |- _ =>
                 by rewrite Hdownload in H
             | H : SetIOConfig _ _ _ = false |- _ => by rewrite Hconfig in H
             | H : UploadBitstream _ ?h ?size = None |- _ =>
                 destruct (Hupload h size) as (? & ? & _); congruence
             | H : logged_patternID _ _ = None |- _ =>
                 apply logged_patternID_None in H; lia
             | H : set_fields _ _ = None |- _ => apply set_fields_None in H; lia
             | H : ReadBitstream _ _ _ = [] |- _ => rewrite H in Hread; cbn [length] in Hread; lia
             | H : length _ ≠ _ |- _ => by apply H
             end.
    all: match goal with H : set_fields _ _ = Some _ |- _ =>
           apply set_fields_length in H end.
    all: try match goal with H : _ !! _ = None |- _ =>
               apply lookup_ge_None in H; lia end.
    all: match goal with H : UploadBitstream _ ?h ?size = Some _ |- _ =>
           destruct (Hupload h size) as (? & Huploaded & Hsize);
           rewrite H in Huploaded; injection Huploaded as <- end.
    all: try match goal with H : verify _ _ _ _ = BitOutOfBounds |- _ =>
               apply verify_out_of_bounds in H; lia end.
    match goal with H : programNvram _ _ = true |- _ =>
      destruct (Hprogram H) as [-> _] end.
    match goal with H : verify _ ?new ?actual ?size = UnknownPart |- _ =>
      destruct (verify_SLG46620V new actual size) as (? & ? & ?);
        [lia|lia|congruence] end. }
  apply (spec_bind _ _ (λ _, True)); [|intros ? _].
  { unfold Gp4progMain.set_voltage_supply. spec_steps; try done.
    exfalso; eapply Hnegb; [eassumption|apply Hsiggen]. }
  apply (spec_bind _ _ (λ _, True)); [|intros ? _].
  { unfold Gp4progMain.set_nets_config. spec_steps; try done.
    exfalso; eapply Hnegb; [eassumption|apply Hconfig]. }
  unfold finish. spec_steps; try done.
  exfalso; eapply Hnegb; [eassumption|apply Hcheck].
Qed.

(** On a board that answers every call with success, [main] returns 0
    for every command line that asks for a trim only together with a
    voltage, names a bitstream file only if the file has the length of the
    detected part and holds byte 254, and programs the NVM only of an
    SLG46620V that is empty or with [force]; whatever [UploadBitstream]
    reads back, a failed verification being logged and nothing else. *)
Theorem run_succeeds (c : CommandLine) (part : SilegoPart) (programmed : list Z)
    (kind : BitstreamKind) :
  cooperative part programmed kind →
  (downloadFilename _ c ≠ EmptyString →
     ∀ h, length (ReadBitstream board h (downloadFilename _ c))
          = (BitstreamLength board part / 8)%nat
          ∧ (254 < BitstreamLength board part / 8)%nat) →
  (programNvram _ c = true →
     part = SLG46620V ∧ (kind = EMPTY ∨ force _ c = true)) →
  (rcOscFreq _ c ≠ 0 → PrimFloat.eqb (voltage _ c) 0 = false) →
  (run c start).2 = Ended (Return 0).
Proof.
  intros Hboard Hfile Hprogram Hvoltage.
  destruct (run_cooperative c part programmed kind Hboard Hfile Hprogram Hvoltage start)
    as (calls & _ & _ & Hend).
  destruct (run c start).2 as [[]|e]; [done|]. by rewrite Hend.
Qed.

End MainProperties.

(** ** hid.c: [parse_uevent_info] and [get_device_string] *)

Section HidProperties.

Import Hid HidSpec.

Variable sscanf : string → list Z.

Local Abbreviation parse_line := (Hid.parse_line sscanf).
Local Abbreviation parse_uevent_info := (Hid.parse_uevent_info sscanf).

Lemma values_cons key k v es :
  values key ((k, v) :: es)
  = if bool_decide (k = key) then v :: values key es else values key es.
Proof.
  unfold values. rewrite filter_cons. simpl.
  case_decide; case_bool_decide; done.
Qed.

Lemma last_of_cons p v vs : last_of p (v :: vs) = last_of (Some v) vs.
Proof.
  unfold last_of. simpl. destruct p as [s|]; simpl; [|done].
  by destruct vs.
Qed.

Lemma overwritten_cons p v vs :
  overwritten p (v :: vs) = orphan p ++ overwritten (Some v) vs.
Proof. unfold overwritten. by destruct p. Qed.

Lemma last_of_nil p : last_of p [] = p.
Proof. by destruct p. Qed.

Lemma overwritten_nil p : overwritten p [] = [].
Proof. by destruct p. Qed.

Lemma bool_decide_Exists_cons {A} (P : A → Prop) `{!∀ x, Decision (P x)} x l :
  bool_decide (Exists P (x :: l)) = bool_decide (P x) || bool_decide (Exists P l).
Proof. rewrite <- bool_decide_or. apply bool_decide_ext, Exists_cons. Qed.

(** The loop over the lines, in terms of the keys and values they hold. *)
Lemma parse_lines (st : parse_state) (lines : list string) :
  let es := omap split_at_equals lines in
  let st' := foldl parse_line st lines in
  found_name st' = found_name st || bool_decide (values "HID_NAME" es ≠ [])
  ∧ found_serial st' = found_serial st || bool_decide (values "HID_UNIQ" es ≠ [])
  ∧ found_id st'
    = found_id st
      || bool_decide (Exists (λ v, (3 ≤ length (sscanf v))%nat) (values "HID_ID" es))
  ∧ product_name_utf8 (info st')
    = last_of (product_name_utf8 (info st)) (values "HID_NAME" es)
  ∧ serial_number_utf8 (info st')
    = last_of (serial_number_utf8 (info st)) (values "HID_UNIQ" es)
  ∧ lost st'
    ≡ₚ lost st ++ overwritten (product_name_utf8 (info st)) (values "HID_NAME" es)
       ++ overwritten (serial_number_utf8 (info st)) (values "HID_UNIQ" es)
  ∧ (bus_type (info st') = None
     ↔ bus_type (info st) = None
       ∧ Forall (λ v, sscanf v = []) (values "HID_ID" es)).
Proof.
  revert st. induction lines as [|line lines IH]; intros st; simpl.
  - rewrite !orb_false_r, !last_of_nil, !overwritten_nil, !app_nil_r.
    repeat split; try done. by intros [? _].
  - change (list_omap string (string * string)%type split_at_equals lines)
      with (omap split_at_equals lines).
    specialize (IH (parse_line st line)). simpl in IH.
    assert (match split_at_equals line with
            | None => parse_line st line = st
            | Some (key, value) =>
                parse_line st line
                = if bool_decide (key = "HID_ID") then
                    mk_parse_state (store (take 3 (sscanf value)) (info st))
                      (if bool_decide (length (take 3 (sscanf value)) = 3%nat)
                       then true else found_id st)
                      (found_serial st) (found_name st) (lost st)
                  else if bool_decide (key = "HID_NAME") then
                    mk_parse_state
                      (mk_uevent_info (bus_type (info st)) (vendor_id (info st))
                         (product_id (info st)) (serial_number_utf8 (info st))
                         (Some value))
                      (found_id st) (found_serial st) true
                      (lost st ++ orphan (product_name_utf8 (info st)))
                  else if bool_decide (key = "HID_UNIQ") then
                    mk_parse_state
                      (mk_uevent_info (bus_type (info st)) (vendor_id (info st))
                         (product_id (info st)) (Some value)
                         (product_name_utf8 (info st)))
                      (found_id st) true (found_name st)
                      (lost st ++ orphan (serial_number_utf8 (info st)))
                  else st
            end) as Hstep.
    { unfold Hid.parse_line. by destruct (split_at_equals line) as [[key value]|]. }
    revert IH Hstep. generalize (parse_line st line). intros st1 IH Hstep.
    destruct IH as (Hname & Hserial & Hid & Hproduct & Huniq & Hlost & Hbus).
    destruct (split_at_equals line) as [[key value]|]; [|by subst st1].
    rewrite !values_cons.
    case_bool_decide as Hkey_id; [subst key|].
    { subst st1.
      cbn [found_name found_serial found_id info lost product_name_utf8
             serial_number_utf8 bus_type] in *.
      rewrite (bool_decide_false ("HID_ID" = "HID_NAME")) by done.
      rewrite (bool_decide_false ("HID_ID" = "HID_UNIQ")) by done.
      rewrite Hname, Hserial, Hid, Hlost.
      assert (∀ i, product_name_utf8 (store (take 3 (sscanf value)) i)
                   = product_name_utf8 i
                   ∧ serial_number_utf8 (store (take 3 (sscanf value)) i)
                     = serial_number_utf8 i
                   ∧ (bus_type (store (take 3 (sscanf value)) i) = None
                      ↔ bus_type i = None ∧ sscanf value = [])) as Hstore.
      { intros i. unfold store.
        destruct (sscanf value) as [|bus [|vendor [|product rest]]]; simpl;
          naive_solver. }
      destruct (Hstore (info st)) as (Hstore_name & Hstore_serial & Hstore_bus).
      rewrite Hstore_name, Hstore_serial in *.
      repeat (split; [done|]). split.
      - assert (bool_decide (length (take 3 (sscanf value)) = 3%nat)
                = bool_decide (3 ≤ length (sscanf value))%nat) as ->.
        { apply bool_decide_ext. rewrite length_take. lia. }
        rewrite bool_decide_Exists_cons.
        destruct (found_id st), (bool_decide (3 ≤ length (sscanf value))%nat); done.
      - rewrite Hbus, Forall_cons, Hstore_bus. naive_solver. }
    case_bool_decide as Hkey_name; [subst key|].
    { subst st1.
      cbn [found_name found_serial found_id info lost product_name_utf8
             serial_number_utf8 bus_type] in *.
      rewrite (bool_decide_false ("HID_NAME" = "HID_UNIQ")) by done.
      rewrite Hname, Hserial, Hid, Hproduct, Huniq, Hlost, Hbus.
      rewrite last_of_cons, overwritten_cons.
      rewrite (bool_decide_true (_ :: _ ≠ [])) by done. rewrite orb_true_r.
      repeat (split; [done|]). split; [|done].
      by rewrite <- !app_assoc. }
    case_bool_decide as Hkey_uniq; [subst key|].
    { subst st1.
      cbn [found_name found_serial found_id info lost product_name_utf8
             serial_number_utf8 bus_type] in *.
      rewrite Hname, Hserial, Hid, Hproduct, Huniq, Hlost, Hbus.
      rewrite last_of_cons, overwritten_cons.
      rewrite (bool_decide_true (_ :: _ ≠ [])) by done. rewrite orb_true_r.
      repeat (split; [done|]). split; [|done].
      rewrite <- !app_assoc. apply Permutation_app_head.
      rewrite (app_assoc _ (orphan _)).
      rewrite (Permutation_app_comm _ (orphan _)). by rewrite <- !app_assoc. }
    by subst st1.
Qed.

(** For a uevent that is not null, [parse_uevent_info] returns 1 or 0; it
    returns 1 exactly when some line [HID_ID=] has a value of which [sscanf]
    converts all three items, and there are a line [HID_NAME=] and a line
    [HID_UNIQ=]; and the two strings handed back are the values of the last
    line [HID_NAME=] and of the last line [HID_UNIQ=], the pointer being left
    as it was if there is none. *)
Theorem parse_uevent_info_found (uevent : string) (i : uevent_info) :
  ∃ ret st,
    parse_uevent_info (Some uevent) i = Some (ret, st)
    ∧ (ret = 0 ∨ ret = 1)
    ∧ (ret = 1 ↔
       Exists (λ v, (3 ≤ length (sscanf v))%nat) (values "HID_ID" (entries uevent))
       ∧ values "HID_NAME" (entries uevent) ≠ []
       ∧ values "HID_UNIQ" (entries uevent) ≠ [])
    ∧ product_name_utf8 (info st)
      = last_of (product_name_utf8 i) (values "HID_NAME" (entries uevent))
    ∧ serial_number_utf8 (info st)
      = last_of (serial_number_utf8 i) (values "HID_UNIQ" (entries uevent)).
Proof.
  unfold Hid.parse_uevent_info, entries. eexists _, _. split; [reflexivity|].
  destruct (parse_lines (mk_parse_state i false false false [])
              (strtok_lines uevent EmptyString))
    as (Hname & Hserial & Hid & Hproduct & Huniq & _).
  cbn zeta in *. rewrite Hname, Hserial, Hid, Hproduct, Huniq. simpl.
  split; [by repeat case_bool_decide; auto|].
  split; [|done].
  repeat case_bool_decide; simpl; naive_solver.
Qed.

(** Every line [HID_NAME=] or [HID_UNIQ=] allocates a copy of its value; of
    the strings a pointer was given, only the last is handed back, and no
    pointer is left to any of the others. *)
Theorem parse_uevent_info_leaks (uevent : string) (i : uevent_info) :
  ∃ ret st,
    parse_uevent_info (Some uevent) i = Some (ret, st)
    ∧ lost st
      ≡ₚ overwritten (product_name_utf8 i) (values "HID_NAME" (entries uevent))
         ++ overwritten (serial_number_utf8 i) (values "HID_UNIQ" (entries uevent)).
Proof.
  unfold Hid.parse_uevent_info, entries. eexists _, _. split; [reflexivity|].
  by destruct (parse_lines (mk_parse_state i false false false [])
                 (strtok_lines uevent EmptyString))
    as (_ & _ & _ & _ & _ & Hlost & _).
Qed.

(** *** get_device_string *)

Variable udev_new : bool.
Variable fstat : Z.
Variable udev_device_new_from_devnum : bool.
Variable hid_dev : option (option string).
Variable usb_device : option (string → option string).
Variable mbstowcs : string → nat → option nat.

Local Abbreviation find_string :=
  (Hid.find_string sscanf fstat udev_device_new_from_devnum hid_dev usb_device
     mbstowcs).
Local Abbreviation get_device_string :=
  (Hid.get_device_string sscanf udev_new fstat udev_device_new_from_devnum hid_dev
     usb_device mbstowcs).

Local Ltac run_proc :=
  unfold Hid.convert, deref, printf, undefined;
  unfold mbind, mret, Proc_mbind, Proc_mret, Proc_bind, Proc_ret; simpl.

Lemma find_string_undefined key maxlen :
  (find_string key maxlen).2 = Undefined ↔
  udev_device_new_from_devnum = true
  ∧ ∃ uevent, hid_dev = Some uevent
      ∧ match parse_uevent_info uevent no_info with
        | None => True
        | Some (_, st) =>
            bus_type (info st) = None
            ∨ (bus_type (info st) = Some BUS_BLUETOOTH
               ∧ ((key = DEVICE_STRING_PRODUCT ∧ product_name_utf8 (info st) = None)
                  ∨ (key = DEVICE_STRING_SERIAL
                     ∧ serial_number_utf8 (info st) = None)))
        end.
Proof.
  unfold Hid.find_string.
  destruct udev_device_new_from_devnum; [|run_proc; naive_solver].
  destruct hid_dev as [uevent|]; [|run_proc; naive_solver].
  destruct (parse_uevent_info uevent no_info) as [[ret st]|] eqn:Hparse;
    [|run_proc; split; [|done]; intros _; split; [done|];
      exists uevent; by rewrite Hparse].
  transitivity
    (bus_type (info st) = None
     ∨ (bus_type (info st) = Some BUS_BLUETOOTH
        ∧ ((key = DEVICE_STRING_PRODUCT ∧ product_name_utf8 (info st) = None)
           ∨ (key = DEVICE_STRING_SERIAL ∧ serial_number_utf8 (info st) = None)))).
  2: { split.
       - intros Hst. split; [done|]. exists uevent. by rewrite Hparse.
       - intros (_ & uevent' & [= <-] & Hst). by rewrite Hparse in Hst. }
  destruct (bus_type (info st)) as [bus|]; [|run_proc; naive_solver].
  run_proc. destruct (Z.eqb_spec bus BUS_BLUETOOTH) as [->|Hbus].
  - unfold DEVICE_STRING_MANUFACTURER, DEVICE_STRING_PRODUCT, DEVICE_STRING_SERIAL.
    destruct (Z.eqb_spec key 0) as [->|?]; [run_proc; naive_solver|].
    destruct (Z.eqb_spec key 1) as [->|?].
    { destruct (product_name_utf8 (info st)) as [name|]; run_proc;
        [destruct (mbstowcs name maxlen); run_proc|]; naive_solver. }
    destruct (Z.eqb_spec key 2) as [->|?].
    { destruct (serial_number_utf8 (info st)) as [serial|]; run_proc;
        [destruct (mbstowcs serial maxlen); run_proc|]; naive_solver. }
    run_proc. naive_solver.
  - destruct usb_device as [attributes|]; [|run_proc; naive_solver].
    destruct (_ && _); [|run_proc; naive_solver].
    destruct (attributes _) as [str|]; run_proc; [|naive_solver].
    destruct (mbstowcs str maxlen); run_proc; naive_solver.
Qed.

(** [get_device_string] does not look at what [parse_uevent_info] returns.
    Its behaviour is undefined exactly when the hid parent of the device is
    found and either its uevent is null, which [strdup] is then given; or no
    line [HID_ID=] has a value of which [sscanf] converts an item, so that
    [bus_type] is read without ever being written; or the device is on
    Bluetooth and the product or the serial number is asked for without a
    line [HID_NAME=] or [HID_UNIQ=], so that [mbstowcs] is given a null
    pointer. *)
Theorem get_device_string_undefined (key : Z) (maxlen : nat) :
  (get_device_string key maxlen).2 = Undefined ↔
  udev_new = true ∧ fstat ≠ -1 ∧ udev_device_new_from_devnum = true
  ∧ ∃ uevent, hid_dev = Some uevent
      ∧ (uevent = None
         ∨ ∃ text ret st,
             uevent = Some text
             ∧ parse_uevent_info (Some text) no_info = Some (ret, st)
             ∧ (Forall (λ v, sscanf v = []) (values "HID_ID" (entries text))
                ∨ (bus_type (info st) = Some BUS_BLUETOOTH
                   ∧ ((key = DEVICE_STRING_PRODUCT
                       ∧ values "HID_NAME" (entries text) = [])
                      ∨ (key = DEVICE_STRING_SERIAL
                         ∧ values "HID_UNIQ" (entries text) = []))))).
Proof.
  assert ((get_device_string key maxlen).2 = Undefined
          ↔ udev_new = true ∧ fstat ≠ -1 ∧ (find_string key maxlen).2 = Undefined)
    as ->.
  { unfold Hid.get_device_string.
    destruct udev_new; [|run_proc; naive_solver].
    destruct (Z.eqb_spec fstat (-1)); [run_proc; naive_solver|].
    simpl. unfold mbind, mret, Proc_mbind, Proc_mret, Proc_bind, Proc_ret.
    destruct (find_string key maxlen) as [lines [[[[ret buffer] serial] product]| |]];
      simpl; naive_solver. }
  rewrite find_string_undefined.
  assert (∀ text,
            match parse_uevent_info (Some text) no_info with
            | None => True
            | Some (_, st) =>
                bus_type (info st) = None
                ∨ (bus_type (info st) = Some BUS_BLUETOOTH
                   ∧ ((key = DEVICE_STRING_PRODUCT
                       ∧ product_name_utf8 (info st) = None)
                      ∨ (key = DEVICE_STRING_SERIAL
                         ∧ serial_number_utf8 (info st) = None)))
            end
            ↔ ∃ ret st,
                parse_uevent_info (Some text) no_info = Some (ret, st)
                ∧ (Forall (λ v, sscanf v = []) (values "HID_ID" (entries text))
                   ∨ (bus_type (info st) = Some BUS_BLUETOOTH
                      ∧ ((key = DEVICE_STRING_PRODUCT
                          ∧ values "HID_NAME" (entries text) = [])
                         ∨ (key = DEVICE_STRING_SERIAL
                            ∧ values "HID_UNIQ" (entries text) = []))))) as Htext.
  { intros text. unfold Hid.parse_uevent_info, entries.
    destruct (parse_lines (mk_parse_state no_info false false false [])
                (strtok_lines text EmptyString))
      as (_ & _ & _ & Hproduct & Huniq & _ & Hbus).
    cbn zeta in *. rewrite Hproduct, Huniq, Hbus. simpl.
    unfold last_of. simpl. rewrite !last_None. naive_solver. }
  split.
  - intros (Hudev & Hfstat & Hdev & uevent & Hhid & Hst).
    repeat (split; [done|]). exists uevent. split; [done|].
    destruct uevent as [text|]; [|by left]. right.
    apply Htext in Hst as (ret & st & Hparse & Hst). by exists text, ret, st.
  - intros (Hudev & Hfstat & Hdev & uevent & Hhid & Hst).
    repeat (split; [done|]). exists uevent. split; [done|].
    destruct Hst as [->|(text & ret & st & -> & Hparse & Hst)]; [done|].
    apply Htext. eauto.
Qed.

Lemma parse_uevent_info_ret uevent i ret st :
  parse_uevent_info uevent i = Some (ret, st) → ret = 0 ∨ ret = 1.
Proof.
  unfold Hid.parse_uevent_info. destruct uevent as [text|]; [|done].
  intros [= <- _]. destruct (_ && _ && _); auto.
Qed.


End HidProperties.

(** ** hid.c: [hid_enumerate] and [hid_free_enumeration] *)

Section EnumerateProperties.

Import Hid HidEnumerate HidEnumerateSpec.

Variable sscanf : string → list Z.
Variable mbstowcs : string → option nat.
Variable release_number_of : string → Z.
Variable interface_number_of : string → Z.
Variable malloc : gmap nat hid_device_info → nat.

Local Abbreviation enumerate_entry :=
  (HidEnumerate.enumerate_entry sscanf mbstowcs release_number_of
     interface_number_of malloc).
Local Abbreviation enumerate :=
  (HidEnumerate.enumerate sscanf mbstowcs release_number_of
     interface_number_of malloc).
Local Abbreviation hid_enumerate :=
  (HidEnumerate.hid_enumerate sscanf mbstowcs release_number_of
     interface_number_of malloc).
Local Abbreviation listed :=
  (HidEnumerateSpec.listed sscanf mbstowcs release_number_of interface_number_of).

(** Once all three ids were converted they stay written. *)
Lemma parse_line_ids (st : parse_state) (line : string) :
  (found_id st = true →
   is_Some (bus_type (info st)) ∧ is_Some (Hid.vendor_id (info st))
   ∧ is_Some (Hid.product_id (info st))) →
  found_id (parse_line sscanf st line) = true →
  is_Some (bus_type (info (parse_line sscanf st line)))
  ∧ is_Some (Hid.vendor_id (info (parse_line sscanf st line)))
  ∧ is_Some (Hid.product_id (info (parse_line sscanf st line))).
Proof.
  unfold parse_line. intros Hst.
  destruct (split_at_equals line) as [[key value]|]; [|done].
  repeat case_bool_decide; try done; cbn [found_id info]; unfold store;
    destruct (sscanf value) as [|bus [|vendor [|product rest]]]; simpl in *;
    naive_solver.
Qed.

Lemma parse_lines_ids (st : parse_state) (lines : list string) :
  (found_id st = true →
   is_Some (bus_type (info st)) ∧ is_Some (Hid.vendor_id (info st))
   ∧ is_Some (Hid.product_id (info st))) →
  found_id (foldl (parse_line sscanf) st lines) = true →
  is_Some (bus_type (info (foldl (parse_line sscanf) st lines)))
  ∧ is_Some (Hid.vendor_id (info (foldl (parse_line sscanf) st lines)))
  ∧ is_Some (Hid.product_id (info (foldl (parse_line sscanf) st lines))).
Proof.
  revert st. induction lines as [|line lines IH]; intros st Hst; [done|].
  simpl. apply IH. by apply parse_line_ids.
Qed.

Lemma parse_uevent_info_ids (uevent : option string) result parsed :
  parse_uevent_info sscanf uevent no_info = Some (result, parsed) →
  result ≠ 0 →
  is_Some (bus_type (info parsed)) ∧ is_Some (Hid.vendor_id (info parsed))
  ∧ is_Some (Hid.product_id (info parsed)).
Proof.
  unfold parse_uevent_info. destruct uevent as [uevent|]; [|done].
  intros [= <- <-] Hresult. apply parse_lines_ids; [done|].
  destruct (found_id _); [done|]. by destruct Hresult.
Qed.

Lemma chain_insert_other heap start addresses records a d :
  a ∉ addresses →
  chain heap start addresses records →
  chain (<[a := d]> heap) start addresses records.
Proof.
  revert start records.
  induction addresses as [|b addresses IH]; intros start [|r records] Ha;
    simpl; try done.
  intros (-> & link & Hb & Hchain). split; [done|]. exists link.
  apply not_elem_of_cons in Ha as [Hab Ha].
  rewrite lookup_insert_ne by done. auto.
Qed.

Lemma chain_delete_other heap start addresses records a :
  a ∉ addresses →
  chain heap start addresses records →
  chain (delete a heap) start addresses records.
Proof.
  revert start records.
  induction addresses as [|b addresses IH]; intros start [|r records] Ha;
    simpl; try done.
  intros (-> & link & Hb & Hchain). split; [done|]. exists link.
  apply not_elem_of_cons in Ha as [Hab Ha].
  rewrite lookup_delete_ne by done. auto.
Qed.

Lemma chain_length heap start addresses records :
  chain heap start addresses records → length addresses = length records.
Proof.
  revert start records.
  induction addresses as [|a addresses IH]; intros start [|r records];
    simpl; try done.
  intros (_ & link & _ & Hchain). f_equal. eauto.
Qed.

Lemma chain_last heap start addresses records c :
  chain heap start addresses records →
  last addresses = Some c →
  ∃ r, heap !! c = Some (set_next None r).
Proof.
  revert start records.
  induction addresses as [|a addresses IH]; intros start [|r records];
    simpl; try done.
  intros (-> & link & Ha & Hchain) Hlast.
  destruct addresses as [|b addresses].
  - injection Hlast as ->. destruct records; [|done]. simpl in Hchain.
    subst link. eauto.
  - eapply IH; eauto.
Qed.

Lemma chain_snoc heap start addresses records c x tmp d :
  NoDup addresses →
  chain heap start addresses records →
  last addresses = Some c →
  heap !! c = Some x →
  tmp ∉ addresses →
  chain (<[tmp := set_next None d]> (<[c := set_next (Some tmp) x]> heap))
    start (addresses ++ [tmp]) (records ++ [d]).
Proof.
  revert start records.
  induction addresses as [|a addresses IH]; intros start [|r records];
    simpl; try done.
  intros Hnodup (-> & link & Ha & Hchain) Hlast Hc Htmp.
  apply NoDup_cons in Hnodup as [Hnotin Hnodup].
  apply not_elem_of_cons in Htmp as [Htmp_a Htmp].
  split; [done|].
  destruct addresses as [|b addresses].
  - injection Hlast as ->. destruct records; [|done]. simpl in Hchain.
    subst link. exists (Some tmp).
    rewrite lookup_insert_ne, lookup_insert_eq by done.
    rewrite Ha in Hc. injection Hc as <-. split; [done|]. simpl.
    split; [done|]. exists None. by rewrite lookup_insert_eq.
  - exists link. split.
    + assert (a ≠ c) as Hac.
      { intros ->. apply Hnotin. by apply last_Some_elem_of. }
      by rewrite !lookup_insert_ne.
    + by apply IH.
Qed.

Lemma fresh_not_listed st addresses records :
  fresh_blocks malloc →
  consistent st addresses records →
  malloc (heap st) ∉ addresses.
Proof.
  intros Hfresh (_ & _ & Hdom & _) Hin.
  assert (malloc (heap st) ∈ dom (heap st)) as Hd by (rewrite Hdom; set_solver).
  apply elem_of_dom in Hd as [x Hx]. by rewrite Hfresh in Hx.
Qed.

(** A record is put at the end of the list and then assigned. *)
Lemma append_assign st addresses records d f :
  fresh_blocks malloc →
  consistent st addresses records →
  set_next None (f d) = f d →
  ∃ st',
    append malloc d st ≫= assign f = Some st'
    ∧ consistent st' (addresses ++ [malloc (heap st)]) (records ++ [f d]).
Proof.
  intros Hfresh Hst Hnext.
  pose proof (fresh_not_listed _ _ _ Hfresh Hst) as Htmp.
  destruct Hst as (Hnodup & Hchain & Hdom & Hcur).
  unfold append. rewrite Hcur.
  destruct (last addresses) as [c|] eqn:Hlast.
  - destruct (chain_last _ _ _ _ _ Hchain Hlast) as [r Hc].
    rewrite Hc. simpl. unfold assign. simpl.
    rewrite lookup_insert_eq. simpl. eexists. split; [reflexivity|].
    rewrite insert_insert_eq.
    split; [|split; [|split]]; simpl.
    + apply NoDup_app. split; [done|]. split; [|apply NoDup_singleton].
      intros a Ha ->%list_elem_of_singleton. done.
    + pose proof (chain_snoc _ _ _ _ _ _ _ (f d) Hnodup Hchain Hlast Hc Htmp)
        as Hsnoc.
      by rewrite Hnext in Hsnoc.
    + rewrite !dom_insert_L, Hdom, list_to_set_app_L. simpl.
      apply last_Some_elem_of in Hlast. set_solver.
    + by rewrite last_snoc.
  - apply last_None in Hlast. subst addresses.
    destruct records; [|done]. simpl in Hchain.
    unfold assign. simpl. rewrite lookup_insert_eq. simpl.
    eexists. split; [reflexivity|].
    rewrite insert_insert_eq.
    split; [|split; [|split]]; simpl.
    + apply NoDup_singleton.
    + split; [done|]. exists None. rewrite lookup_insert_eq.
      by rewrite Hnext.
    + rewrite dom_insert_L, Hdom. set_solver.
    + done.
Qed.

(** A record is put at the end of the list and then taken off. *)
Lemma append_drop_current st addresses records d :
  fresh_blocks malloc →
  consistent st addresses records →
  ∃ st',
    append malloc d st ≫= drop_current = Some st'
    ∧ consistent st' addresses records.
Proof.
  intros Hfresh Hst.
  pose proof (fresh_not_listed _ _ _ Hfresh Hst) as Htmp.
  destruct Hst as (Hnodup & Hchain & Hdom & Hcur).
  unfold append. rewrite Hcur.
  destruct (last addresses) as [c|] eqn:Hlast.
  - destruct (chain_last _ _ _ _ _ Hchain Hlast) as [r Hc].
    rewrite Hc. simpl. unfold drop_current. simpl.
    rewrite lookup_insert_eq. simpl.
    assert (c ≠ malloc (heap st)) as Hne.
    { intros ->. by rewrite Hfresh in Hc. }
    rewrite delete_insert_eq.
    rewrite delete_insert_ne by done.
    rewrite lookup_insert_eq. simpl.
    eexists. split; [reflexivity|].
    rewrite insert_insert_eq.
    rewrite (delete_id (heap st)) by apply Hfresh.
    rewrite insert_id by done.
    split; [|split; [|split]]; simpl; done.
  - apply last_None in Hlast. subst addresses.
    destruct records; [|done]. simpl in Hchain.
    unfold drop_current. simpl. rewrite lookup_insert_eq. simpl.
    eexists. split; [reflexivity|].
    rewrite delete_insert_eq.
    rewrite (delete_id (heap st)) by apply Hfresh.
    split; [|split; [|split]]; simpl; done.
Qed.

Lemma matches_written vendor_id product_id dev_vid dev_pid :
  matches vendor_id product_id (Some dev_vid) (Some dev_pid)
  = Some (bool_decide ((vendor_id = 0 ∨ vendor_id = dev_vid)
                       ∧ (product_id = 0 ∨ product_id = dev_pid))).
Proof.
  unfold matches, wanted. 
  destruct (vendor_id =? 0) eqn:Hv, (product_id =? 0) eqn:Hp; simpl;
    try destruct (vendor_id =? dev_vid) eqn:Hv'; simpl;
    try destruct (product_id =? dev_pid) eqn:Hp'; simpl;
    f_equal; symmetry;
    first [apply bool_decide_eq_true | apply bool_decide_eq_false]; lia.
Qed.

(** One entry of the enumeration: the list is left as it is, or the record
    of the entry is put at its end. *)
Lemma enumerate_entry_consistent vendor_id product_id st addresses records e :
  fresh_blocks malloc →
  consistent st addresses records →
  hid_dev e ≠ Some None →
  ∃ st' addresses',
    enumerate_entry vendor_id product_id st e = Some st'
    ∧ consistent st' addresses'
        (records ++ option_list (listed vendor_id product_id e)).
Proof.
  intros Hfresh Hst Huevent.
  unfold HidEnumerate.enumerate_entry, HidEnumerateSpec.listed.
  destruct (hid_dev e) as [[uevent|]|]; [|done|]; cbn [mbind option_bind].
  2: { simpl. rewrite (right_id_L [] (++)). eauto. }
  destruct (parse_uevent_info sscanf (Some uevent) no_info)
    as [[result parsed]|] eqn:Hparse; [|done]. simpl.
  destruct (result =? 0) eqn:Hresult; simpl.
  { rewrite (right_id_L [] (++)). eauto. }
  destruct (parse_uevent_info_ids _ _ _ Hparse) as ([bus ->] & [vid ->] & [pid ->]);
    [lia|]. simpl.
  rewrite matches_written. simpl.
  destruct (bus =? BUS_USB) eqn:Husb; simpl.
  - destruct (bool_decide _); simpl; [|rewrite (right_id_L [] (++)); eauto].
    destruct (usb_dev e) as [attributes|]; simpl.
    + edestruct append_assign as (st' & -> & Hst'); [done..|]. eauto.
    + rewrite (right_id_L [] (++)).
      edestruct append_drop_current as (st' & -> & Hst'); [done..|]. eauto.
  - destruct (bus =? BUS_BLUETOOTH) eqn:Hbluetooth; simpl.
    + destruct (bool_decide _); simpl; [|rewrite (right_id_L [] (++)); eauto].
      edestruct append_assign as (st' & -> & Hst'); [done..|]. eauto.
    + destruct (bool_decide _); simpl; rewrite (right_id_L [] (++)); eauto.
Qed.

Lemma enumerate_consistent vendor_id product_id devices :
  ∀ st addresses records,
  fresh_blocks malloc →
  consistent st addresses records →
  Forall (λ e, hid_dev e ≠ Some None) devices →
  ∃ st' addresses',
    enumerate vendor_id product_id st devices = Some st'
    ∧ consistent st' addresses'
        (records ++ omap (listed vendor_id product_id) devices).
Proof.
  induction devices as [|e devices IH]; intros st addresses records Hfresh Hst Hall.
  - simpl. rewrite (right_id_L [] (++)). eauto.
  - apply Forall_cons in Hall as [He Hall].
    destruct (enumerate_entry_consistent vendor_id product_id _ _ _ e Hfresh Hst He)
      as (st1 & addresses1 & Hentry & Hst1).
    destruct (IH _ _ _ Hfresh Hst1 Hall) as (st' & addresses' & Hrest & Hst').
    exists st', addresses'. split.
    + change (enumerate vendor_id product_id st (e :: devices))
        with (enumerate_entry vendor_id product_id st e
              ≫= λ st, enumerate vendor_id product_id st devices).
      by rewrite Hentry.
    + rewrite <- app_assoc in Hst'.
      replace (omap (listed vendor_id product_id) (e :: devices))
        with (option_list (listed vendor_id product_id e)
              ++ omap (listed vendor_id product_id) devices); [done|].
      simpl. by destruct (listed vendor_id product_id e).
Qed.

Lemma enumerate_undefined vendor_id product_id devices :
  ∀ st addresses records,
  fresh_blocks malloc →
  consistent st addresses records →
  Exists (λ e, hid_dev e = Some None) devices →
  enumerate vendor_id product_id st devices = None.
Proof.
  induction devices as [|e devices IH]; intros st addresses records Hfresh Hst Hsome.
  { by apply Exists_nil in Hsome. }
  change (enumerate vendor_id product_id st (e :: devices))
    with (enumerate_entry vendor_id product_id st e
          ≫= λ st, enumerate vendor_id product_id st devices).
  destruct (decide (hid_dev e = Some None)) as [He|He].
  { unfold HidEnumerate.enumerate_entry. by rewrite He. }
  apply Exists_cons in Hsome as [?|Hsome]; [done|].
  destruct (enumerate_entry_consistent vendor_id product_id _ _ _ e Hfresh Hst He)
    as (st1 & addresses1 & -> & Hst1).
  simpl. eauto.
Qed.

Lemma empty_consistent : consistent (mk_enumeration ∅ None None None) [] [].
Proof. split; [apply NoDup_nil_2|]. split; [done|]. split; [|done]. set_solver. Qed.

Lemma listed_assigned vendor_id product_id e d :
  listed vendor_id product_id e = Some d → assigned d.
Proof.
  unfold HidEnumerateSpec.listed, assigned. intros Hd.
  destruct (hid_dev e) as [uevent|]; [|done]. simpl in Hd.
  destruct (parse_uevent_info sscanf uevent no_info) as [[result parsed]|];
    [|done]. simpl in Hd.
  destruct (result =? 0); [done|].
  destruct (bus_type (info parsed)) as [bus|]; [|done].
  destruct (Hid.vendor_id (info parsed)) as [vid|]; [|done].
  destruct (Hid.product_id (info parsed)) as [pid|]; [|done]. simpl in Hd.
  destruct (bool_decide _); [|done].
  destruct (bus =? BUS_USB).
  - destruct (usb_dev e) as [attributes|]; [|done].
    injection Hd as <-. simpl. eauto.
  - destruct (bus =? BUS_BLUETOOTH); [|done].
    injection Hd as <-. simpl. eauto.
Qed.

Lemma omap_length_le {A B} (f : A → option B) (l : list A) :
  (length (omap f l) ≤ length l)%nat.
Proof.
  induction l as [|x l IH]; simpl; [done|].
  destruct (f x); simpl; [apply le_n_S|apply Nat.le_le_succ_r]; exact IH.
Qed.

Lemma omap_listed_assigned vendor_id product_id devices :
  Forall assigned (omap (listed vendor_id product_id) devices).
Proof.
  apply Forall_forall. intros d (e & _ & Hd)%list_elem_of_omap.
  by eapply listed_assigned.
Qed.

(** A list whose records were all assigned is freed record by record. *)
Lemma free_chain addresses :
  ∀ heap start records fuel,
  NoDup addresses →
  chain heap start addresses records →
  Forall assigned records →
  (length addresses ≤ fuel)%nat →
  hid_free_enumeration fuel heap start = freed (without addresses heap).
Proof.
  induction addresses as [|a addresses IH];
    intros heap start [|r records] fuel Hnodup Hchain Hassigned Hfuel;
    simpl in Hchain; try done.
  { subst start. by destruct fuel. }
  destruct Hchain as (-> & link & Ha & Hchain).
  apply NoDup_cons in Hnodup as [Hnotin Hnodup].
  apply Forall_cons in Hassigned as [([m Hm] & [p Hp]) Hassigned].
  destruct fuel as [|fuel]; [simpl in Hfuel; lia|].
  simpl. rewrite Ha. destruct r as [? ? ? ? ? manufacturer product ? ?].
  simpl in Hm, Hp. subst manufacturer product. simpl.
  apply IH with records; [done| |done|simpl in Hfuel; lia].
  by apply chain_delete_other.
Qed.

Lemma dom_without addresses :
  ∀ heap, dom (without addresses heap) = dom heap ∖ list_to_set addresses.
Proof.
  induction addresses as [|a addresses IH]; intros heap; simpl.
  - set_solver.
  - unfold without in *. simpl. rewrite IH, dom_delete_L. set_solver.
Qed.

(** X29. If [udev_new] succeeds and [malloc] returns blocks that are not
    in use, [hid_enumerate] has undefined behaviour when some entry has a
    hid parent without the attribute [uevent] (the null pointer reaches
    [strdup]); otherwise it prints nothing and returns a well-formed list:
    the records of the entries that are listed, in the order of the entries,
    each linked to the next and the last to null, at distinct addresses, and
    no other record is left allocated (a record that was taken off the list
    again is freed). *)
Theorem hid_enumerate_lists (devices : list hidraw) (vendor_id product_id : Z) :
  fresh_blocks malloc →
  (Exists (λ e, hid_dev e = Some None) devices →
   hid_enumerate true devices vendor_id product_id = ([], Undefined))
  ∧ (Forall (λ e, hid_dev e ≠ Some None) devices →
     ∃ heap root addresses,
       hid_enumerate true devices vendor_id product_id
       = ([], Returned (heap, root))
       ∧ NoDup addresses
       ∧ dom heap = list_to_set addresses
       ∧ chain heap root addresses (omap (listed vendor_id product_id) devices)).
Proof.
  intros Hfresh. unfold HidEnumerate.hid_enumerate. simpl. split.
  - intros Hsome.
    by rewrite (enumerate_undefined vendor_id product_id devices _ _ _ Hfresh
                  empty_consistent Hsome).
  - intros Hall.
    destruct (enumerate_consistent vendor_id product_id devices _ _ _ Hfresh
                empty_consistent Hall)
      as (st & addresses & -> & Hnodup & Hchain & Hdom & _).
    exists (heap st), (root st), addresses. done.
Qed.

(** X30. If no entry has a hid parent without the attribute [uevent],
    [hid_free_enumeration] applied to what [hid_enumerate] returns ends
    after at most as many records as there are entries, frees only records
    and strings that were allocated and assigned, and leaves no record
    allocated. *)
Theorem hid_free_enumeration_frees_all (devices : list hidraw)
    (vendor_id product_id : Z) :
  fresh_blocks malloc →
  Forall (λ e, hid_dev e ≠ Some None) devices →
  ∃ heap root,
    hid_enumerate true devices vendor_id product_id = ([], Returned (heap, root))
    ∧ ∀ fuel, (length devices ≤ fuel)%nat →
              hid_free_enumeration fuel heap root = freed ∅.
Proof.
  intros Hfresh Hall. unfold HidEnumerate.hid_enumerate. simpl.
  destruct (enumerate_consistent vendor_id product_id devices _ _ _ Hfresh
              empty_consistent Hall)
    as (st & addresses & -> & Hnodup & Hchain & Hdom & _).
  exists (heap st), (root st). split; [done|]. intros fuel Hfuel.
  simpl in Hchain.
  assert (length addresses ≤ length devices)%nat as Hlength.
  { rewrite (chain_length _ _ _ _ Hchain). apply omap_length_le. }
  rewrite (free_chain addresses _ _ _ _ Hnodup Hchain
             (omap_listed_assigned vendor_id product_id devices));
    [|lia].
  f_equal. apply dom_empty_inv_L. rewrite dom_without, Hdom. set_solver.
Qed.

End EnumerateProperties.

(** ** The theorems at concrete inputs *)

Section Witnesses.

Import Par Gp4prog Examples.

Lemma example_netlist_placed :
  Forall (λ n : NetlistNode, is_Some (m_mate n)) (m_nodes example_netlist).
Proof. repeat constructor; by eexists. Defined.

Lemma example_iobs_pass (acmps : list ComparatorState) (lfosc rosc : OscillatorState) :
  Forall (λ it : Z * IOBState, analog_mismatch it.2 = false)
    (m_iobs (device_with acmps lfosc rosc)).
Proof. by repeat constructor. Defined.

Lemma no_load_warnings_witness :
  for_each (check_node example_ports) (m_nodes example_netlist)
  = ([(Stdout, "    WARNING: Node " +:+ (dq +:+ "ff" +:+ dq) +:+ " has no load" +:+ nl)],
     Returned tt).
Proof.
  exact (proj1 (no_load_warnings example_ports example_name example_netlist
                  sharing_device example_netlist_placed)).
Defined.

Lemma acmp_mux_conflict_witness :
  PostPARDRC example_ports example_name example_netlist conflict_device
  = ([(Stdout, drc_banner);
      (Stdout, no_load_warning flipflop);
      (Stderr, "    ERROR: Multiple comparators tried to simultaneously use "
                 +:+ "different outputs from the ACMP0 input mux" +:+ nl);
      (Stdout, "        Comparator      cmp_a requested pin 6" +:+ nl);
      (Stdout, "        Comparator      cmp_b requested VDD" +:+ nl)],
     Exited (-1)).
Proof.
  refine (proj1 (proj1 (acmp_mux_conflict example_ports example_name example_netlist
                          conflict_device eq_refl example_netlist_placed
                          (example_iobs_pass _ _ _) _) _)).
  - by eexists.
  - exists (used_acmp 1 "cmp_a" pin6), (used_acmp 2 "cmp_b" vdd).
    split; [|split]; [| |done]; apply list_elem_of_In; vm_compute; auto.
Defined.


Lemma oscillator_powerdown_sharing_witness :
  PostPARDRC example_ports example_name example_netlist powerdown_device
  = ([(Stdout, drc_banner);
      (Stdout, no_load_warning flipflop);
      (Stderr, "    ERROR: Multiple oscillators have power-down enabled, "
                 +:+ "but do not share the same power-down signal" +:+ nl);
      (Stdout, "    Oscillator    LFOSC_0 powerdown is pin 2" +:+ nl);
      (Stdout, "    Oscillator  RINGOSC_0 powerdown is pin 4" +:+ nl)],
     Exited (-1)).
Proof.
  refine (proj1 (proj2 (oscillator_powerdown_sharing example_ports example_name
                          example_netlist powerdown_device
                          [(Stdout, drc_banner); (Stdout, no_load_warning flipflop)]
                          powerdown_device eq_refl)) _).
  exists (GetLFOscillator powerdown_device), (GetRingOscillator powerdown_device).
  split; [|split]; [| |done]; apply list_elem_of_In; vm_compute; auto.
Defined.


Lemma download_keeps_bits_witness :
  ∃ image,
    prepare_download 2048 example_options example_file
    = CallDownloadBitstream EMULATION image
    ∧ length image = 256%nat.
Proof.
  destruct (download_keeps_bits 2048 example_options example_file)
    as (image & Hrun & Hlen & _).
  - apply Forall_app. split; [apply Forall_replicate; lia|repeat constructor; lia].
  - unfold example_file. rewrite length_app, length_replicate. simpl. lia.
  - reflexivity.
  - exists image. split; [exact Hrun|exact Hlen].
Defined.

Lemma PostPARDRC_unmated_witness :
  (PostPARDRC example_ports example_name
     (mkGraph (m_nodes example_netlist ++ [unplaced_flipflop]) 4) sharing_device).2
  = Undefined.
Proof.
  refine (proj1 (PostPARDRC_unmated example_ports example_name _ sharing_device _)).
  apply Exists_app. right. by constructor.
Defined.

Lemma AllocateLabel_keeps_lockstep_witness :
  ∃ ngraph' dgraph' lmap',
    AllocateLabel example_netlist (mkGraph ([] : list DeviceNode) 3) ∅ "GP_DFF"
    = ([], Returned (3, ngraph', dgraph', lmap'))
    ∧ m_nextLabel ngraph' = m_nextLabel dgraph'.
Proof.
  exact (AllocateLabel_keeps_lockstep example_netlist
           (mkGraph ([] : list DeviceNode) 3) ∅ "GP_DFF" eq_refl).
Defined.

Lemma download_short_part_witness :
  prepare_download 1024 example_options (replicate 128 0) = OutOfBounds.
Proof.
  apply download_short_part_out_of_bounds; [done|done|].
  rewrite length_replicate. lia.
Defined.


Lemma sharing_device_run :
  PostPARDRC example_ports example_name example_netlist sharing_device
  = ([(Stdout, drc_banner); (Stdout, no_load_warning flipflop); (Stdout, acmp0_info)],
     Returned sharing_device_after).
Proof. reflexivity. Defined.

Lemma PostPARDRC_frame_witness :
  m_iobs sharing_device_after = m_iobs sharing_device
  ∧ oscillators sharing_device_after = oscillators sharing_device.
Proof.
  destruct (PostPARDRC_frame example_ports example_name example_netlist sharing_device
              _ _ sharing_device_run) as (_ & Hiobs & Hosc & _).
  exact (conj Hiobs Hosc).
Defined.

Lemma PostPARDRC_idempotent_witness :
  ∃ out',
    PostPARDRC example_ports example_name example_netlist sharing_device_after
    = (out', Returned sharing_device_after).
Proof.
  destruct (PostPARDRC_idempotent example_ports example_name example_netlist
              sharing_device _ _ sharing_device_run) as (out' & Hrun & _).
  by exists out'.
Defined.

Lemma example_DoPAR_run :
  DoPAR example_ports example_name unit example_BuildGraphs failing_PlaceAndRoute
    example_CommitChanges example_PlacementReport example_UtilizationReport
    tt sharing_device
  = ([(Stdout, creating_graphs); (Stdout, "btn"); (Stdout, "ff"); (Stdout, "led");
      (Stdout, par_failed)],
     Returned (false, sharing_device)).
Proof. reflexivity. Defined.


Lemma example_NewPort_keeps : NetlistModule.keeps_ports string example_NewPort.
Proof.
  intros cname cobject m out port m' [= _ _ <-]. unfold NetlistModule.GetNode.
  by destruct (NetlistModule.m_nodes string m !! 2).
Defined.

Lemma example_NewPort_accepts : NetlistModule.accepts_ports string example_NewPort.
Proof. intros cname cobject m. by eexists [], _, _. Defined.

Lemma new_module_ports_witness :
  ∃ m,
    NetlistModule.new_Greenpak4NetlistModule string example_NewPort "top" example_module
    = ([(Stdout, "Module top..." +:+ nl); (Stdout, "    Cell ff" +:+ nl)], Returned m)
    ∧ dom (NetlistModule.m_ports string m) = {["clk"; "led"]}.
Proof.
  eexists. split; [reflexivity|].
  destruct (new_module_ports example_NewPort "top" example_module _ _
              example_NewPort_keeps eq_refl)
    as (members & Hobj & _ & Hdom & _).
  injection Hobj as <-. rewrite Hdom. set_solver.
Defined.

Lemma redeclared_port_loaded_silently_witness :
  ∃ out m,
    NetlistModule.new_Greenpak4NetlistModule string example_NewPort "top"
      (NetlistModule.json_tokener_parse twice_declared_port)
    = ((Stdout, "Module " +:+ "top" +:+ "..." +:+ nl) :: out, Returned m)
    ∧ stderr_of out = []
    ∧ dom (NetlistModule.m_ports string m) = list_to_set ["a"; "a"].
Proof.
  apply (redeclared_port_loaded_silently example_NewPort "top"
           [("a", NetlistModule.text_members []); ("a", NetlistModule.text_members [])]
           example_NewPort_keeps example_NewPort_accepts).
  repeat constructor; by eexists.
Defined.

Lemma sections_other_than_ports_witness :
  NetlistModule.load_member string example_NewPort "attributes"
    (NetlistModule.json_members []) (NetlistModule.mkModule string ∅ ∅ 0)
  = ([], Returned (NetlistModule.mkModule string ∅ ∅ 0)).
Proof.
  exact (sections_other_than_ports example_NewPort "attributes" []
           (NetlistModule.mkModule string ∅ ∅ 0) ltac:(done) ltac:(constructor)).
Defined.

Lemma example_file_bytes : Forall (λ b, 0 ≤ b < 256) example_file.
Proof.
  apply Forall_app. split; [apply Forall_replicate; lia|repeat constructor; lia].
Defined.

Lemma blank_file_bytes : Forall (λ b, 0 ≤ b < 256) blank_file.
Proof. apply Forall_replicate. lia. Defined.

Lemma download_changes_field_bits_witness :
  ∃ bitFunction,
    BitFunction SLG46620V (Z.of_nat 1982) = Some bitFunction
    ∧ ((bitFunction = "RC oscillator trimming value"
        ∧ (1975 ≤ 1982 ≤ 1981)%nat
        ∧ Z.testbit (rcFtw trim_options) (Z.of_nat 1982 - 1975) = true)
       ∨ (bitFunction = "unknown--reserved"
          ∧ 1982%nat = 1982%nat ∧ 128 ≤ rcFtw trim_options)
       ∨ (bitFunction = "pattern ID"
          ∧ (2031 ≤ 1982 ≤ 2038)%nat
          ∧ patternIdSpecified trim_options = true
          ∧ Z.testbit (patternId trim_options) (Z.of_nat 1982 - 2031) = true)
       ∨ (bitFunction = "read protection"
          ∧ 1982%nat = 2039%nat ∧ readProtect trim_options = true)).
Proof.
  eapply (download_changes_field_bits trim_options blank_file _ 1982).
  - exact blank_file_bytes.
  - simpl. lia.
  - simpl. lia.
  - vm_compute. reflexivity.
  - vm_compute. discriminate.
Defined.

Lemma logged_patternID_or_witness :
  ∃ stored,
    read_patternID example_file = Some stored
    ∧ logged_patternID trim_options example_file = Some (Z.lor stored 90).
Proof.
  apply (logged_patternID_or trim_options example_file).
  - exact example_file_bytes.
  - unfold example_file. rewrite length_app, length_replicate. simpl. lia.
  - simpl. lia.
Defined.

Lemma verify_reports_differences_witness :
  ∃ failed differences,
    verify SLG46620V example_file blank_file 256 = Verified failed differences
    ∧ (failed = false ↔ example_file = blank_file).
Proof.
  destruct (verify_reports_differences example_file blank_file 256)
    as (failed & differences & Hrun & Hpassed & _).
  - exact example_file_bytes.
  - exact blank_file_bytes.
  - reflexivity.
  - reflexivity.
  - exists failed, differences. split; [exact Hrun|exact Hpassed].
Defined.

Lemma verify_unknown_part_witness :
  verify UNRECOGNIZED example_file blank_file 256
  = if bool_decide (example_file = blank_file)
    then Verified false [] else UnknownPart.
Proof.
  apply verify_unknown_part.
  - discriminate.
  - exact example_file_bytes.
  - exact blank_file_bytes.
  - reflexivity.
  - reflexivity.
Defined.

End Witnesses.

Section MainWitnesses.

Import Gp4prog Gp4progMain MainSpec Examples.

Lemma example_parse_run : example_parse example_args = Some (Ok example_command).
Proof. reflexivity. Defined.

Lemma example_history :
  history (example_run example_command start).1
  = [call_OpenBoard; call_SetStatusLED true; call_DetectPart;
     call_ReadBitstream "a.txt"; call_DownloadBitstream example_file PROGRAMMING;
     call_UploadBitstream 256; call_SetIOConfig reset_pins; call_CheckStatus;
     call_SetStatusLED false; call_USBCleanup].
Proof. vm_compute. reflexivity. Defined.

Lemma example_ending :
  (example_run example_command start).2 = Ended (Return 0).
Proof. vm_compute. reflexivity. Defined.

Lemma parse_keeps_download_witness :
  example_parse ["--program"; "a.txt"; "--reset"] = Some (Ok (set_reset unit true example_command))
  ∧ downloadFilename unit (set_reset unit true example_command) = "a.txt"
  ∧ programNvram unit (set_reset unit true example_command) = true
  ∧ parse_arguments unit example_logger example_strtol example_strtod
      example_format_3g ["--emulate"; "b.txt"] 0 example_command
    = Some (Stop ("only one --emulate or --program option can be specified" +:+ nl) 1)
  ∧ parse_arguments unit example_logger example_strtol example_strtod
      example_format_3g ["b.txt"] 0 example_command
    = Some (Stop ("Unrecognized command-line argument " +:+ (dq +:+ "b.txt" +:+ dq)
                    +:+ ", use --help" +:+ nl) 1).
Proof.
  destruct (parse_keeps_download unit example_logger example_strtol example_strtod
              example_format_3g example_command ltac:(discriminate))
    as [Hkept Hsecond].
  split; [reflexivity|].
  destruct (Hkept ["--reset"] 0%nat (set_reset unit true example_command) eq_refl)
    as [Hfile Hnvram].
  split; [exact Hfile|]. split; [exact Hnvram|]. split.
  - exact (proj1 (Hsecond "--emulate" ["b.txt"] eq_refl) (or_intror (or_introl eq_refl))).
  - exact (proj2 (Hsecond "b.txt" [] eq_refl) ltac:(discriminate)).
Defined.

Lemma main_downloads_witness :
  ∃ (c : CommandLine unit) h part programmed kind h' rcFtw,
    example_parse example_args = Some (Ok c)
    ∧ downloadFilename unit c ≠ EmptyString
    ∧ DetectPart example_board h = Some (part, programmed, kind)
    ∧ 0 ≤ rcFtw < 256
    ∧ prepare_download (Z.of_nat (BitstreamLength example_board part))
        (options unit c rcFtw)
        (ReadBitstream example_board h' (downloadFilename unit c))
      = CallDownloadBitstream PROGRAMMING example_file
    ∧ (PROGRAMMING = PROGRAMMING →
         "--program" ∈ example_args ∧ (kind = EMPTY ∨ "--force" ∈ example_args)).
Proof.
  apply (main_downloads unit tt example_at_least example_logger example_strtol
           example_strtod example_format_3g example_format_02x example_board
           example_args (example_run example_command start).1
           (example_run example_command start).2 example_file PROGRAMMING).
  - unfold main. change (parse _ _ _ _ _ _ example_args) with (example_parse example_args).
    rewrite example_parse_run. exact (f_equal Some (surjective_pairing _)).
  - rewrite example_history. do 4 constructor 2. constructor 1.
Defined.

Lemma example_run_result :
  run unit tt example_at_least example_format_3g example_format_02x example_board
    example_command start
  = ((example_run example_command start).1, Ended (Return 0)).
Proof. vm_compute. reflexivity. Defined.

Lemma run_returns_0_witness :
  OpenBoard example_board [] = true
  ∧ ((no_actions unit example_command = true
      ∧ history (example_run example_command start).1 = [call_OpenBoard])
     ∨ (no_actions unit example_command = false
        ∧ ∃ h, history (example_run example_command start).1
               = h ++ [call_CheckStatus; call_SetStatusLED false; call_USBCleanup]
               ∧ CheckStatus example_board h = true)).
Proof.
  exact (run_returns_0 unit tt example_at_least example_format_3g example_format_02x
           example_board example_command _ example_run_result).
Defined.

Lemma example_board_cooperative : cooperative example_board SLG46620V blank_file EMPTY.
Proof.
  repeat split; intros; try reflexivity.
  - by eexists.
  - eexists. split; [reflexivity|]. apply length_replicate.
Defined.

Lemma run_succeeds_witness :
  (example_run example_command start).2 = Ended (Return 0).
Proof.
  apply (run_succeeds unit tt example_at_least example_format_3g example_format_02x
           example_board example_command SLG46620V blank_file EMPTY).
  - exact example_board_cooperative.
  - intros _ h. split; [reflexivity|]. vm_compute. lia.
  - intros _. split; [reflexivity|by left].
  - intros Hfreq. by destruct Hfreq.
Defined.

End MainWitnesses.

Section EnumerateWitnesses.

Import Hid HidEnumerate HidEnumerateSpec Examples.

Lemma example_malloc_fresh : fresh_blocks example_malloc.
Proof.
  intros h. unfold example_malloc.
  apply (not_elem_of_dom (D := gset nat)). apply is_fresh.
Defined.

Lemma example_devices_uevent :
  Forall (λ e, hid_dev e ≠ Some None) example_devices.
Proof. repeat constructor; discriminate. Defined.

Lemma hid_enumerate_lists_witness :
  ∃ heap root addresses,
    hid_enumerate example_sscanf example_mbstowcs example_number_of
      example_number_of example_malloc true example_devices 0 0
    = ([], Returned (heap, root))
    ∧ NoDup addresses
    ∧ dom heap = list_to_set addresses
    ∧ chain heap root addresses
        (omap (listed example_sscanf example_mbstowcs example_number_of
                 example_number_of 0 0) example_devices).
Proof.
  apply (hid_enumerate_lists example_sscanf example_mbstowcs example_number_of
           example_number_of example_malloc example_devices 0 0).
  - exact example_malloc_fresh.
  - exact example_devices_uevent.
Defined.

Lemma hid_free_enumeration_frees_all_witness :
  ∃ heap root,
    hid_enumerate example_sscanf example_mbstowcs example_number_of
      example_number_of example_malloc true example_devices 0 0
    = ([], Returned (heap, root))
    ∧ ∀ fuel, (length example_devices ≤ fuel)%nat →
              hid_free_enumeration fuel heap root = freed ∅.
Proof.
  apply (hid_free_enumeration_frees_all example_sscanf example_mbstowcs
           example_number_of example_number_of example_malloc example_devices 0 0).
  - exact example_malloc_fresh.
  - exact example_devices_uevent.
Defined.

End EnumerateWitnesses.
